(** * book-finder: the chat-to-book-card pipeline, embedded and verified

    A shallow embedding of the chat pipeline of the book-finder web
    application: the cover-URL derivation of [lib/utils], the Gemini
    completion client of [lib/gemini], the usage and history hook
    [useChatDatabase], and the [BookChatbot] component (relevance gate,
    candidate extraction, catalog resolution, turn controller).

    Where the code lives in the sources: [useChatDatabase] in
    hooks/useChatDatabase.ts; [BookChatbot] in the second module of
    components/FilterSidebar.tsx; [callGeminiAPI] of lib/gemini and
    [generateCoverUrls] of lib/utils in the last two modules of
    hooks/useUserBooks.ts; the tables in the SQL migration.

    Conventions of the embedding.
    - JavaScript strings are [string]s of 8-bit code units; the texts the
      pipeline inspects are taken to be ASCII, so [toLowerCase] and
      [toUpperCase] act on [A-Z] / [a-z] and [\s] is the ASCII white space.
    - JavaScript integers are [Z]; an absent (undefined / null) field is
      [None]; truthiness is written out ([0] and the empty string are
      falsy).
    - The outside world (model endpoint, catalog endpoint, clock, JSON
      codec) is a record of oracles, [Platform]; the Supabase store is an
      explicit table model; every round trip is recorded in an event log so
      that call counts can be stated. *)

From Stdlib Require Import ZArith QArith Lia Bool Ascii.
From stdpp Require Import gmap strings list pretty sorting.

Open Scope Z_scope.

(** ** JavaScript string primitives *)

Module Js.

Definition dquote : ascii := "034"%char.
Definition star : ascii := "*"%char.

Definition str1 (c : ascii) : string := String c EmptyString.

(** The ASCII part of the [\s] class, which is also what [trim] strips. *)
Definition isSpace (c : ascii) : bool := Ascii.is_space c.

Definition isUpper (c : ascii) : bool :=
  let n := nat_of_ascii c in (65 <=? n)%nat && (n <=? 90)%nat.

Definition isLower (c : ascii) : bool :=
  let n := nat_of_ascii c in (97 <=? n)%nat && (n <=? 122)%nat.

Definition isLetter (c : ascii) : bool := isUpper c || isLower c.

Definition lowerChar (c : ascii) : ascii :=
  if isUpper c then ascii_of_nat (nat_of_ascii c + 32) else c.

Definition upperChar (c : ascii) : ascii :=
  if isLower c then ascii_of_nat (nat_of_ascii c - 32) else c.

Fixpoint mapChars (f : ascii -> ascii) (s : string) : string :=
  match s with
  | EmptyString => EmptyString
  | String c s' => String (f c) (mapChars f s')
  end.

Definition toLowerCase : string -> string := mapChars lowerChar.
Definition toUpperCase : string -> string := mapChars upperChar.

Fixpoint startsWith (s p : string) {struct p} : bool :=
  match p, s with
  | EmptyString, _ => true
  | String _ _, EmptyString => false
  | String a p', String b s' => if Ascii.eqb a b then startsWith s' p' else false
  end.

(** [s.includes(needle)] *)
Fixpoint includes (s needle : string) : bool :=
  startsWith s needle ||
  match s with
  | EmptyString => false
  | String _ s' => includes s' needle
  end.

Fixpoint dropStr (n : nat) (s : string) : string :=
  match n, s with
  | O, _ => s
  | S _, EmptyString => EmptyString
  | S n', String _ s' => dropStr n' s'
  end.

(** [s.replace(pat, by)] with a string pattern: the first occurrence only. *)
Fixpoint replaceFirst (pat by_ s : string) : string :=
  if startsWith s pat then by_ +:+ dropStr (String.length pat) s
  else match s with
       | EmptyString => EmptyString
       | String c s' => String c (replaceFirst pat by_ s')
       end.

Fixpoint trimStart (s : string) : string :=
  match s with
  | EmptyString => EmptyString
  | String c s' => if isSpace c then trimStart s' else s
  end.

(** [trimEnd] keeps a character when it is no white space or when
    something is kept after it. *)
Fixpoint trimEnd (s : string) : string :=
  match s with
  | EmptyString => EmptyString
  | String c s' =>
      match trimEnd s' with
      | EmptyString => if isSpace c then EmptyString else str1 c
      | r => String c r
      end
  end.

Definition trim (s : string) : string := trimEnd (trimStart s).

(** Truthiness of a string and of a number. *)
Definition truthyS (s : string) : bool :=
  match s with EmptyString => false | _ => true end.

Definition truthyZ (n : Z) : bool := negb (n =? 0).

(** [x && ...] on an optional field: absent is falsy. *)
Definition truthyOS (o : option string) : bool :=
  match o with Some s => truthyS s | None => false end.

Definition truthyOZ (o : option Z) : bool :=
  match o with Some n => truthyZ n | None => false end.

(** [`${n}`] for an integer. *)
Definition showZ (n : Z) : string := pretty n.

(** [`${x}`] for an optional field. *)
Definition showOS (o : option string) : string :=
  match o with Some s => s | None => "undefined" end.

Definition showOZ (o : option Z) : string :=
  match o with Some n => showZ n | None => "undefined" end.

(** [arr.join(sep)] *)
Fixpoint join (sep : string) (l : list string) : string :=
  match l with
  | [] => EmptyString
  | [s] => s
  | s :: rest => s +:+ sep +:+ join sep rest
  end.

(** [arr.slice(0, n)] and [arr.slice(-n)] *)
Definition sliceTo {A} (n : nat) (l : list A) : list A := take n l.
Definition sliceLast {A} (n : nat) (l : list A) : list A :=
  drop (length l - n) l.

(** The substring relation [includes] decides. *)
Definition Substring (needle s : string) : Prop :=
  exists pre suf, s = pre +:+ needle +:+ suf.

End Js.

(** ** Catalog records and the canonical Book shape *)

(** A document of the Open Library search response; every field optional. *)
Record Doc := mkDoc {
  doc_key : option string;
  doc_title : option string;
  doc_subtitle : option string;
  doc_author_name : option (list string);
  doc_isbn : option (list string);
  doc_cover_i : option Z;
  doc_edition_key : option (list string);
  doc_first_publish_year : option Z;
  doc_edition_count : option Z;
  doc_subject : option (list string);
  doc_number_of_pages_median : option Z;
  doc_publisher : option (list string);
  doc_language : option (list string)
}.

Record Book := mkBook {
  book_id : string;
  book_title : string;
  book_authors : list string;
  book_description : string;
  book_cover : option string;
  book_coverUrls : option (list string);
  book_publishedDate : option Z;
  book_categories : list string;
  book_pageCount : option Z;
  book_infoLink : option string;
  book_publisher : option string;
  book_language : option string
}.

Definition emptyDoc : Doc :=
  mkDoc None None None None None None None None None None None None None.

(** ** lib/utils: generateCoverUrls *)

Module Utils.
Import Js.

Definition isbnCoverUrl (isbn : string) : string :=
  "https://covers.openlibrary.org/b/isbn/" +:+ isbn +:+ "-L.jpg?default=false".

Definition idCoverUrl (cover_i : Z) : string :=
  "https://covers.openlibrary.org/b/id/" +:+ showZ cover_i +:+ "-L.jpg?default=false".

Definition olidCoverUrl (olid : string) : string :=
  "https://covers.openlibrary.org/b/olid/" +:+ olid +:+ "-L.jpg?default=false".

(** [Array.isArray(a) && a.length ? a[0] : null] *)
Definition firstOf (a : option (list string)) : option string :=
  match a with
  | Some (x :: _) => Some x
  | _ => None
  end.

Definition pushIf (c : bool) (url : string) (urls : list string) : list string :=
  if c then urls ++ [url] else urls.

Definition generateCoverUrls (doc : Doc) : option (list string) :=
  let isbn := firstOf (doc_isbn doc) in
  let olid :=
    match doc_key doc with
    | Some k =>
        if truthyS k
        then Some (replaceFirst "/books/" EmptyString (replaceFirst "/works/" EmptyString k))
        else None
    | None => None
    end in
  let urls := [] in
  (* Strategy 1: ISBN cover *)
  let urls := pushIf (truthyOS isbn) (isbnCoverUrl (default EmptyString isbn)) urls in
  (* Strategy 2: cover id *)
  let urls := pushIf (truthyOZ (doc_cover_i doc))
                     (idCoverUrl (default 0 (doc_cover_i doc))) urls in
  (* Strategy 3: work OLID *)
  let urls := pushIf (truthyOS olid && negb (bool_decide (olid = isbn)))
                     (olidCoverUrl (default EmptyString olid)) urls in
  (* Strategy 4: edition key *)
  let urls := pushIf (match doc_edition_key doc with Some (_ :: _) => true | _ => false end)
                     (olidCoverUrl (default EmptyString (firstOf (doc_edition_key doc)))) urls in
  match urls with
  | [] => None
  | _ => Some urls
  end.

End Utils.

(** ** The outside world *)

Inductive Role := RoleUser | RoleAssistant.

Record Message := mkMessage {
  msg_id : string;
  msg_role : Role;
  msg_content : string;
  msg_books : option (list Book);
  msg_timestamp : Z
}.

(** What a promise of the model endpoint settles to. *)
Inductive Outcome :=
| Resolved (text : string)
| Rejected (message : string).

(** The oracles of the platform. [generateContent n prompt] answers the
    completion call that follows [n] earlier ones; [fetchDocs url] is
    [data.docs] of the catalog response ([None]: [fetch] or [json()]
    rejects; a missing [docs] reads as the empty list); [Date_now n] is the
    clock after [n] recorded events. *)
Record Platform := mkPlatform {
  apiKeyConfigured : bool;
  generateContent : nat -> string -> Outcome;
  fetchDocs : string -> option (list Doc);
  encodeURIComponent : string -> string;
  JSON_parse_strings : string -> option (list string);
  JSON_stringify_books : list Book -> string;
  JSON_parse_books : string -> option (list Book);
  Date_now : nat -> Z;
  isoDate : Z -> string;
  getFullYear : Z -> Z
}.

(** ** The Supabase store: tables chat_usage and chat_messages *)

Module Supabase.

Record MessageRow := mkRow {
  row_id : string;
  row_user_id : string;
  row_role : Role;
  row_content : string;
  row_books : option string;
  row_created_at : Z
}.

(** How the client's round trips end, tables apart. *)
Inductive Health :=
| Healthy
| Failing (code : string)   (* an error object with this code *)
| Throwing.                 (* the awaited call rejects *)

(** A table that is [None] does not exist (PostgreSQL error 42P01).
    chat_usage has UNIQUE(user_id, date): a finite map on that key. *)
Record Store := mkStore {
  chat_usage : option (gmap (string * string) Z);
  chat_messages : option (list MessageRow);
  health : Health
}.

Inductive PgResult (A : Type) :=
| PgData (data : A)
| PgError (code : string)
| PgThrown.
Arguments PgData {A} data.
Arguments PgError {A} code.
Arguments PgThrown {A}.

Definition undefined_table : string := "42P01".

Definition onTable {T A} (s : Store) (table : option T) (k : T -> PgResult A) : PgResult A :=
  match health s with
  | Throwing => PgThrown
  | Failing code => PgError code
  | Healthy =>
      match table with
      | None => PgError undefined_table
      | Some t => k t
      end
  end.

(** [.select('count').eq('user_id', u).eq('date', d).single()] *)
Definition selectUsage (s : Store) (user date : string) : PgResult Z :=
  onTable s (chat_usage s) (fun t =>
    match t !! (user, date) with
    | Some c => PgData c
    | None => PgError "PGRST116"
    end).

(** [.upsert({user_id, date, count}, {onConflict: 'user_id,date'})] *)
Definition upsertUsage (s : Store) (user date : string) (count : Z)
  : PgResult unit * Store :=
  match onTable s (chat_usage s) (fun t => PgData t) with
  | PgData t =>
      (PgData tt, mkStore (Some (<[(user, date) := count]> t)) (chat_messages s) (health s))
  | PgError code => (PgError code, s)
  | PgThrown => (PgThrown, s)
  end.

Fixpoint insertBy {A} (le : A -> A -> bool) (x : A) (l : list A) : list A :=
  match l with
  | [] => [x]
  | y :: l' => if le x y then x :: l else y :: insertBy le x l'
  end.

(** A stable sort: an element goes before the later ones it is not above. *)
Definition sortBy {A} (le : A -> A -> bool) (l : list A) : list A :=
  foldr (insertBy le) [] l.

Definition rowsOf (user : string) (t : list MessageRow) : list MessageRow :=
  filter (fun r => row_user_id r = user) t.

Definition created_le (a b : MessageRow) : bool :=
  row_created_at a <=? row_created_at b.

(** [.select('*').eq('user_id', u).order('created_at', {ascending: true}).limit(20)] *)
Definition selectMessages (s : Store) (user : string) : PgResult (list MessageRow) :=
  onTable s (chat_messages s) (fun t =>
    PgData (take 20 (sortBy created_le (rowsOf user t)))).

(** [.insert(row)]: id is the primary key; created_at defaults to NOW(). *)
Definition insertMessage (s : Store) (r : MessageRow) : PgResult unit * Store :=
  match onTable s (chat_messages s) (fun t => PgData t) with
  | PgData t =>
      if existsb (fun r' => bool_decide (row_id r' = row_id r)) t
      then (PgError "23505", s)
      else (PgData tt, mkStore (chat_usage s) (Some (t ++ [r])) (health s))
  | PgError code => (PgError code, s)
  | PgThrown => (PgThrown, s)
  end.

End Supabase.

(** ** Worlds, events and the sequencing of effects *)

Inductive StoreOp :=
| OpSelectUsage (user date : string)
| OpUpsertUsage (user date : string) (count : Z)
| OpSelectMessages (user : string)
| OpInsertMessage (id : string).

Inductive Event :=
| EvCompletion (prompt : string)        (* model.generateContent(prompt) *)
| EvCatalog (url : string)              (* fetch(url) on the catalog *)
| EvStore (op : StoreOp)                (* one round trip to the store *)
| EvToast (title description : string). (* a user-visible notice *)

(** The store, the log of round trips, and the React state of the chat
    component and of its database hook. *)
Record World := mkWorld {
  store : Supabase.Store;
  log : list Event;
  st_messages : list Message;
  st_input : string;
  st_isLoading : bool;
  st_dailyUsage : Z;
  st_isTableMissing : bool
}.

Definition M (A : Type) : Type := World -> A * World.

Definition ret {A} (a : A) : M A := fun w => (a, w).

Definition bind {A B} (m : M A) (k : A -> M B) : M B :=
  fun w => let (a, w') := m w in k a w'.

Notation "'let*' x ':=' m 'in' k" := (bind m (fun x => k))
  (at level 10, x name, m at level 100, k at level 200).
Notation "m ';;' k" := (bind m (fun _ => k))
  (at level 100, k at level 200, right associativity).

Definition emit (e : Event) : M unit :=
  fun w => (tt, mkWorld (store w) (log w ++ [e]) (st_messages w) (st_input w)
                        (st_isLoading w) (st_dailyUsage w) (st_isTableMissing w)).

Definition withStore {A} (f : Supabase.Store -> A * Supabase.Store) : M A :=
  fun w => let (a, s') := f (store w) in
           (a, mkWorld s' (log w) (st_messages w) (st_input w)
                       (st_isLoading w) (st_dailyUsage w) (st_isTableMissing w)).

Definition readStore {A} (f : Supabase.Store -> A) : M A :=
  fun w => (f (store w), w).

Definition setMessages (f : list Message -> list Message) : M unit :=
  fun w => (tt, mkWorld (store w) (log w) (f (st_messages w)) (st_input w)
                        (st_isLoading w) (st_dailyUsage w) (st_isTableMissing w)).

Definition setInput (s : string) : M unit :=
  fun w => (tt, mkWorld (store w) (log w) (st_messages w) s
                        (st_isLoading w) (st_dailyUsage w) (st_isTableMissing w)).

Definition setIsLoading (b : bool) : M unit :=
  fun w => (tt, mkWorld (store w) (log w) (st_messages w) (st_input w)
                        b (st_dailyUsage w) (st_isTableMissing w)).

Definition setDailyUsage (n : Z) : M unit :=
  fun w => (tt, mkWorld (store w) (log w) (st_messages w) (st_input w)
                        (st_isLoading w) n (st_isTableMissing w)).

Definition setIsTableMissing (b : bool) : M unit :=
  fun w => (tt, mkWorld (store w) (log w) (st_messages w) (st_input w)
                        (st_isLoading w) (st_dailyUsage w) b).

Definition isCompletion (e : Event) : bool :=
  match e with EvCompletion _ => true | _ => false end.
Definition isCatalog (e : Event) : bool :=
  match e with EvCatalog _ => true | _ => false end.
Definition isStore (e : Event) : bool :=
  match e with EvStore _ => true | _ => false end.
Definition isToast (e : Event) : bool :=
  match e with EvToast _ _ => true | _ => false end.

Definition countEv (p : Event -> bool) (l : list Event) : nat :=
  length (filter (fun e => p e = true) l).

Definition completionCalls (w : World) : nat := countEv isCompletion (log w).
Definition catalogCalls (w : World) : nat := countEv isCatalog (log w).
Definition storeCalls (w : World) : nat := countEv isStore (log w).
Definition toasts (w : World) : nat := countEv isToast (log w).

(** [Date.now()] *)
Definition now (P : Platform) : M Z :=
  fun w => (Date_now P (length (log w)), w).

(** [new Date().toISOString().split('T')[0]] *)
Definition today (P : Platform) : M string :=
  let* t := now P in ret (isoDate P t).

(** ** hooks/useChatDatabase *)

Module ChatDb.
Import Js Supabase.

Section Hook.
Variable P : Platform.
(** What the closures of one render capture: the signed-in user's id
    and the value of the [isTableMissing] state at that render. *)
Variable user : option string.
Variable isTableMissing : bool.

Definition is42P01 (code : string) : bool :=
  bool_decide (code = undefined_table).

Definition checkDailyUsage : M Z :=
  match user with
  | None => ret 0
  | Some uid =>
      if isTableMissing then ret 0 else
      let* d := today P in
      emit (EvStore (OpSelectUsage uid d));;
      let* r := readStore (fun s => selectUsage s uid d) in
      match r with
      | PgThrown => ret 0
      | PgError code =>
          if is42P01 code then setIsTableMissing true;; ret 0
          else ret 0
      | PgData count => ret (if truthyZ count then count else 0)
      end
  end.

Definition updateDailyUsage (currentCount : Z) : M Z :=
  match user with
  | None => ret currentCount
  | Some uid =>
      if isTableMissing then ret currentCount else
      let* d := today P in
      emit (EvStore (OpUpsertUsage uid d (currentCount + 1)));;
      let* r := withStore (fun s => upsertUsage s uid d (currentCount + 1)) in
      match r with
      | PgThrown => ret currentCount
      | PgError code =>
          if is42P01 code then setIsTableMissing true;; ret currentCount
          else ret (currentCount + 1)
      | PgData _ => ret (currentCount + 1)
      end
  end.

(** The row-to-message map of [loadChatHistory]; [None] when
    [JSON.parse] throws. *)
Definition toMessage (r : MessageRow) : option Message :=
  match row_books r with
  | Some b =>
      if truthyS b
      then match JSON_parse_books P b with
           | Some bs => Some (mkMessage (row_id r) (row_role r) (row_content r)
                                        (Some bs) (row_created_at r))
           | None => None
           end
      else Some (mkMessage (row_id r) (row_role r) (row_content r) None
                           (row_created_at r))
  | None => Some (mkMessage (row_id r) (row_role r) (row_content r) None
                            (row_created_at r))
  end.

Definition loadChatHistory : M (list Message) :=
  match user with
  | None => ret []
  | Some uid =>
      if isTableMissing then ret [] else
      emit (EvStore (OpSelectMessages uid));;
      let* r := readStore (fun s => selectMessages s uid) in
      match r with
      | PgThrown => ret []
      | PgError code =>
          if is42P01 code then setIsTableMissing true;; ret []
          else ret []
      | PgData rows =>
          match mapM toMessage rows with
          | Some ms => ret ms
          | None => ret []
          end
      end
  end.

Definition saveChatMessage (message : Message) : M unit :=
  match user with
  | None => ret tt
  | Some uid =>
      if isTableMissing then ret tt else
      let* t := now P in
      emit (EvStore (OpInsertMessage (msg_id message)));;
      let row := mkRow (msg_id message) uid (msg_role message) (msg_content message)
                       (match msg_books message with
                        | Some bs => Some (JSON_stringify_books P bs)
                        | None => None
                        end) t in
      let* r := withStore (fun s => insertMessage s row) in
      match r with
      | PgError code =>
          if is42P01 code then setIsTableMissing true else ret tt
      | _ => ret tt
      end
  end.

End Hook.

End ChatDb.

(** ** lib/gemini: the completion client *)

Module Gemini.
Import Js.

Definition dq : string := str1 dquote.
Definition nl : string := str1 "010"%char.
Definition q (s : string) : string := dq +:+ s +:+ dq.

Definition roleLabel (r : Role) : string :=
  match r with RoleUser => "User" | RoleAssistant => "Assistant" end.

(** The last five turns, one per line. *)
Definition context (chatHistory : list Message) : string :=
  join nl (map (fun m => roleLabel (msg_role m) +:+ ": " +:+ msg_content m)
               (sliceLast 5 chatHistory)).

Definition prompt (context message : string) : string :=
  "You are a friendly AI book companion. You can have conversations about books, reading, and literature, but also provide book recommendations when appropriate.

Guidelines:
1. Be conversational and engaging - don't always recommend books
2. When the user asks general questions, have a natural conversation
3. Only recommend specific books when the user explicitly asks for recommendations or mentions wanting something to read
4. When recommending books, use this format: **" +:+ q "Book Title" +:+ " by Author Name**: Brief description
5. Keep responses concise and engaging
6. Use markdown formatting for better readability
7. Recommend 2-3 books maximum when giving recommendations

Previous conversation:
" +:+ context +:+ "

Current user message: " +:+ message +:+ "

Instructions:
- If the user is asking for book recommendations, provide 2-3 specific books with titles and authors
- If the user is asking questions about reading, books, or literature, have a conversation without necessarily recommending specific books
- If the user is greeting or having casual conversation, respond naturally
- Always be helpful and book-focused, but don't force recommendations when not asked

Respond naturally and conversationally:".

(** The typed failures the client throws, chosen from the upstream text. *)
Definition typedFailure (message : string) : string :=
  if includes message "404" || includes message "model"
  then "Model not available. Please check the Gemini API model configuration."
  else if includes message "API key"
  then "Invalid API key. Please check your Gemini API key configuration."
  else if includes message "quota" || includes message "limit"
  then "API quota exceeded. Please wait and try again later."
  else "Failed to get response from AI assistant".

Definition notConfigured : string :=
  "Gemini API key not configured. Please set VITE_GEMINI_API_KEY in your environment variables.".

Definition callGeminiAPI (P : Platform) (message : string) (chatHistory : list Message)
  : M Outcome :=
  if negb (apiKeyConfigured P) then ret (Rejected notConfigured) else
  let p := prompt (context chatHistory) message in
  fun w =>
    let n := completionCalls w in
    (let* _ := emit (EvCompletion p) in
     match generateContent P n p with
     | Resolved text => ret (Resolved text)
     | Rejected m => ret (Rejected (typedFailure m))
     end) w.

End Gemini.

(** ** The BookChatbot component *)

Module Chatbot.
Import Js.
Import Gemini(dq, nl, q).

Definition DAILY_LIMIT : Z := 10.

(** *** The relevance gate *)

Definition analysisPrompt (userMessage assistantResponse : string) : string :=
  "Analyze this conversation to determine if the assistant's response contains book recommendations or mentions specific books that should be displayed as cards.

User message: " +:+ q userMessage +:+ "
Assistant response: " +:+ q assistantResponse +:+ "

Respond with only " +:+ q "YES" +:+ " if the assistant response:
- Recommends specific books
- Mentions book titles that should be shown as cards
- Discusses books in a way that would benefit from showing book cards

Respond with only " +:+ q "NO" +:+ " if the assistant response:
- Only talks about books generally without mentioning specific titles
- Asks clarifying questions
- Discusses reading habits/preferences without specific recommendations

Response:".

(** The basic text analysis used when the classifier call fails. *)
Definition fallbackHeuristic (assistantResponse userMessage : string) : bool :=
  includes (toLowerCase assistantResponse) "recommend" ||
  includes assistantResponse ("**" +:+ dq) ||
  includes (toLowerCase userMessage) "books like".

Definition shouldExtractBooks (P : Platform) (assistantResponse userMessage : string)
  : M bool :=
  let* result := Gemini.callGeminiAPI P (analysisPrompt userMessage assistantResponse) [] in
  match result with
  | Resolved response =>
      let decision := toUpperCase (trim response) in
      ret (bool_decide (decision = "YES"))
  | Rejected _ => ret (fallbackHeuristic assistantResponse userMessage)
  end.

(** *** Candidate extraction *)

Definition extractionPrompt (userMessage assistantResponse : string) : string :=
  "Extract book titles and authors from this conversation. Focus on specific book recommendations or mentions.

User message: " +:+ q userMessage +:+ "
Assistant response: " +:+ q assistantResponse +:+ "

Return ONLY a JSON array of strings in the format " +:+ q "Title Author" +:+ " for each book mentioned.
If the user asked for books SIMILAR to a mentioned book, include similar books, not the original book itself.
Maximum 3 books.

Examples:
- If text mentions " +:+ q "Atomic Habits by James Clear" +:+ ", return: [" +:+ q "Atomic Habits James Clear" +:+ "]
- If user asks for " +:+ q "books like Atomic Habits" +:+ ", return similar books like: [" +:+ q "The Power of Habit Charles Duhigg" +:+ ", " +:+ q "Tiny Habits BJ Fogg" +:+ "]

JSON Array:".

Definition extractBooksWithGemini (P : Platform) (assistantResponse userMessage : string)
  : M (list string) :=
  let* result := Gemini.callGeminiAPI P (extractionPrompt userMessage assistantResponse) [] in
  match result with
  | Resolved response =>
      match JSON_parse_strings P (trim response) with
      | Some books => ret (sliceTo 3 books)
      | None => ret []
      end
  | Rejected _ => ret []
  end.

(** A [Set<string>] in insertion order. *)
Definition setAdd (x : string) (s : list string) : list string :=
  if bool_decide (x ∈ s) then s else s ++ [x].

Fixpoint span (p : ascii -> bool) (s : string) : string * string :=
  match s with
  | EmptyString => (EmptyString, EmptyString)
  | String c s' =>
      if p c then let (a, b) := span p s' in (String c a, b)
      else (EmptyString, s)
  end.

Definition stripPrefix (p s : string) : option string :=
  if startsWith s p then Some (dropStr (String.length p) s) else None.

Definition notChar (x : ascii) (c : ascii) : bool := negb (Ascii.eqb c x).

Fixpoint lastChar (s : string) : string :=
  match s with
  | EmptyString => EmptyString
  | String c EmptyString => str1 c
  | String _ s' => lastChar s'
  end.

(** One attempt, at the head of [s], of the bold quoted-title pattern
    [pattern1]: two stars, a quoted title of one or more characters
    other than the quote, white space, the word by (in either case),
    white space, a lazy group of one or more characters other than a
    star, two stars. It yields the two groups and the length of the
    match. The title runs to the next quote. After the word by, the run
    [r] of characters other than a star is split between the greedy
    white space and the lazy group, which takes what the white space
    leaves, or the last white space when nothing is left; the run must be
    followed by two stars. *)
Definition matchPattern1 (s : string) : option (string * string * nat) :=
  match stripPrefix ("**" +:+ dq) s with
  | None => None
  | Some rest1 =>
      let (title, rest2) := span (notChar dquote) rest1 in
      match title, stripPrefix dq rest2 with
      | String _ _, Some rest3 =>
          let (ws, rest4) := span isSpace rest3 in
          match ws, rest4 with
          | String _ _, String b (String y rest5) =>
              if Ascii.eqb (lowerChar b) "b" && Ascii.eqb (lowerChar y) "y" then
                let (r, rest6) := span (notChar star) rest5 in
                let (ws2, a) := span isSpace r in
                let author :=
                  match a with
                  | String _ _ => if truthyS ws2 then Some a else None
                  | EmptyString =>
                      if (2 <=? String.length ws2)%nat then Some (lastChar ws2) else None
                  end in
                match author with
                | Some au =>
                    if startsWith rest6 "**"
                    then Some (title, au,
                               (String.length s - String.length rest6 + 2)%nat)
                    else None
                | None => None
                end
              else None
          | _, _ => None
          end
      | _, _ => None
      end
  end.

(** One attempt, at the head of [s], of [quotedPattern]: a quote, a
    letter, five to fifty characters other than the quote, a quote. *)
Definition matchQuoted (s : string) : option (string * nat) :=
  match stripPrefix dq s with
  | Some (String c rest2) =>
      if isLetter c then
        let (body, rest3) := span (notChar dquote) rest2 in
        if (5 <=? String.length body)%nat && (String.length body <=? 50)%nat
           && startsWith rest3 dq
        then Some (String c body, (String.length body + 3)%nat)
        else None
      else None
  | _ => None
  end.

(** The [while ((match = re.exec(text)) !== null)] loop of a global
    pattern: the leftmost match from each position, resuming after the
    end of a match ([skip] characters are still to be passed over). *)
Fixpoint execAll {A} (attempt : string -> option (A * nat)) (skip : nat) (s : string)
  : list A :=
  match s with
  | EmptyString => []
  | String _ s' =>
      match skip with
      | S k => execAll attempt k s'
      | O =>
          match attempt s with
          | Some (a, n) => a :: execAll attempt (n - 1) s'
          | None => execAll attempt 0 s'
          end
      end
  end.

(** Layer b: the bold quoted-title pattern. *)
Definition addPattern1 (found : list string) (m : string * string) : list string :=
  let title := trim (fst m) in
  let author := trim (snd m) in
  if truthyS title && (2 <? String.length title)%nat
  then setAdd (title +:+ " " +:+ author) found
  else found.

Definition patternLayer (text : string) (found : list string) : list string :=
  foldl addPattern1 found
        (execAll (fun s => match matchPattern1 s with
                           | Some (t, a, n) => Some ((t, a), n)
                           | None => None
                           end) 0 text).

(** Layer c: well-known titles. *)
Definition commonBooks : list (list string * string) :=
  [ (["Atomic Habits"; "atomic habits"], "Atomic Habits James Clear");
    (["The Power of Now"], "The Power of Now Eckhart Tolle");
    (["Mindset"; "mindset"], "Mindset Carol Dweck");
    (["Educated"], "Educated Tara Westover");
    (["Sapiens"], "Sapiens Yuval Noah Harari") ].

Definition addCommon (text : string) (found : list string)
           (mapping : list string * string) : list string :=
  if existsb (fun keyword => includes (toLowerCase text) (toLowerCase keyword))
             (fst mapping)
  then setAdd (snd mapping) found
  else found.

Definition keywordLayer (text : string) (found : list string) : list string :=
  foldl (addCommon text) found commonBooks.

(** Layer d: any quoted text that looks like a title. *)
Definition addQuoted (found : list string) (g : string) : list string :=
  let potentialTitle := trim g in
  if truthyS potentialTitle
     && (5 <? String.length potentialTitle)%nat
     && (String.length potentialTitle <? 50)%nat
     && negb (includes potentialTitle "?")
     && negb (includes potentialTitle "!")
     && (length found <? 5)%nat
  then setAdd potentialTitle found
  else found.

Definition quotedLayer (text : string) (found : list string) : list string :=
  foldl addQuoted found (execAll matchQuoted 0 text).

(** The three deterministic layers, run after the model's candidates. *)
Definition deterministicLayers (text : string) (found : list string) : list string :=
  quotedLayer text (keywordLayer text (patternLayer text found)).

(** *** Resolution against the catalog *)

Definition searchStrategies (P : Platform) (query : string) (currentYear : Z)
  : list string :=
  let startYear := currentYear - 5 in
  let base := "https://openlibrary.org/search.json?q=" +:+ encodeURIComponent P query in
  [ base +:+ "&sort=new&limit=10&first_publish_year:[" +:+ showZ startYear
         +:+ " TO " +:+ showZ currentYear +:+ "]";
    base +:+ "&sort=rating&limit=10&first_publish_year:[" +:+ showZ (startYear - 2)
         +:+ " TO " +:+ showZ currentYear +:+ "]";
    base +:+ "&limit=15&has_fulltext=true" ].

(** The first strategy that yields at least one document wins. *)
Fixpoint tryStrategies (P : Platform) (urls : list string) : M (list Doc) :=
  match urls with
  | [] => ret []
  | url :: rest =>
      emit (EvCatalog url);;
      match fetchDocs P url with
      | Some (d :: ds) => ret (d :: ds)
      | _ => tryStrategies P rest
      end
  end.

Definition hasImage (doc : Doc) : bool := truthyOZ (doc_cover_i doc).

Definition isRecent (currentYear : Z) (doc : Doc) : bool :=
  negb (truthyOZ (doc_first_publish_year doc)) ||
  (currentYear - 10 <=? default 0 (doc_first_publish_year doc)).

Definition hasTitle (doc : Doc) : bool :=
  match doc_title doc with
  | Some t => truthyS t && (2 <? String.length t)%nat
  | None => false
  end.

Definition keepDoc (currentYear : Z) (doc : Doc) : bool :=
  hasImage doc && isRecent currentYear doc && hasTitle doc.

Definition orZero (o : option Z) : Z :=
  match o with Some n => if truthyZ n then n else 0 | None => 0 end.

(** The comparator of the sort: newer first, then more editions first. *)
Definition compareDocs (a b : Doc) : Z :=
  let aYear := orZero (doc_first_publish_year a) in
  let bYear := orZero (doc_first_publish_year b) in
  let aEditions := orZero (doc_edition_count a) in
  let bEditions := orZero (doc_edition_count b) in
  if negb (aYear =? bYear) then bYear - aYear else bEditions - aEditions.

Definition docs_le (a b : Doc) : bool := compareDocs a b <=? 0.

Definition bigCover (cover_i : Z) : string :=
  "https://covers.openlibrary.org/b/id/" +:+ showZ cover_i +:+ "-L.jpg".
Definition mediumCover (cover_i : Z) : string :=
  "https://covers.openlibrary.org/b/id/" +:+ showZ cover_i +:+ "-M.jpg".

Definition orElse (o : option string) (d : string) : string :=
  match o with Some s => if truthyS s then s else d | None => d end.

Definition toBook (doc : Doc) : Book :=
  mkBook
    (orElse (doc_key doc) (showOS (doc_title doc) +:+ "-" +:+ showOZ (doc_cover_i doc)))
    (orElse (doc_title doc) "Unknown Title")
    (default [] (doc_author_name doc))
    (orElse (doc_subtitle doc) EmptyString)
    (if truthyOZ (doc_cover_i doc)
     then Some (bigCover (default 0 (doc_cover_i doc))) else None)
    (if truthyOZ (doc_cover_i doc)
     then Some [bigCover (default 0 (doc_cover_i doc));
                mediumCover (default 0 (doc_cover_i doc))] else None)
    (doc_first_publish_year doc)
    (match doc_subject doc with Some l => sliceTo 3 l | None => [] end)
    (doc_number_of_pages_median doc)
    (if truthyOS (doc_key doc)
     then Some ("https://openlibrary.org" +:+ default EmptyString (doc_key doc)) else None)
    (Utils.firstOf (doc_publisher doc))
    (Utils.firstOf (doc_language doc)).

Definition searchBooksFromOpenLibrary (P : Platform) (query : string) : M (list Book) :=
  let* t := now P in
  let currentYear := getFullYear P t in
  let* allBooks := tryStrategies P (searchStrategies P query currentYear) in
  let filteredBooks :=
    sliceTo 3 (Supabase.sortBy docs_le (filter (fun d => keepDoc currentYear d = true) allBooks)) in
  ret (map toBook filteredBooks).

(** The searches of [Promise.all], taken in candidate order; each keeps
    its best match. *)
Fixpoint searchAll (P : Platform) (queries : list string) : M (list (list Book)) :=
  match queries with
  | [] => ret []
  | query :: rest =>
      let* books := searchBooksFromOpenLibrary P query in
      let* others := searchAll P rest in
      ret (sliceTo 1 books :: others)
  end.

(** [extractAndSearchBooks]. Its catch branch turns any exception into
    the empty list; no step below throws. The result of
    [analyzeUserIntent] is computed by the source and never used, so it is
    left out. *)
Definition extractAndSearchBooks (P : Platform) (text : string) (userMessage : option string)
  : M (list Book) :=
  let um := orElse userMessage EmptyString in
  let* shouldSearchBooks := shouldExtractBooks P text um in
  if negb shouldSearchBooks then ret [] else
  let foundBooks := [] in
  let* geminiExtractedBooks := extractBooksWithGemini P text um in
  let foundBooks := foldl (fun s book => setAdd book s) foundBooks geminiExtractedBooks in
  let foundBooks := deterministicLayers text foundBooks in
  let* results := searchAll P (sliceTo 3 foundBooks) in
  let allBooks := concat results in
  ret (sliceTo 3 allBooks).

(** *** The turn controller *)

(** The replies shown when the completion call fails. *)
Definition modelUpdated : string :=
  "ðŸ”§ **Model Updated**: I've updated to use the latest Gemini model (gemini-1.5-flash). Please try your question again!".

Definition apiKeyIssue : string :=
  "âŒ **API Key Issue**: Please check your Gemini API key configuration. Make sure VITE_GEMINI_API_KEY is set correctly in your .env.local file.

ðŸ”— Get a free API key from: https://makersuite.google.com/app/apikey".

Definition rateLimit : string :=
  "âš ï¸ **Rate Limit**: You've hit the API rate limit. Please wait a few minutes before trying again.".

Definition connectionIssue : string :=
  "ðŸŒ **Connection Issue**: Please check your internet connection and try again.".

Definition serviceUnavailable : string :=
  "ðŸ¤– **AI Service Temporarily Unavailable**: I'm having trouble connecting right now. Please try again in a moment!

ðŸ’¡ In the meantime, try searching for books using the search bar above.".

Definition fallbackResponse (message : string) : string :=
  if includes message "Model not available" || includes message "404"
     || includes message "model"
  then modelUpdated
  else if includes message "API key" then apiKeyIssue
  else if includes message "quota" || includes message "limit" then rateLimit
  else if includes message "network" || includes message "fetch" then connectionIssue
  else serviceUnavailable.

(** The component's wrapper around the client: it never fails, a
    failure of the client becomes one of the replies above. [messages]
    is the transcript captured by the render. *)
Definition callGeminiAPI (P : Platform) (messages : list Message) (userMessage : string)
  : M string :=
  let* r := Gemini.callGeminiAPI P userMessage (sliceLast 5 messages) in
  match r with
  | Resolved response => ret response
  | Rejected message => ret (fallbackResponse message)
  end.

(** What the handlers of one render close over. *)
Record Render := mkRender {
  r_user : option string;
  r_input : string;
  r_isLoading : bool;
  r_dailyUsage : Z;
  r_messages : list Message;
  r_isTableMissing : bool
}.

Definition render (user : option string) (w : World) : Render :=
  mkRender user (st_input w) (st_isLoading w) (st_dailyUsage w) (st_messages w)
           (st_isTableMissing w).

Definition limitNotice : Event :=
  EvToast "Daily chat limit reached"
          ("You've reached your daily limit of " +:+ showZ DAILY_LIMIT
           +:+ " chats. Try again tomorrow!").

Definition nonEmpty (books : list Book) : option (list Book) :=
  match books with [] => None | _ => Some books end.

(** [handleSendMessage]. Neither [callGeminiAPI] nor
    [extractAndSearchBooks] can fail, so the handler's own catch branch
    is never entered and is left out. *)
Definition handleSendMessage (P : Platform) (r : Render) : M unit :=
  if negb (truthyS (trim (r_input r))) || negb (bool_decide (is_Some (r_user r)))
     || r_isLoading r
  then ret tt
  else if DAILY_LIMIT <=? r_dailyUsage r then emit limitNotice
  else
    let* t := now P in
    let userMessage :=
      mkMessage ("user-" +:+ showZ t) RoleUser (trim (r_input r)) None t in
    setMessages (fun prev => prev ++ [userMessage]);;
    setInput EmptyString;;
    setIsLoading true;;
    ChatDb.saveChatMessage P (r_user r) (r_isTableMissing r) userMessage;;
    let* response := callGeminiAPI P (r_messages r) (msg_content userMessage) in
    let* books := extractAndSearchBooks P response (Some (msg_content userMessage)) in
    let* t' := now P in
    let assistantMessage :=
      mkMessage ("assistant-" +:+ showZ t') RoleAssistant response (nonEmpty books) t' in
    setMessages (fun prev => prev ++ [assistantMessage]);;
    ChatDb.saveChatMessage P (r_user r) (r_isTableMissing r) assistantMessage;;
    let* newUsage := ChatDb.updateDailyUsage P (r_user r) (r_isTableMissing r)
                                             (r_dailyUsage r) in
    setDailyUsage newUsage;;
    setIsLoading false.

(** [initializeChat], run when the chat opens for a signed-in user. *)
Definition initializeChat (P : Platform) (r : Render) : M unit :=
  let* usage := ChatDb.checkDailyUsage P (r_user r) (r_isTableMissing r) in
  setDailyUsage usage;;
  let* history := ChatDb.loadChatHistory P (r_user r) (r_isTableMissing r) in
  setMessages (fun _ => history).

End Chatbot.

(** ** The four operations of the hook, as calls *)

Module Session.
Import Supabase.

(** The four operations the hook exports. *)
Inductive Call :=
| CheckDailyUsage
| UpdateDailyUsage (currentCount : Z)
| LoadChatHistory
| SaveChatMessage (message : Message).

Inductive Answer :=
| Usage (count : Z)
| History (messages : list Message)
| Done.

(** The no-op default of each operation. *)
Definition defaultOf (c : Call) : Answer :=
  match c with
  | CheckDailyUsage => Usage 0
  | UpdateDailyUsage currentCount => Usage currentCount
  | LoadChatHistory => History []
  | SaveChatMessage _ => Done
  end.

(** One call through the closures of a render that captured
    [isTableMissing]. *)
Definition perform (P : Platform) (user : option string) (isTableMissing : bool)
           (c : Call) : M Answer :=
  match c with
  | CheckDailyUsage =>
      let* n := ChatDb.checkDailyUsage P user isTableMissing in ret (Usage n)
  | UpdateDailyUsage currentCount =>
      let* n := ChatDb.updateDailyUsage P user isTableMissing currentCount in ret (Usage n)
  | LoadChatHistory =>
      let* h := ChatDb.loadChatHistory P user isTableMissing in ret (History h)
  | SaveChatMessage message =>
      ChatDb.saveChatMessage P user isTableMissing message;; ret Done
  end.

(** The table a call addresses, as the store has it. *)
Definition tableExists (c : Call) (s : Store) : bool :=
  match c with
  | CheckDailyUsage | UpdateDailyUsage _ => bool_decide (is_Some (chat_usage s))
  | LoadChatHistory | SaveChatMessage _ => bool_decide (is_Some (chat_messages s))
  end.

(** The store reports that the relation a call addresses does not
    exist: it answers with code 42P01. *)
Definition reportsMissing (c : Call) (s : Store) : Prop :=
  health s = Failing undefined_table \/
  (health s = Healthy /\ tableExists c s = false).

End Session.

(** ** Concrete platforms, stores and documents used in the examples *)

Module Examples.
Import Js Supabase.

Definition coverOnlyDoc (n : Z) : Doc :=
  mkDoc None None None None None (Some n) None None None None None None None.

(** A platform whose model endpoint is down and whose catalog is empty. *)
Definition quietPlatform : Platform :=
  mkPlatform true (fun _ _ => Rejected "network") (fun _ => Some [])
             (fun s => s) (fun _ => None) (fun _ => "[]") (fun _ => Some [])
             (fun n => 1700000000000 + 1000 * Z.of_nat n)
             (fun t => if t <? 1700000003000 then "2023-11-14" else "2023-11-15")
             (fun _ => 2023).

Definition workingStore : Store := mkStore (Some ∅) (Some []) Healthy.
Definition missingStore : Store := mkStore None None Healthy.

(** Twenty-one messages of one user, created at times 1 to 21. *)
Definition longTranscript : list MessageRow :=
  map (fun i => mkRow ("m" +:+ showZ i) "alice" RoleUser "hello" None i)
      (seqZ 1 21).

Definition freshWorld (s : Store) : World :=
  mkWorld s [] [] "books like Dune" false 0 false.


(** A recent document with a cover, and the same document without one. *)
Definition duneDoc : Doc :=
  mkDoc (Some "/works/OL893415W") (Some "Dune") None (Some ["Frank Herbert"]) None
        (Some 11481354) None (Some 2021) (Some 12) (Some ["Science fiction"])
        (Some 612) None None.

Definition coverlessDoc : Doc :=
  mkDoc (Some "/works/OL893415W") (Some "Dune") None (Some ["Frank Herbert"]) None
        None None (Some 2021) (Some 12) None None None None.

(** A document with a cover whose first-publish year reads 0. *)
Definition yearZeroDoc : Doc :=
  mkDoc (Some "/works/OL1W") (Some "Gilgamesh") None None None
        (Some 5) None (Some 0) None None None None None.

(** A platform like [quietPlatform] whose catalog answers every search
with the given documents. *)
Definition catalogOf (docs : list Doc) : Platform :=
  mkPlatform true (fun _ _ => Rejected "network") (fun _ => Some docs)
             (fun s => s) (fun _ => None) (fun _ => "[]") (fun _ => Some [])
             (fun n => 1700000000000 + 1000 * Z.of_nat n)
             (fun _ => "2023-11-14")
             (fun _ => 2023).

(** The JSON text of the array that holds the one string
Dune Frank Herbert. *)
Definition duneArray : string :=
  "[" +:+ Gemini.q "Dune Frank Herbert" +:+ "]".

(** A platform whose model fails on the first completion call only:
afterwards the classifier answers YES and the extraction call answers
with [duneArray]; the catalog knows the book. Its [JSON.parse] reads that
array and throws on every other text. *)
Definition flakyPlatform : Platform :=
  mkPlatform true
             (fun n _ => match n with
                         | O => Rejected "quota exceeded"
                         | S O => Resolved "YES"
                         | _ => Resolved duneArray
                         end)
             (fun _ => Some [duneDoc])
             (fun s => s)
             (fun s => if String.eqb s duneArray then Some ["Dune Frank Herbert"] else None)
             (fun _ => "[]") (fun _ => Some [])
             (fun n => 1700000000000 + 1000 * Z.of_nat n)
             (fun _ => "2023-11-14")
             (fun _ => 2023).


(** A platform whose model answers every completion call with the same
text; its catalog knows one book. Its [JSON.parse] is that of
[flakyPlatform]. *)
Definition answering (answer : string) : Platform :=
  mkPlatform true (fun _ _ => Resolved answer) (fun _ => Some [duneDoc])
             (fun s => s)
             (fun s => if String.eqb s duneArray then Some ["Dune Frank Herbert"] else None)
             (fun _ => "[]") (fun _ => Some [])
             (fun n => 1700000000000 + 1000 * Z.of_nat n)
             (fun _ => "2023-11-14")
             (fun _ => 2023).

End Examples.

(** ** The notions the properties are stated with *)

Module Spec.
Import Js Chatbot.

(** A record whose only identifying field is the cover id [n]. *)
Definition onlyCoverId (doc : Doc) (n : Z) : Prop :=
  doc_isbn doc = None /\ doc_key doc = None /\ doc_edition_key doc = None /\
  doc_cover_i doc = Some n.

(** A record with none of the identifying fields. *)
Definition noIdentifier (doc : Doc) : Prop :=
  doc_isbn doc = None /\ doc_key doc = None /\ doc_edition_key doc = None /\
  doc_cover_i doc = None.

(** What the classifier call of the relevance gate settles to when it
    is made in world [w]. *)
Definition classifierAnswer (P : Platform) (text userMessage : string) (w : World)
  : Outcome :=
  fst (Gemini.callGeminiAPI P (analysisPrompt userMessage text) [] w).

(** The relevance gate decides negative: the classifier does not answer YES, or
    it fails and the heuristic does not fire. *)
Definition gateNegative (P : Platform) (text userMessage : string) (w : World) : Prop :=
  match classifierAnswer P text userMessage w with
  | Resolved answer => toUpperCase (trim answer) <> "YES"
  | Rejected _ => fallbackHeuristic text userMessage = false
  end.

(** The reply contains the quoted-title markdown pattern: two stars, a
    quoted title, the word by, an author, two stars. *)
Definition QuotedTitlePattern (text : string) : Prop :=
  exists pre title author suf,
    text = pre +:+ "**" +:+ Gemini.q title +:+ " by " +:+ author +:+ "**" +:+ suf.


(** A catalog record the chat pipeline keeps, for the current year [cy]:
a cover id other than 0, a first-publish year that is absent, 0, or
at most ten years back, and a title of more than two characters. *)
Definition acceptable (cy : Z) (d : Doc) : Prop :=
  (exists n, doc_cover_i d = Some n /\ n <> 0) /\
  (forall y, doc_first_publish_year d = Some y -> y = 0 \/ cy - 10 <= y) /\
  (exists t, doc_title d = Some t /\ (2 < String.length t)%nat).

(** A submission that starts a turn: a non-blank message of a signed-in
user, no turn in flight, the cap not reached. *)
Definition submits (r : Render) : Prop :=
  trim (r_input r) <> EmptyString /\ is_Some (r_user r) /\
  r_isLoading r = false /\ r_dailyUsage r < DAILY_LIMIT.

(** Every completion call of the platform fails. *)
Definition modelDown (P : Platform) : Prop :=
  apiKeyConfigured P = false \/
  forall n p, exists m, generateContent P n p = Rejected m.

End Spec.

(** ** Cards: the SmartCoverImage component and the helpers of BookCard *)

Module Cards.
Import Js.

(** [[...(coverUrls || []), ...(fallbackCover ? [fallbackCover] : [])].filter(Boolean)] *)
Definition allUrls (coverUrls : option (list string)) (fallbackCover : option string)
  : list string :=
  filter (fun u => truthyS u = true)
         (default [] coverUrls ++
          (if truthyOS fallbackCover then [default EmptyString fallbackCover] else [])).

(** The state of one image: [currentUrlIndex] and [hasError]. *)
Record CoverState := mkCoverState {
  currentUrlIndex : nat;
  hasError : bool
}.

Definition initialCover : CoverState := mkCoverState 0 false.

(** [handleImageError]: try the next URL, or give up. *)
Definition handleImageError (allUrls : list string) (s : CoverState) : CoverState :=
  let nextIndex := (currentUrlIndex s + 1)%nat in
  if (nextIndex <? length allUrls)%nat
  then mkCoverState nextIndex (hasError s)
  else mkCoverState (currentUrlIndex s) true.

(** What the component renders: the placeholder, or the image at the
    current index ([None]: the index is out of range). *)
Inductive Shown :=
| Placeholder
| Image (src : option string).

Definition shown (allUrls : list string) (s : CoverState) : Shown :=
  if (length allUrls =? 0)%nat || hasError s then Placeholder
  else Image (allUrls !! currentUrlIndex s).

(** The image fails to load [n] times in a row. An error event can only
    come from a rendered image: once the placeholder is shown nothing
    changes any more. *)
Fixpoint failures (n : nat) (allUrls : list string) (s : CoverState) : CoverState :=
  match n with
  | O => s
  | S n' =>
      match shown allUrls s with
      | Placeholder => s
      | Image _ => failures n' allUrls (handleImageError allUrls s)
      end
  end.

(** [title.length > 15 ? title.slice(0, 12) + '...' : title] *)
Definition sliceStr (n : nat) (s : string) : string :=
  String.substring 0 n s.

Definition truncatedTitle (title : string) : string :=
  if (15 <? String.length title)%nat then sliceStr 12 title +:+ "..." else title.

(** [truncateDescription] of BookCard; [maxLength] is a natural number. *)
Definition truncateDescription (text : option string) (maxLength : nat) : string :=
  if negb (truthyOS text) then "No description available"
  else
    let t := default EmptyString text in
    if (maxLength <? String.length t)%nat then sliceStr maxLength t +:+ "..." else t.

(** The [cover] field that the search hook and the recommendations give
    a book beside [coverUrls]:
    [coverUrls && coverUrls.length > 0 ? coverUrls[0] : null]. *)
Definition primaryCover (coverUrls : option (list string)) : option string :=
  match coverUrls with
  | Some (u :: _) => Some u
  | _ => None
  end.

End Cards.

(** ** The filter panel (FilterSidebar) and its counter (Index) *)

Module Filters.

Record FilterOptions := mkFilters {
  categories : list string;
  yearRange : Z * Z;
  minRating : Q;
  pageRange : Z * Z
}.

(** [handleCategoryChange]: a checked box appends the category, an
    unchecked one removes every occurrence of it. *)
Definition handleCategoryChange (filters : FilterOptions) (categoryId : string)
           (checked : bool) : FilterOptions :=
  let newCategories :=
    if checked then categories filters ++ [categoryId]
    else filter (fun c => c <> categoryId) (categories filters) in
  mkFilters newCategories (yearRange filters) (minRating filters) (pageRange filters).

(** [clearAllFilters], in the year [currentYear]. *)
Definition clearAllFilters (currentYear : Z) : FilterOptions :=
  mkFilters [] (1900, currentYear) 0%Q (0, 1000).

(** The slider handlers. *)
Definition setMinRating (filters : FilterOptions) (value : Q) : FilterOptions :=
  mkFilters (categories filters) (yearRange filters) value (pageRange filters).

Definition setYearRange (filters : FilterOptions) (range : Z * Z) : FilterOptions :=
  mkFilters (categories filters) range (minRating filters) (pageRange filters).

Definition setPageRange (filters : FilterOptions) (range : Z * Z) : FilterOptions :=
  mkFilters (categories filters) (yearRange filters) (minRating filters) range.

Definition b2z (b : bool) : Z := if b then 1 else 0.

(** [activeFiltersCount] of the Index page, in the year [currentYear]. *)
Definition activeFiltersCount (filters : FilterOptions) (currentYear : Z) : Z :=
  Z.of_nat (length (categories filters)) +
  b2z (if Qlt_le_dec 0 (minRating filters) then true else false) +
  b2z ((1900 <? fst (yearRange filters)) || (snd (yearRange filters) <? currentYear)) +
  b2z ((0 <? fst (pageRange filters)) || (snd (pageRange filters) <? 1000)).

End Filters.

(** ** Listings: the books of the search hook, of the recommendations and
    of the Index page *)

Module Listing.
Import Js Utils Filters.

(** The [Book] interface of the search hook and of the Index page, with
    its optional fields; a published date is the number the hook gives
    it. The [raw] field, a copy of the document, is left out. *)
Record ListedBook := mkListed {
  lb_id : string;
  lb_title : string;
  lb_authors : list string;
  lb_description : option string;
  lb_cover : option string;
  lb_coverUrls : option (list string);
  lb_publishedDate : option Z;
  lb_categories : option (list string);
  lb_averageRating : option Q;
  lb_ratingsCount : option Z;
  lb_pageCount : option Z;
  lb_infoLink : option string;
  lb_publisher : option string;
  lb_language : option string
}.

(** A search document: the fields of [Doc] and the three more that the
    search hook reads. *)
Record SearchDoc := mkSearchDoc {
  sd_doc : Doc;
  sd_authors : option (list string);
  sd_first_sentence : option string;
  sd_publish_year : option (list Z)
}.

(** [a || b] on optional strings, [undefined] when both are falsy. *)
Definition firstTruthy (a b : option string) : option string :=
  if truthyOS a then a else if truthyOS b then b else None.

(** The fallback id [`${doc.title}-${doc.cover_i ?? isbn ?? ''}`]. *)
Definition fallbackId (doc : Doc) : string :=
  showOS (doc_title doc) +:+ "-" +:+
  match doc_cover_i doc with
  | Some n => showZ n
  | None => default EmptyString (firstOf (doc_isbn doc))
  end.

(** The document-to-book map of [useBookSearch]. *)
Definition searchBook (d : SearchDoc) : ListedBook :=
  let doc := sd_doc d in
  let isbn := firstOf (doc_isbn doc) in
  let edition := firstOf (doc_edition_key doc) in
  let coverUrls := generateCoverUrls doc in
  let primaryCover := Cards.primaryCover coverUrls in
  mkListed
    (if truthyOS edition then "/books/" +:+ default EmptyString edition
     else Chatbot.orElse (doc_key doc) (fallbackId doc))
    (Chatbot.orElse (doc_title doc) "Unknown Title")
    (match doc_author_name doc with
     | Some a => a
     | None => default [] (sd_authors d)
     end)
    (firstTruthy (doc_subtitle doc) (sd_first_sentence d))
    primaryCover
    coverUrls
    (match doc_first_publish_year doc with
     | Some y => Some y
     | None => match sd_publish_year d with
               | Some (y :: _) => Some y
               | _ => None
               end
     end)
    (doc_subject doc)
    None
    None
    (doc_number_of_pages_median doc)
    (if truthyOS edition
     then Some ("https://openlibrary.org/books/" +:+ default EmptyString edition)
     else if truthyOS isbn
     then Some ("https://openlibrary.org/isbn/" +:+ default EmptyString isbn)
     else if truthyOS (doc_key doc)
     then Some ("https://openlibrary.org" +:+ default EmptyString (doc_key doc))
     else None)
    (firstOf (doc_publisher doc))
    (firstOf (doc_language doc)).

(** The document-to-book map of [fetchRecommendations]. *)
Definition recommendedBook (doc : Doc) : ListedBook :=
  let coverUrls := generateCoverUrls doc in
  let primaryCover := Cards.primaryCover coverUrls in
  mkListed
    (Chatbot.orElse (doc_key doc) (fallbackId doc))
    (Chatbot.orElse (doc_title doc) "Unknown Title")
    (default [] (doc_author_name doc))
    (firstTruthy (doc_subtitle doc) None)
    primaryCover
    coverUrls
    (doc_first_publish_year doc)
    (doc_subject doc)
    None
    None
    (doc_number_of_pages_median doc)
    (if truthyOS (doc_key doc)
     then Some ("https://openlibrary.org" +:+ default EmptyString (doc_key doc))
     else None)
    (firstOf (doc_publisher doc))
    (firstOf (doc_language doc)).

(** [title.toLowerCase().trim()] *)
Definition titleKey (title : string) : string := trim (toLowerCase title).

(** What [fetchRecommendations] shows of the documents of the winning
    request: at most 24, without the books whose title the user's library
    already holds. *)
Definition recommend (docs : list Doc) (userBookTitles : list string) : list ListedBook :=
  let processedBooks := map recommendedBook (sliceTo 24 docs) in
  let owned := map titleKey userBookTitles in
  filter (fun book => titleKey (lb_title book) ∉ owned) processedBooks.

Definition qlt (a b : Q) : bool := if Qlt_le_dec a b then true else false.

(** [book.averageRating || 0] *)
Definition ratingOrZero (r : option Q) : Q :=
  match r with
  | Some x => if Qeq_bool x 0 then 0%Q else x
  | None => 0%Q
  end.

(** The predicate of [filteredBooks] on the Index page. [yearOf] stands
    for [new Date(n).getFullYear()]. *)
Definition passesFilters (yearOf : Z -> Z) (filters : FilterOptions) (book : ListedBook)
  : bool :=
  if qlt 0 (minRating filters) && qlt (ratingOrZero (lb_averageRating book)) (minRating filters)
  then false
  else if (0 <? length (categories filters))%nat
          && negb (match lb_categories book with
                   | Some cats =>
                       existsb (fun cat =>
                         existsb (fun filterCat => includes (toLowerCase cat) filterCat)
                                 (categories filters)) cats
                   | None => false
                   end)
  then false
  else
    let publishYear :=
      match lb_publishedDate book with
      | Some d => if truthyZ d then yearOf d else 0
      | None => 0
      end in
    if truthyZ publishYear
       && ((publishYear <? fst (yearRange filters)) || (snd (yearRange filters) <? publishYear))
    then false
    else if truthyOZ (lb_pageCount book)
            && ((default 0 (lb_pageCount book) <? fst (pageRange filters))
                || (snd (pageRange filters) <? default 0 (lb_pageCount book)))
    then false
    else true.

Definition filteredBooks (yearOf : Z -> Z) (filters : FilterOptions)
           (books : list ListedBook) : list ListedBook :=
  filter (fun book => passesFilters yearOf filters book = true) books.

End Listing.

(** ** The search hook (useBookSearch): pages of results *)

Module SearchHook.
Import Js Listing.

(** What [fetch(url)] followed by [response.json()] gives: an exception
    with its message, a response that is not ok, or the two fields the
    hook reads of the body ([docs] when it is an array, [numFound] when it
    is a number). *)
Inductive Response :=
| Thrown (message : string)
| NotOk (status : Z)
| Body (docs : option (list SearchDoc)) (numFound : option Z).

(** The state of the hook. *)
Record SearchState := mkSearchState {
  ss_books : list ListedBook;
  ss_isLoading : bool;
  ss_error : option string;
  ss_totalResults : Z
}.

Section Hook.
Variable P : Platform.
Variable fetchSearch : string -> Response.

Definition searchUrl (query : string) (page maxResults : Z) : string :=
  "https://openlibrary.org/search.json?title=" +:+ encodeURIComponent P query
  +:+ "&page=" +:+ showZ page +:+ "&limit=" +:+ showZ maxResults.

(** [searchBooks(query, startIndex, maxResults)], run to its end, for a
    start index that is not negative and a positive page size. *)
Definition searchBooks (query : string) (startIndex maxResults : Z) (s : SearchState)
  : SearchState :=
  let page := startIndex / maxResults + 1 in
  let failed (message : string) :=
    if startIndex =? 0
    then mkSearchState [] false (Some message) 0
    else mkSearchState (ss_books s) false (Some message) (ss_totalResults s) in
  match fetchSearch (searchUrl query page maxResults) with
  | Thrown message => failed message
  | NotOk status => failed ("Failed to search Open Library: " +:+ showZ status)
  | Body docs numFound =>
      let processedBooks := map searchBook (default [] docs) in
      mkSearchState
        (if startIndex =? 0 then processedBooks else ss_books s ++ processedBooks)
        false None
        (default (Z.of_nat (length processedBooks)) numFound)
  end.

(** [loadMore(query)], through the closures of the render of [s]. *)
Definition loadMore (query : string) (s : SearchState) : SearchState :=
  if negb (ss_isLoading s) && (Z.of_nat (length (ss_books s)) <? ss_totalResults s)
  then searchBooks query (Z.of_nat (length (ss_books s))) 20 s
  else s.

(** A first search, then [n] requests for more. *)
Fixpoint loadMores (n : nat) (query : string) (s : SearchState) : SearchState :=
  match n with
  | O => s
  | S n' => loadMores n' query (loadMore query s)
  end.

End Hook.

(** A catalog that serves the list [results] in pages of twenty: the
    first page, and every page that starts before the end of the list,
    holds the twenty results (or the rest) from its start on, and its body
    reports the length of the whole list. Page [p + 1] starts at position
    [20 * p]. *)
Definition servesInPages (P : Platform) (fetchSearch : string -> Response)
           (query : string) (results : list SearchDoc) : Prop :=
  forall p : nat,
    (p = 0 \/ 20 * p < length results)%nat ->
    fetchSearch (searchUrl P query (Z.of_nat p + 1) 20) =
    Body (Some (take 20 (drop (20 * p) results))) (Some (Z.of_nat (length results))).

End SearchHook.

(** ** A conversation: submissions made one after the other *)

Module Conversation.
Import Chatbot.

(** The user types [text] and sends it: the component renders with the
    new input, and the handler of that render runs to its end. *)
Definition submit (P : Platform) (user : option string) (text : string) : M unit :=
  setInput text;;
  fun w => handleSendMessage P (render user w) w.

Fixpoint submitAll (P : Platform) (user : option string) (texts : list string) : M unit :=
  match texts with
  | [] => ret tt
  | text :: rest => submit P user text;; submitAll P user rest
  end.

(** The chat is opened: for a signed-in user the effect runs the
    [initializeChat] of the current render. *)
Definition openChat (P : Platform) (user : option string) : M unit :=
  fun w =>
    if bool_decide (is_Some user) then initializeChat P (render user w) w
    else (tt, w).

(** What the user does with the chat. The hook is called by the two
    handlers only, so every call of its four operations is made inside
    one of these, through the closures of the render the handler was
    started from. *)
Inductive Action :=
| Open
| Send (text : string).

Definition act (P : Platform) (user : option string) (a : Action) : M unit :=
  match a with
  | Open => openChat P user
  | Send text => submit P user text
  end.

(** Actions taken one after the other, each started from the render of
    the state the one before left. *)
Fixpoint actAll (P : Platform) (user : option string) (acts : list Action) : M unit :=
  match acts with
  | [] => ret tt
  | a :: rest => act P user a;; actAll P user rest
  end.

End Conversation.

(** ** More notions the properties are stated with *)

Module Notions.
Import Js Supabase Chatbot.

(** Every character of [s] passes the test [p]. *)
Fixpoint everyChar (p : ascii -> bool) (s : string) : bool :=
  match s with
  | EmptyString => true
  | String c s' => p c && everyChar p s'
  end.

(** [s] is empty or starts with a character that fails the test [p]. *)
Definition stopsAt (p : ascii -> bool) (s : string) : Prop :=
  match s with
  | String c _ => p c = false
  | EmptyString => True
  end.

(** A request that yields no document: it fails, or its list is empty. *)
Definition yieldsNothing (P : Platform) (url : string) : Prop :=
  fetchDocs P url = None \/ fetchDocs P url = Some [].

(** [a] is not older than [b]; a book without a year counts as year 0. *)
Definition newerOrEqual (a b : Book) : Prop :=
  orZero (book_publishedDate b) <= orZero (book_publishedDate a).

(** Both tables are there, the store answers, and the hook has not
    flagged a missing table. *)
Definition storeWorks (w : World) : Prop :=
  health (store w) = Healthy /\ is_Some (chat_usage (store w)) /\
  is_Some (chat_messages (store w)) /\ st_isTableMissing w = false.

(** The URLs the cover image of a card goes through: BookCard hands
    [book.coverUrls] and [book.cover] to SmartCoverImage. *)
Definition chatCardUrls (b : Book) : list string :=
  Cards.allUrls (book_coverUrls b) (book_cover b).

Definition listedCardUrls (b : Listing.ListedBook) : list string :=
  Cards.allUrls (Listing.lb_coverUrls b) (Listing.lb_cover b).

End Notions.

(** ** More platforms and documents used in the examples *)

Module Scenarios.
Import Js Supabase.

(** A platform whose catalog has nothing for the newest-first strategy
    and one book for the others. *)
Definition secondAnswers : Platform :=
  mkPlatform true (fun _ _ => Rejected "network")
             (fun url => if includes url "sort=new" then Some [] else Some [Examples.duneDoc])
             (fun s => s) (fun _ => None) (fun _ => "[]") (fun _ => Some [])
             (fun n => 1700000000000 + 1000 * Z.of_nat n)
             (fun _ => "2023-11-14")
             (fun _ => 2023).

(** A store that holds one message of alice, created at time 1. *)
Definition oneRow : MessageRow := mkRow "user-1" "alice" RoleUser "hello" None 1.

Definition oneRowStore : Store := mkStore (Some ∅) (Some [oneRow]) Healthy.

(** An assistant message that carries an empty list of books. *)
Definition reply : Message := mkMessage "assistant-5" RoleAssistant "hi" (Some []) 5.

(** A world in which nine turns were served today. *)
Definition nineServed : World :=
  mkWorld Examples.workingStore [] [] EmptyString false 9 false.

Definition duneSearchDoc : Listing.SearchDoc :=
  Listing.mkSearchDoc Examples.duneDoc None None None.

Definition threeStars : Filters.FilterOptions :=
  Filters.mkFilters [] (1900, 2023) 3%Q (0, 1000).

(** Twenty-five results, served in two pages. *)
Definition twentyFive : list Listing.SearchDoc := replicate 25 duneSearchDoc.

Definition twoPages (url : string) : SearchHook.Response :=
  if String.eqb url (SearchHook.searchUrl Examples.quietPlatform "dune" 1 20)
  then SearchHook.Body (Some (take 20 twentyFive)) (Some 25)
  else SearchHook.Body (Some (drop 20 twentyFive)) (Some 25).

(** A platform whose codec reads the empty list only, and a store
    holding a row whose books it cannot read. *)
Definition strictCodec : Platform :=
  mkPlatform true (fun _ _ => Rejected "network") (fun _ => Some [])
             (fun s => s) (fun _ => None) (fun _ => "[]")
             (fun s => if String.eqb s "[]" then Some [] else None)
             (fun n => 1700000000000 + 1000 * Z.of_nat n)
             (fun _ => "2023-11-14")
             (fun _ => 2023).

Definition brokenRow : MessageRow :=
  mkRow "assistant-2" "alice" RoleAssistant "try these" (Some "[{") 2.

Definition brokenStore : Store := mkStore (Some ∅) (Some [oneRow; brokenRow]) Healthy.

End Scenarios.

(** * Properties *)

(** ** Strings *)

Module JsFacts.
Import Js.

Lemma append_nil (b : string) : EmptyString +:+ b = b.
Proof. reflexivity. Qed.

Lemma append_cons (x : ascii) (a b : string) :
  String x a +:+ b = String x (a +:+ b).
Proof. reflexivity. Qed.

Ltac sapp := rewrite ?append_nil, ?append_cons in *.

Lemma append_assoc (a b c : string) : (a +:+ b) +:+ c = a +:+ (b +:+ c).
Proof. induction a as [|x a IH]; sapp; [reflexivity | f_equal; exact IH]. Qed.

Lemma length_append (a b : string) :
  String.length (a +:+ b) = (String.length a + String.length b)%nat.
Proof. induction a as [|x a IH]; sapp; simpl; [reflexivity | now rewrite IH]. Qed.

Lemma startsWith_spec (s p : string) :
  startsWith s p = true <-> exists suf, s = p +:+ suf.
Proof.
  revert s. induction p as [|a p IH]; intros s; simpl.
  - split; [intros _; now exists s | reflexivity].
  - destruct s as [|b s].
    + split; [discriminate | intros [suf H]; discriminate].
    + destruct (Ascii.eqb a b) eqn:E.
      * apply Ascii.eqb_eq in E. subst b. rewrite IH.
        split; intros [suf H]; exists suf; sapp; [now rewrite H | now injection H].
      * apply Ascii.eqb_neq in E.
        split; [discriminate | intros [suf H]; sapp; injection H; congruence].
Qed.

(** [includes] decides the substring relation. *)
Lemma includes_spec (s needle : string) :
  includes s needle = true <-> Substring needle s.
Proof.
  unfold Substring. induction s as [|c s IH]; simpl.
  - rewrite orb_false_r, startsWith_spec. split.
    + intros [suf H]. now exists EmptyString, suf.
    + intros [[|x pre] [suf H]]; sapp; [now exists suf | discriminate].
  - rewrite orb_true_iff, IH, startsWith_spec. split.
    + intros [[suf H] | [pre [suf H]]].
      * now exists EmptyString, suf.
      * exists (String c pre), suf. sapp. now rewrite H.
    + intros [[|x pre] [suf H]]; sapp.
      * left. now exists suf.
      * right. injection H as _ H. now exists pre, suf.
Qed.

Lemma includes_false (s needle : string) :
  includes s needle = false <-> ~ Substring needle s.
Proof.
  rewrite <- includes_spec. destruct (includes s needle); split; congruence.
Qed.

Lemma Substring_length (needle s : string) :
  Substring needle s -> (String.length needle <= String.length s)%nat.
Proof. intros [pre [suf ->]]. rewrite !length_append. lia. Qed.

(** Equal numbers print alike, different ones differently. *)
Lemma showZ_inj (a b : Z) : showZ a = showZ b -> a = b.
Proof. unfold showZ. apply pretty_Z_inj. Qed.

Lemma append_inj_l (p a b : string) : p +:+ a = p +:+ b -> a = b.
Proof. induction p as [|c p IH]; sapp; [auto | intros H; injection H; auto]. Qed.

End JsFacts.

(** ** Sequencing *)

Lemma run_bind {A B} (m : M A) (k : A -> M B) (w : World) :
  bind m k w = k (fst (m w)) (snd (m w)).
Proof. unfold bind. now destruct (m w). Qed.

Lemma run_ret {A} (a : A) (w : World) : ret a w = (a, w).
Proof. reflexivity. Qed.

(** [steps R m]: running [m] takes a world to one related to it by [R]. *)
Definition steps {A} (R : relation World) (m : M A) : Prop :=
  forall w, R w (snd (m w)).

Lemma steps_ret {A} (R : relation World) `{!Reflexive R} (a : A) : steps R (ret a).
Proof. intros w. reflexivity. Qed.

Lemma steps_bind {A B} (R : relation World) `{!Transitive R} (m : M A) (k : A -> M B) :
  steps R m -> (forall a, steps R (k a)) -> steps R (bind m k).
Proof. intros Hm Hk w. rewrite run_bind. etransitivity; [apply Hm | apply Hk]. Qed.

(** [keeps f m]: running [m] leaves the observation [f] of the world as it
    was. *)
Definition sameOn {X} (f : World -> X) : relation World := fun w w' => f w' = f w.

Global Instance sameOn_refl {X} (f : World -> X) : Reflexive (sameOn f).
Proof. intros w. reflexivity. Qed.

Global Instance sameOn_trans {X} (f : World -> X) : Transitive (sameOn f).
Proof. intros a b c H1 H2. unfold sameOn in *. congruence. Qed.

Definition keeps {X A} (f : World -> X) (m : M A) : Prop := steps (sameOn f) m.

Lemma keeps_ret {X A} (f : World -> X) (a : A) : keeps f (ret a).
Proof. apply steps_ret, _. Qed.

Lemma keeps_bind {X A B} (f : World -> X) (m : M A) (k : A -> M B) :
  keeps f m -> (forall a, keeps f (k a)) -> keeps f (bind m k).
Proof. apply steps_bind, _. Qed.

Lemma keeps_run {X A} (f : World -> X) (m : M A) (w : World) :
  keeps f m -> f (snd (m w)) = f w.
Proof. intros H. apply H. Qed.

(** The flag of the hook only ever goes up. *)
Definition flagStays : relation World :=
  fun w w' => st_isTableMissing w = true -> st_isTableMissing w' = true.

Global Instance flagStays_refl : Reflexive flagStays.
Proof. intros w H. exact H. Qed.

Global Instance flagStays_trans : Transitive flagStays.
Proof. intros a b c H1 H2 H. apply H2, H1, H. Qed.

Lemma countEv_app (p : Event -> bool) (l1 l2 : list Event) :
  countEv p (l1 ++ l2) = (countEv p l1 + countEv p l2)%nat.
Proof. unfold countEv. now rewrite filter_app, length_app. Qed.

Lemma countEv_snoc (p : Event -> bool) (l : list Event) (e : Event) :
  countEv p (l ++ [e]) = (countEv p l + if p e then 1 else 0)%nat.
Proof.
  rewrite countEv_app. f_equal. unfold countEv. cbn.
  unfold filter, list_filter. destruct (decide (p e = true)) as [E|E].
  - now rewrite E.
  - destruct (p e); [congruence | reflexivity].
Qed.

(** The four observations used below, and what an [emit] does to them. *)
Lemma emit_completionCalls (e : Event) (w : World) :
  completionCalls (snd (emit e w)) =
  (completionCalls w + if isCompletion e then 1 else 0)%nat.
Proof. apply countEv_snoc. Qed.

Lemma emit_catalogCalls (e : Event) (w : World) :
  catalogCalls (snd (emit e w)) = (catalogCalls w + if isCatalog e then 1 else 0)%nat.
Proof. apply countEv_snoc. Qed.

Lemma emit_storeCalls (e : Event) (w : World) :
  storeCalls (snd (emit e w)) = (storeCalls w + if isStore e then 1 else 0)%nat.
Proof. apply countEv_snoc. Qed.

Lemma keeps_emit_completion (e : Event) :
  isCompletion e = false -> keeps completionCalls (emit e).
Proof. intros H w. unfold sameOn. rewrite emit_completionCalls, H. lia. Qed.

Lemma keeps_emit_catalog (e : Event) :
  isCatalog e = false -> keeps catalogCalls (emit e).
Proof. intros H w. unfold sameOn. rewrite emit_catalogCalls, H. lia. Qed.

Lemma steps_withStore {A} (R : relation World)
      (f : Supabase.Store -> A * Supabase.Store) :
  (forall w s, R w (mkWorld s (log w) (st_messages w) (st_input w) (st_isLoading w)
                            (st_dailyUsage w) (st_isTableMissing w))) ->
  steps R (withStore f).
Proof. intros H w. unfold withStore. destruct (f (store w)). apply H. Qed.

(** A tactic for frame goals: split sequences, case on the data that
    steers the control flow, and close the primitive steps. *)
Create HintDb steps discriminated.

Ltac steps_step :=
  match goal with
  | |- keeps _ _ => first [solve [auto with steps] | unfold keeps]
  | |- steps _ (bind _ _) => apply steps_bind; [exact _ | | intros ?]
  | |- steps _ (ret _) => apply steps_ret; exact _
  | |- steps (sameOn ?f) ?m =>
      change (keeps f m); solve [auto with steps]
  | |- steps flagStays _ => solve [auto with steps]
  | |- steps (sameOn completionCalls) (emit _) =>
      apply keeps_emit_completion; reflexivity
  | |- steps (sameOn catalogCalls) (emit _) =>
      apply keeps_emit_catalog; reflexivity
  | |- steps _ (withStore _) =>
      apply steps_withStore; intros ? ?; first [reflexivity | intros ?; assumption]
  | |- steps _ (if ?b then _ else _) => destruct b
  | |- steps _ (match ?x with _ => _ end) => destruct x
  | |- steps _ _ => intros ?; first [reflexivity | intros ?; assumption | intros ?; reflexivity]
  end.

Ltac steps_auto := repeat steps_step.

(** ** Sorting *)

Module SortFacts.
Import Supabase.

Section Sort.
Context {A : Type} (le : A -> A -> bool).

Lemma insertBy_perm (x : A) (l : list A) : insertBy le x l ≡ₚ x :: l.
Proof.
  induction l as [|y l IH]; simpl; [reflexivity |].
  destruct (le x y); [reflexivity |].
  rewrite IH. apply Permutation_swap.
Qed.

Lemma sortBy_perm (l : list A) : sortBy le l ≡ₚ l.
Proof.
  induction l as [|x l IH]; simpl; [reflexivity |].
  unfold sortBy in *. simpl. now rewrite insertBy_perm, IH.
Qed.

Lemma elem_of_sortBy (x : A) (l : list A) : x ∈ sortBy le l <-> x ∈ l.
Proof. now rewrite sortBy_perm. Qed.

Hypothesis le_total : forall a b, le a b = true \/ le b a = true.
Hypothesis le_trans : forall a b c, le a b = true -> le b c = true -> le a c = true.

Let R : relation A := fun a b => le a b = true.

Lemma insertBy_sorted (x : A) (l : list A) :
  StronglySorted R l -> StronglySorted R (insertBy le x l).
Proof.
  induction l as [|y l IH]; simpl; intros H.
  - repeat constructor.
  - apply StronglySorted_inv in H as [Hl Hy].
    destruct (le x y) eqn:E.
    + constructor; [now constructor |].
      constructor; [exact E |].
      eapply Forall_impl; [exact Hy |]. intros z Hz. now apply (le_trans x y z).
    + constructor; [now apply IH |].
      rewrite insertBy_perm. constructor; [| exact Hy].
      destruct (le_total x y) as [F | F]; [congruence | exact F].
Qed.

Lemma sortBy_sorted (l : list A) : StronglySorted R (sortBy le l).
Proof.
  induction l as [|x l IH]; [constructor |].
  unfold sortBy in *. simpl. now apply insertBy_sorted.
Qed.

(** The first [n] of a sorted list are below the rest. *)
Lemma take_below_drop (n : nat) (l : list A) (k o : A) :
  k ∈ take n (sortBy le l) -> o ∈ drop n (sortBy le l) -> le k o = true.
Proof.
  intros Hk Ho. pose proof (sortBy_sorted l) as H.
  rewrite <- (take_drop n (sortBy le l)) in H.
  apply StronglySorted_app in H as (H & _ & _). now apply H.
Qed.

Lemma take_sorted (n : nat) (l : list A) : StronglySorted R (take n (sortBy le l)).
Proof.
  pose proof (sortBy_sorted l) as H.
  rewrite <- (take_drop n (sortBy le l)) in H.
  now apply StronglySorted_app in H as (_ & H & _).
Qed.

End Sort.

Lemma created_le_total (a b : MessageRow) :
  created_le a b = true \/ created_le b a = true.
Proof. unfold created_le. rewrite !Z.leb_le. lia. Qed.

Lemma created_le_trans (a b c : MessageRow) :
  created_le a b = true -> created_le b c = true -> created_le a c = true.
Proof. unfold created_le. rewrite !Z.leb_le. lia. Qed.

End SortFacts.

(** ** Cover URL derivation (lib/utils) *)

Module CoverFacts.
Import Js Utils Spec.

Lemma idCoverUrl_inj (a b : Z) : idCoverUrl a = idCoverUrl b -> a = b.
Proof.
  unfold idCoverUrl. intros H. apply JsFacts.append_inj_l in H.
  apply JsFacts.showZ_inj.
  assert (L : forall x y s, x +:+ s = y +:+ s -> x = y).
  { intros x. induction x as [|c x IH]; intros [|d y] s E;
      rewrite ?JsFacts.append_nil, ?JsFacts.append_cons in E.
    - reflexivity.
    - exfalso. apply (f_equal String.length) in E. simpl in E.
      rewrite JsFacts.length_append in E. lia.
    - exfalso. apply (f_equal String.length) in E. simpl in E.
      rewrite JsFacts.length_append in E. lia.
    - injection E as -> E. f_equal. now apply (IH y s). }
  now apply (L _ _ _ H).
Qed.

(** C9, the claim as stated, fails: the cover id 0 is a number, and a
    record that has it and nothing else gets no cover URL at all. *)
Lemma C9_cover_id_zero_yields_null :
  onlyCoverId (Examples.coverOnlyDoc 0) 0 /\
  generateCoverUrls (Examples.coverOnlyDoc 0) = None.
Proof. repeat split. Qed.

(** C9 (amended): a record whose only identifying field is a cover id
    other than 0 gets exactly one cover URL, the one built from that id
    (distinct ids give distinct URLs); a record with no identifying field
    gets null. *)
Theorem C9_generateCoverUrls_by_cover_id (doc : Doc) :
  (forall n, onlyCoverId doc n -> n <> 0 ->
             generateCoverUrls doc = Some [idCoverUrl n]) /\
  (forall n m, idCoverUrl n = idCoverUrl m -> n = m) /\
  (noIdentifier doc -> generateCoverUrls doc = None).
Proof.
  split; [| split].
  - intros n (Hi & Hk & He & Hc) Hn. unfold generateCoverUrls.
    rewrite Hi, Hk, He, Hc. simpl.
    unfold truthyZ. destruct (n =? 0) eqn:E; [apply Z.eqb_eq in E; contradiction |].
    reflexivity.
  - apply idCoverUrl_inj.
  - intros (Hi & Hk & He & Hc). unfold generateCoverUrls.
    rewrite Hi, Hk, He, Hc. reflexivity.
Qed.

Lemma C9_generateCoverUrls_witness :
  generateCoverUrls (Examples.coverOnlyDoc 8231856)
  = Some ["https://covers.openlibrary.org/b/id/8231856-L.jpg?default=false"] /\
  generateCoverUrls emptyDoc = None.
Proof.
  destruct (C9_generateCoverUrls_by_cover_id (Examples.coverOnlyDoc 8231856))
    as (H1 & _ & _).
  destruct (C9_generateCoverUrls_by_cover_id emptyDoc) as (_ & _ & H2).
  split.
  - rewrite (H1 8231856); [vm_compute; reflexivity | repeat split | lia].
  - apply H2. repeat split.
Defined.

End CoverFacts.

(** ** The usage and history hook (hooks/useChatDatabase) *)

Module ChatDbFacts.
Import Js Supabase ChatDb.

Lemma today_fst (P : Platform) (w : World) :
  fst (today P w) = isoDate P (Date_now P (length (log w))).
Proof. reflexivity. Qed.

(** What a read of today's counter returns on a healthy store that has
    the table. *)
Lemma checkDailyUsage_healthy (P : Platform) (u : string) (w : World)
      (t : gmap (string * string) Z) :
  health (store w) = Healthy -> chat_usage (store w) = Some t ->
  fst (checkDailyUsage P (Some u) false w) =
  match t !! (u, fst (today P w)) with
  | Some c => if truthyZ c then c else 0
  | None => 0
  end.
Proof.
  intros Hh Ht. unfold checkDailyUsage. cbn.
  unfold selectUsage, onTable. rewrite Hh, Ht.
  destruct (t !! _); reflexivity.
Qed.

(** C6: on a working store, [updateDailyUsage 4] writes 5 into the
    record of (user, today) and returns 5; reading the counter later on
    the same day gives 5, and reading it on another day, for which no
    record exists, gives 0. *)
Theorem C6_increment_then_read (P : Platform) (u : string) (w : World)
        (t : gmap (string * string) Z) :
  health (store w) = Healthy ->
  chat_usage (store w) = Some t ->
  st_isTableMissing w = false ->
  let d := fst (today P w) in
  let r := updateDailyUsage P (Some u) (st_isTableMissing w) 4 w in
  fst r = 5 /\
  chat_usage (store (snd r)) = Some (<[(u, d) := 5]> t) /\
  health (store (snd r)) = Healthy /\
  st_isTableMissing (snd r) = false /\
  (forall w2, store w2 = store (snd r) -> fst (today P w2) = d ->
              fst (checkDailyUsage P (Some u) false w2) = 5) /\
  (forall w2, store w2 = store (snd r) -> fst (today P w2) <> d ->
              t !! (u, fst (today P w2)) = None ->
              fst (checkDailyUsage P (Some u) false w2) = 0).
Proof.
  intros Hh Ht Hf d r.
  assert (Hr : r = (5, mkWorld (mkStore (Some (<[(u, d) := 5]> t))
                                        (chat_messages (store w)) Healthy)
                               (log w ++ [EvStore (OpUpsertUsage u d 5)])
                               (st_messages w) (st_input w) (st_isLoading w)
                               (st_dailyUsage w) false)).
  { subst r. unfold updateDailyUsage. rewrite Hf. cbn.
    unfold bind, withStore, upsertUsage, onTable. cbn. rewrite Hh, Ht. cbn.
    rewrite Hf. reflexivity. }
  rewrite Hr. cbn [fst snd store chat_usage health st_isTableMissing].
  repeat split.
  - intros w2 Hs Hd.
    rewrite (checkDailyUsage_healthy P u w2 (<[(u, d) := 5]> t));
      [| now rewrite Hs | now rewrite Hs].
    rewrite Hd, lookup_insert_eq. reflexivity.
  - intros w2 Hs Hd Hn.
    rewrite (checkDailyUsage_healthy P u w2 (<[(u, d) := 5]> t));
      [| now rewrite Hs | now rewrite Hs].
    rewrite lookup_insert_ne by congruence. now rewrite Hn.
Qed.

Lemma C6_increment_then_read_witness :
  let P := Examples.quietPlatform in
  let w := Examples.freshWorld Examples.workingStore in
  let r := updateDailyUsage P (Some "alice") false 4 w in
  let sameDay := snd r in
  let nextDay := mkWorld (store (snd r)) (log (snd r) ++ log (snd r) ++ log (snd r))
                         [] EmptyString false 5 false in
  fst r = 5 /\
  fst (checkDailyUsage P (Some "alice") false sameDay) = 5 /\
  fst (checkDailyUsage P (Some "alice") false nextDay) = 0.
Proof.
  intros P w r sameDay nextDay.
  pose proof (C6_increment_then_read P "alice" w ∅ eq_refl eq_refl eq_refl) as H.
  cbv zeta in H. destruct H as (H1 & _ & _ & _ & H5 & H6).
  split; [exact H1 | split].
  - apply H5; reflexivity.
  - apply H6; [reflexivity | intros E; vm_compute in E; discriminate E | reflexivity].
Defined.

(** *** The history read *)

Lemma toMessage_timestamp (P : Platform) (r : MessageRow) (m : Message) :
  toMessage P r = Some m ->
  msg_timestamp m = row_created_at r /\ msg_id m = row_id r /\
  msg_role m = row_role r /\ msg_content m = row_content r.
Proof.
  unfold toMessage. intros H.
  destruct (row_books r) as [b|];
    [destruct (truthyS b); [destruct (JSON_parse_books P b) |] |];
    inversion H; subst; repeat split.
Qed.

Lemma mapM_toMessage_timestamps (P : Platform) (rows : list MessageRow)
      (ms : list Message) :
  mapM (toMessage P) rows = Some ms ->
  map msg_timestamp ms = map row_created_at rows.
Proof.
  intros H. apply mapM_Some_1 in H.
  induction H as [|r m rows ms Hrm _ IH]; [reflexivity |].
  simpl. f_equal; [now apply toMessage_timestamp in Hrm | exact IH].
Qed.

(** What the history read returns, by the state of the store. *)
Lemma loadChatHistory_fst (P : Platform) (uid : string) (captured : bool) (w : World) :
  fst (loadChatHistory P (Some uid) captured w) =
  if captured then [] else
  match selectMessages (store w) uid with
  | PgData rows => default [] (mapM (toMessage P) rows)
  | _ => []
  end.
Proof.
  unfold loadChatHistory. destruct captured; [reflexivity |].
  rewrite !run_bind. cbn [emit readStore fst snd store].
  destruct (selectMessages (store w) uid) as [rows|code|]; [| | reflexivity].
  - destruct (mapM (toMessage P) rows); reflexivity.
  - destruct (is42P01 code); reflexivity.
Qed.

(** C2, the code at the failing input: of twenty-one stored messages
    of one user, created at times 1 to 21, the read returns those created
    at times 1 to 20; the newest message, the one a most-recent-twenty
    read has to return, is the one left out. *)
Lemma C2_newest_message_is_omitted :
  let w := Examples.freshWorld
             (mkStore (Some ∅) (Some Examples.longTranscript) Healthy) in
  let res := fst (loadChatHistory Examples.quietPlatform (Some "alice") false w) in
  length (rowsOf "alice" Examples.longTranscript) = 21%nat /\
  map msg_timestamp res = seqZ 1 20 /\
  (exists r, r ∈ Examples.longTranscript /\ row_created_at r = 21 /\
             (row_id r ∉ map msg_id res) /\
             Forall (fun m => msg_timestamp m < row_created_at r) res).
Proof.
  cbv zeta. split; [vm_compute; reflexivity |].
  split; [vm_compute; reflexivity |].
  exists (mkRow "m21" "alice" RoleUser "hello" None 21).
  split; [| split; [reflexivity | split]].
  - apply list_elem_of_In. vm_compute. do 20 right. left. reflexivity.
  - intros H. apply list_elem_of_In in H. vm_compute in H.
    repeat (destruct H as [H | H]; [discriminate H |]). exact H.
  - apply Forall_forall. intros m H. apply list_elem_of_In in H.
    vm_compute in H.
    repeat (destruct H as [H | H]; [subst m; reflexivity |]). destruct H.
Qed.

(** What the history read does return: at most 20 messages of the
    user in ascending order of creation, and, when every stored row of
    the user is readable, the oldest ones: the stored messages of the
    user split into the returned ones and the omitted ones, and no
    omitted message is older than a returned one. It returns the empty
    list when the store is unavailable (flag set, failing store, or
    missing table). *)
Theorem history_is_oldest_twenty (P : Platform) (uid : string) (captured : bool)
        (w : World) :
  let res := fst (loadChatHistory P (Some uid) captured w) in
  (length res <= 20)%nat /\
  StronglySorted Z.le (map msg_timestamp res) /\
  (captured = true \/ health (store w) <> Healthy \/ chat_messages (store w) = None ->
   res = []) /\
  (forall table,
      captured = false -> health (store w) = Healthy ->
      chat_messages (store w) = Some table ->
      Forall (fun r => is_Some (toMessage P r)) (rowsOf uid table) ->
      exists kept omitted,
        rowsOf uid table ≡ₚ kept ++ omitted /\
        mapM (toMessage P) kept = Some res /\
        length kept = Nat.min 20 (length (rowsOf uid table)) /\
        (forall k o, k ∈ kept -> o ∈ omitted ->
                     row_created_at k <= row_created_at o)).
Proof.
  intros res. subst res. rewrite loadChatHistory_fst.
  unfold selectMessages, onTable.
  destruct captured.
  { repeat split; [cbn; lia | constructor | discriminate]. }
  destruct (health (store w)) eqn:Hh;
    [| repeat split; [cbn; lia | constructor | discriminate]
     | repeat split; [cbn; lia | constructor | discriminate] ].
  destruct (chat_messages (store w)) as [t|] eqn:Ht;
    [| repeat split; [cbn; lia | constructor | discriminate] ].
  set (sorted := sortBy created_le (rowsOf uid t)).
  destruct (mapM (toMessage P) (take 20 sorted)) as [ms|] eqn:Hm; simpl.
  - split; [| split; [| split]].
    + apply length_mapM in Hm. rewrite <- Hm, length_take. lia.
    + rewrite (mapM_toMessage_timestamps P _ _ Hm).
      pose proof (SortFacts.take_sorted created_le SortFacts.created_le_total
                    SortFacts.created_le_trans 20 (rowsOf uid t)) as Hs.
      fold sorted in Hs. clear Hm.
      induction Hs as [|r rows Hs IH Hr]; [constructor |].
      simpl. constructor; [exact IH |].
      apply Forall_fmap. eapply Forall_impl; [exact Hr |].
      intros r' Hr'. now apply Z.leb_le.
    + intros [H | [H | H]]; [discriminate | contradiction | discriminate].
    + intros table _ _ [= <-] _.
      exists (take 20 sorted), (drop 20 sorted).
      split; [| split; [exact Hm | split]].
      * rewrite take_drop. subst sorted. now rewrite SortFacts.sortBy_perm.
      * rewrite length_take. subst sorted.
        now rewrite (Permutation_length (SortFacts.sortBy_perm created_le _)).
      * intros k o Hk Ho. apply Z.leb_le.
        now apply (SortFacts.take_below_drop created_le SortFacts.created_le_total
                     SortFacts.created_le_trans 20 (rowsOf uid t)).
  - split; [cbn; lia | split; [constructor | split]].
    + intros [H | [H | H]]; [discriminate | contradiction | discriminate].
    + intros table _ _ [= <-] Hp. exfalso.
      assert (Hs : is_Some (mapM (toMessage P) (take 20 sorted))).
      { apply mapM_is_Some. apply Forall_take. subst sorted.
        now rewrite SortFacts.sortBy_perm. }
      rewrite Hm in Hs. now destruct Hs.
Qed.

Lemma history_is_oldest_twenty_example :
  let w := Examples.freshWorld
             (mkStore (Some ∅) (Some Examples.longTranscript) Healthy) in
  let res := fst (loadChatHistory Examples.quietPlatform (Some "alice") false w) in
  length res = 20%nat /\
  exists kept omitted,
    rowsOf "alice" Examples.longTranscript ≡ₚ kept ++ omitted /\
    mapM (toMessage Examples.quietPlatform) kept = Some res /\
    length kept = 20%nat /\
    (forall k o, k ∈ kept -> o ∈ omitted -> row_created_at k <= row_created_at o).
Proof.
  intros w res.
  destruct (history_is_oldest_twenty Examples.quietPlatform "alice" false w)
    as (_ & _ & _ & H).
  split; [vm_compute; reflexivity |].
  apply (H Examples.longTranscript eq_refl eq_refl eq_refl).
  apply Forall_forall. intros r _. unfold toMessage.
  destruct (row_books r) as [b|]; [| eexists; reflexivity].
  destruct (truthyS b); eexists; reflexivity.
Defined.

(** *** Degradation *)

(** A call made through the closures of a render that captured the
    flag returns its default and touches nothing: no round trip, no state
    change. *)
Lemma perform_short_circuits (P : Platform) (user : option string)
      (c : Session.Call) (w : World) :
  Session.perform P user true c w = (Session.defaultOf c, w).
Proof. destruct c, user; reflexivity. Qed.

(** No operation of the hook ever clears the flag. *)
Lemma perform_flag_monotone (P : Platform) (user : option string) (captured : bool)
      (c : Session.Call) :
  steps flagStays (Session.perform P user captured c).
Proof.
  destruct c; unfold Session.perform, checkDailyUsage, updateDailyUsage,
    loadChatHistory, saveChatMessage, today; steps_auto.
Qed.

(** A call through a render without the flag that the store answers with
    42P01 makes its round trip and sets the flag. *)
Lemma perform_sets_flag (P : Platform) (uid : string) (c : Session.Call) (w : World) :
  Session.reportsMissing c (store w) ->
  st_isTableMissing (snd (Session.perform P (Some uid) false c w)) = true /\
  storeCalls (snd (Session.perform P (Some uid) false c w)) = S (storeCalls w).
Proof.
  intros Hr.
  assert (Hc : forall l e, isStore e = true ->
                           countEv isStore (l ++ [e]) = S (countEv isStore l)).
  { intros l e He. rewrite countEv_snoc, He. lia. }
  destruct Hr as [Hh | [Hh Ht]].
  - destruct c; cbn;
      unfold bind, readStore, withStore, storeCalls,
        selectUsage, upsertUsage, selectMessages, insertMessage, onTable; cbn;
      rewrite Hh; cbn; (split; [reflexivity | now apply Hc]).
  - destruct c; cbn in Ht; cbn;
      unfold bind, readStore, withStore, storeCalls,
        selectUsage, upsertUsage, selectMessages, insertMessage, onTable; cbn;
      rewrite Hh;
      [ destruct (chat_usage (store w)) | destruct (chat_usage (store w))
      | destruct (chat_messages (store w)) | destruct (chat_messages (store w)) ];
      try (exfalso; revert Ht; rewrite bool_decide_eq_false; intros Ht;
           apply Ht; eexists; reflexivity);
      cbn; (split; [reflexivity | now apply Hc]).
Qed.

(** Whatever render a call is made through, it returns its default when
the store answers that the relation is missing. *)
Lemma perform_default_when_missing (P : Platform) (uid : string) (captured : bool)
      (c : Session.Call) (w : World) :
  Session.reportsMissing c (store w) ->
  fst (Session.perform P (Some uid) captured c w) = Session.defaultOf c.
Proof.
intros Hr. destruct captured; [destruct c; reflexivity |].
destruct Hr as [Hh | [Hh Ht]].
- destruct c; cbn;
    unfold bind, readStore, withStore,
      selectUsage, upsertUsage, selectMessages, insertMessage, onTable; cbn;
    rewrite Hh; reflexivity.
- destruct c; cbn in Ht; cbn;
    unfold bind, readStore, withStore,
      selectUsage, upsertUsage, selectMessages, insertMessage, onTable; cbn;
    rewrite Hh;
    [ destruct (chat_usage (store w)) | destruct (chat_usage (store w))
    | destruct (chat_messages (store w)) | destruct (chat_messages (store w)) ];
    try (exfalso; revert Ht; rewrite bool_decide_eq_false; intros Ht;
         apply Ht; eexists; reflexivity);
    reflexivity.
Qed.

End ChatDbFacts.

(** ** The chat component (BookChatbot) *)

Module ChatbotFacts.
Import Js Chatbot.

(** *** The daily cap *)

(** What the handler does once the cap is reached: nothing at all when
    the submission is not a real one, the notice otherwise. *)
Lemma handleSendMessage_at_cap (P : Platform) (r : Render) (w : World) :
  DAILY_LIMIT <= r_dailyUsage r ->
  handleSendMessage P r w =
  if negb (truthyS (trim (r_input r))) || negb (bool_decide (is_Some (r_user r)))
     || r_isLoading r
  then (tt, w) else emit limitNotice w.
Proof.
  intros H. unfold handleSendMessage.
  destruct (_ || _ || _); [reflexivity |].
  apply Z.leb_le in H. now rewrite H.
Qed.



(** *** The completion client *)

Lemma geminiCall_fst (P : Platform) (message : string) (history : list Message)
      (w : World) :
  fst (Gemini.callGeminiAPI P message history w) =
  if negb (apiKeyConfigured P) then Rejected Gemini.notConfigured
  else match generateContent P (completionCalls w)
                             (Gemini.prompt (Gemini.context history) message) with
       | Resolved text => Resolved text
       | Rejected m => Rejected (Gemini.typedFailure m)
       end.
Proof.
  unfold Gemini.callGeminiAPI. destruct (negb (apiKeyConfigured P)); [reflexivity |].
  rewrite run_bind. destruct (generateContent P _ _); reflexivity.
Qed.

Lemma geminiCall_log (P : Platform) (message : string) (history : list Message)
      (w : World) :
  let w' := snd (Gemini.callGeminiAPI P message history w) in
  store w' = store w /\ st_messages w' = st_messages w /\
  st_isTableMissing w' = st_isTableMissing w /\
  log w' = log w ++ (if apiKeyConfigured P
                     then [EvCompletion (Gemini.prompt (Gemini.context history) message)]
                     else []).
Proof.
  unfold Gemini.callGeminiAPI. destruct (apiKeyConfigured P); cbn [negb].
  - rewrite run_bind. destruct (generateContent P _ _); cbn; repeat split.
  - cbn. rewrite app_nil_r. repeat split.
Qed.

Lemma geminiCall_keeps_catalog (P : Platform) (message : string) (history : list Message) :
  keeps catalogCalls (Gemini.callGeminiAPI P message history).
Proof.
  intros w. unfold sameOn, catalogCalls.
  destruct (geminiCall_log P message history w) as (_ & _ & _ & ->).
  destruct (apiKeyConfigured P); [rewrite countEv_snoc; cbn; lia | now rewrite app_nil_r].
Qed.

Lemma geminiCall_keeps_messages (P : Platform) (message : string) (history : list Message) :
  keeps st_messages (Gemini.callGeminiAPI P message history).
Proof.
  intros w. unfold sameOn.
  now destruct (geminiCall_log P message history w) as (_ & -> & _).
Qed.

(** The outcome of a completion call depends on the world only through
    the number of completion calls made so far. *)
Lemma geminiCall_fst_ext (P : Platform) (message : string) (history : list Message)
      (w1 w2 : World) :
  completionCalls w1 = completionCalls w2 ->
  fst (Gemini.callGeminiAPI P message history w1)
  = fst (Gemini.callGeminiAPI P message history w2).
Proof. intros H. now rewrite !geminiCall_fst, H. Qed.

(** *** The relevance gate *)

Lemma shouldExtractBooks_fst (P : Platform) (text um : string) (w : World) :
  fst (shouldExtractBooks P text um w) =
  match Spec.classifierAnswer P text um w with
  | Resolved response => bool_decide (toUpperCase (trim response) = "YES")
  | Rejected _ => fallbackHeuristic text um
  end.
Proof.
  unfold shouldExtractBooks, Spec.classifierAnswer. rewrite run_bind.
  destruct (fst (Gemini.callGeminiAPI P _ _ w)); reflexivity.
Qed.

Lemma shouldExtractBooks_snd (P : Platform) (text um : string) (w : World) :
  snd (shouldExtractBooks P text um w)
  = snd (Gemini.callGeminiAPI P (analysisPrompt um text) [] w).
Proof.
  unfold shouldExtractBooks. rewrite run_bind.
  destruct (fst (Gemini.callGeminiAPI P _ _ w)); reflexivity.
Qed.

Lemma gateNegative_false (P : Platform) (text um : string) (w : World) :
  Spec.gateNegative P text um w <-> fst (shouldExtractBooks P text um w) = false.
Proof.
  rewrite shouldExtractBooks_fst. unfold Spec.gateNegative.
  destruct (Spec.classifierAnswer P text um w); [| reflexivity].
  now rewrite bool_decide_eq_false.
Qed.




(** C4: whatever the reply, the message and the world, the extraction
    engine returns at most three books. *)
Theorem C4_at_most_three_books (P : Platform) (text : string)
        (userMessage : option string) (w : World) :
  (length (fst (extractAndSearchBooks P text userMessage w)) <= 3)%nat.
Proof.
  unfold extractAndSearchBooks. rewrite run_bind.
  destruct (negb _); [cbn; lia |].
  rewrite !run_bind. cbn [ret fst]. unfold sliceTo. rewrite length_take. lia.
Qed.

(** *** The fallback heuristic of the relevance gate *)

Lemma fallbackHeuristic_spec (text um : string) :
  fallbackHeuristic text um = true <->
  Substring "recommend" (toLowerCase text) \/
  Substring ("**" +:+ Gemini.dq) text \/
  Substring "books like" (toLowerCase um).
Proof.
  unfold fallbackHeuristic.
  rewrite !orb_true_iff, !JsFacts.includes_spec. tauto.
Qed.

Lemma QuotedTitlePattern_marker (text : string) :
  Spec.QuotedTitlePattern text -> Substring ("**" +:+ Gemini.dq) text.
Proof.
  intros (pre & title & author & suf & ->).
  exists pre, (title +:+ Gemini.dq +:+ " by " +:+ author +:+ "**" +:+ suf).
  unfold Gemini.q. now rewrite !JsFacts.append_assoc.
Qed.

(** C8, the claim as stated, fails: with the classifier down, a reply
    that consists of the marker alone (two stars and a quote) is treated
    as relevant, although it holds neither the word recommend nor a
    quoted title with its author, and the user did not write books
    like. *)
Lemma C8_marker_alone_is_relevant :
  let text := "**" +:+ Gemini.dq in
  let w := Examples.freshWorld Examples.workingStore in
  (exists e, Spec.classifierAnswer Examples.quietPlatform text EmptyString w = Rejected e) /\
  fst (shouldExtractBooks Examples.quietPlatform text EmptyString w) = true /\
  ~ Substring "recommend" (toLowerCase text) /\
  ~ Spec.QuotedTitlePattern text /\
  ~ Substring "books like" (toLowerCase EmptyString).
Proof.
  cbv zeta. split; [eexists; vm_compute; reflexivity |].
  split; [vm_compute; reflexivity |].
  split; [| split].
  - intros H. apply JsFacts.Substring_length in H. vm_compute in H. lia.
  - intros (pre & title & author & suf & H).
    apply (f_equal String.length) in H. unfold Gemini.q in H.
    rewrite !JsFacts.length_append in H. cbn in H. lia.
  - intros H. apply JsFacts.Substring_length in H. vm_compute in H. lia.
Qed.

(** C8 (amended): when the classifier call fails, the reply is treated
    as relevant if and only if the reply contains recommend (in any
    letter case), or the reply contains the three-character marker
    that opens the quoted-title pattern (two stars and a quote), or the
    user's message contains books like (in any letter case). A reply
    that contains the whole quoted-title pattern is therefore relevant. *)
Theorem C8_fallback_heuristic (P : Platform) (text um : string) (w : World) :
  (exists e, Spec.classifierAnswer P text um w = Rejected e) ->
  (fst (shouldExtractBooks P text um w) = true <->
   Substring "recommend" (toLowerCase text) \/
   Substring ("**" +:+ Gemini.dq) text \/
   Substring "books like" (toLowerCase um)) /\
  (Spec.QuotedTitlePattern text -> fst (shouldExtractBooks P text um w) = true).
Proof.
  intros [e He]. rewrite shouldExtractBooks_fst, He, fallbackHeuristic_spec.
  split; [reflexivity |].
  intros H. right. left. now apply QuotedTitlePattern_marker.
Qed.

Lemma C8_fallback_heuristic_witness :
  let P := Examples.quietPlatform in
  let w := Examples.freshWorld Examples.workingStore in
  let reply := "Try **" +:+ Gemini.q "Atomic Habits" +:+ " by James Clear**: small steps." in
  fst (shouldExtractBooks P reply "anything good?" w) = true /\
  fst (shouldExtractBooks P "Tell me more about your taste." "hello" w) = false.
Proof.
  intros P w reply.
  assert (F : forall text um, exists e, Spec.classifierAnswer P text um w = Rejected e)
    by (intros; eexists; reflexivity).
  split.
  - apply (C8_fallback_heuristic P reply "anything good?" w (F _ _)).
    now exists "Try ", "Atomic Habits", "James Clear", ": small steps.".
  - destruct (C8_fallback_heuristic P "Tell me more about your taste." "hello" w (F _ _))
      as [H _].
    destruct (fst (shouldExtractBooks P _ _ w)) eqn:E; [| reflexivity].
    exfalso. destruct H as [H _]. destruct (H eq_refl) as [S | [S | S]];
      apply JsFacts.includes_spec in S; vm_compute in S; discriminate S.
Defined.


(** *** Resolution against the catalog *)

Lemma keepDoc_spec (cy : Z) (d : Doc) :
  keepDoc cy d = true <-> Spec.acceptable cy d.
Proof.
unfold keepDoc, Spec.acceptable, hasImage, isRecent, hasTitle, truthyOZ, truthyZ.
rewrite !andb_true_iff, orb_true_iff. split.
- intros [[Hc Hy] Ht]. split; [| split].
  + destruct (doc_cover_i d) as [n|]; [| discriminate].
    exists n. split; [reflexivity |]. intros ->. discriminate.
  + intros y E. rewrite E in Hy. simpl in Hy.
    destruct Hy as [Hy | Hy]; [left | right; now apply Z.leb_le].
    destruct (y =? 0) eqn:E0; [now apply Z.eqb_eq | discriminate].
  + destruct (doc_title d) as [t|]; [| discriminate].
    exists t. split; [reflexivity |].
    apply andb_true_iff in Ht as [_ Ht]. now apply Nat.ltb_lt in Ht.
- intros ((n & Hn & Hn0) & Hy & (t & Ht & Hl)). repeat split.
  + rewrite Hn. apply negb_true_iff, Z.eqb_neq, Hn0.
  + destruct (doc_first_publish_year d) as [y|]; [| now left].
    destruct (Hy y eq_refl) as [-> | H]; [now left | right; now apply Z.leb_le].
  + rewrite Ht. apply andb_true_iff. split; [| now apply Nat.ltb_lt].
    destruct t; [simpl in Hl; lia | reflexivity].
Qed.

Lemma toBook_cover (cy : Z) (d : Doc) :
  Spec.acceptable cy d -> is_Some (book_cover (toBook d)).
Proof.
intros ((n & Hn & Hn0) & _). unfold toBook. cbn [book_cover]. rewrite Hn.
cbn [truthyOZ]. unfold truthyZ. destruct (n =? 0) eqn:E.
- apply Z.eqb_eq in E. contradiction.
- eexists. reflexivity.
Qed.

Lemma searchBooks_fst (P : Platform) (query : string) (w : World) :
  let cy := getFullYear P (Date_now P (length (log w))) in
  fst (searchBooksFromOpenLibrary P query w) =
  map toBook
      (sliceTo 3 (Supabase.sortBy docs_le
                    (filter (fun d => keepDoc cy d = true)
                            (fst (tryStrategies P (searchStrategies P query cy) w))))).
Proof. unfold searchBooksFromOpenLibrary. rewrite !run_bind. reflexivity. Qed.

(** Every book a search returns comes from a fetched document that is
acceptable. *)
Lemma searchBooks_kept (P : Platform) (query : string) (w : World) :
  let cy := getFullYear P (Date_now P (length (log w))) in
  let fetched := fst (tryStrategies P (searchStrategies P query cy) w) in
  exists kept,
    fst (searchBooksFromOpenLibrary P query w) = map toBook kept /\
    forall d, d ∈ kept -> d ∈ fetched /\ Spec.acceptable cy d.
Proof.
intros cy fetched. rewrite searchBooks_fst. fold cy. fold fetched.
eexists. split; [reflexivity |].
intros d Hd. unfold sliceTo in Hd. apply elem_of_take in Hd as (i & Hd & _).
apply list_elem_of_lookup_2 in Hd.
apply SortFacts.elem_of_sortBy in Hd. apply list_elem_of_filter in Hd as [Hk Hd].
split; [exact Hd | now apply keepDoc_spec].
Qed.

Lemma searchBooks_covers (P : Platform) (query : string) (w : World) (b : Book) :
  b ∈ fst (searchBooksFromOpenLibrary P query w) -> is_Some (book_cover b).
Proof.
destruct (searchBooks_kept P query w) as (kept & -> & Hk).
intros Hb. apply list_elem_of_fmap in Hb as (d & -> & Hd).
destruct (Hk d Hd) as [_ Ha]. now apply (toBook_cover _ d Ha).
Qed.

Lemma searchAll_covers (P : Platform) (queries : list string) (w : World) :
  Forall (Forall (fun b => is_Some (book_cover b))) (fst (searchAll P queries w)).
Proof.
revert w. induction queries as [|query rest IH]; intros w; [constructor |].
cbn [searchAll]. rewrite !run_bind. cbn [ret fst]. constructor; [| apply IH].
apply Forall_forall. intros b Hb. unfold sliceTo in Hb.
apply elem_of_take in Hb as (i & Hb & _). apply list_elem_of_lookup_2 in Hb.
now apply searchBooks_covers in Hb.
Qed.

Lemma extract_covers (P : Platform) (text : string) (um : option string) (w : World)
      (b : Book) :
  b ∈ fst (extractAndSearchBooks P text um w) -> is_Some (book_cover b).
Proof.
unfold extractAndSearchBooks. rewrite run_bind.
destruct (negb _); [cbn; intros H; now apply not_elem_of_nil in H |].
rewrite !run_bind. cbn [ret fst]. unfold sliceTo. intros Hb.
apply elem_of_take in Hb as (i & Hb & _). apply list_elem_of_lookup_2 in Hb.
apply list_elem_of_In, in_concat in Hb as (bs & Hbs & Hb).
apply list_elem_of_In in Hb, Hbs.
pose proof (searchAll_covers P (take 3 (deterministicLayers text
  (foldl (fun s book => setAdd book s) []
    (fst (extractBooksWithGemini P text (orElse um EmptyString)
      (snd (shouldExtractBooks P text (orElse um EmptyString) w)))))))
  (snd (extractBooksWithGemini P text (orElse um EmptyString)
      (snd (shouldExtractBooks P text (orElse um EmptyString) w))))) as H.
rewrite Forall_forall in H. specialize (H bs Hbs).
rewrite Forall_forall in H. now apply H.
Qed.


(** *** What each step of a turn leaves alone *)

Lemma geminiCall_keeps_store (P : Platform) (message : string) (history : list Message) :
  keeps store (Gemini.callGeminiAPI P message history).
Proof.
intros w. unfold sameOn.
now destruct (geminiCall_log P message history w) as (-> & _).
Qed.

Lemma geminiCall_completions (P : Platform) (message : string) (history : list Message)
      (w : World) :
  completionCalls (snd (Gemini.callGeminiAPI P message history w)) =
  (completionCalls w + if apiKeyConfigured P then 1 else 0)%nat.
Proof.
unfold completionCalls.
destruct (geminiCall_log P message history w) as (_ & _ & _ & ->).
destruct (apiKeyConfigured P); [now rewrite countEv_snoc | rewrite app_nil_r; lia].
Qed.

#[local] Hint Resolve geminiCall_keeps_catalog geminiCall_keeps_messages
  geminiCall_keeps_store : steps.

Lemma saveChatMessage_keeps_messages (P : Platform) (user : option string)
      (captured : bool) (m : Message) :
  keeps st_messages (ChatDb.saveChatMessage P user captured m).
Proof. unfold ChatDb.saveChatMessage. steps_auto. Qed.

Lemma saveChatMessage_keeps_catalog (P : Platform) (user : option string)
      (captured : bool) (m : Message) :
  keeps catalogCalls (ChatDb.saveChatMessage P user captured m).
Proof. unfold ChatDb.saveChatMessage. steps_auto. Qed.

Lemma saveChatMessage_keeps_completions (P : Platform) (user : option string)
      (captured : bool) (m : Message) :
  keeps completionCalls (ChatDb.saveChatMessage P user captured m).
Proof. unfold ChatDb.saveChatMessage. steps_auto. Qed.

Lemma updateDailyUsage_keeps_messages (P : Platform) (user : option string)
      (captured : bool) (n : Z) :
  keeps st_messages (ChatDb.updateDailyUsage P user captured n).
Proof. unfold ChatDb.updateDailyUsage, today. steps_auto. Qed.

Lemma updateDailyUsage_keeps_catalog (P : Platform) (user : option string)
      (captured : bool) (n : Z) :
  keeps catalogCalls (ChatDb.updateDailyUsage P user captured n).
Proof. unfold ChatDb.updateDailyUsage, today. steps_auto. Qed.

Lemma updateDailyUsage_keeps_completions (P : Platform) (user : option string)
      (captured : bool) (n : Z) :
  keeps completionCalls (ChatDb.updateDailyUsage P user captured n).
Proof. unfold ChatDb.updateDailyUsage, today. steps_auto. Qed.

Lemma shouldExtractBooks_keeps_messages (P : Platform) (text um : string) :
  keeps st_messages (shouldExtractBooks P text um).
Proof. unfold shouldExtractBooks. steps_auto. Qed.

Lemma shouldExtractBooks_keeps_catalog (P : Platform) (text um : string) :
  keeps catalogCalls (shouldExtractBooks P text um).
Proof. unfold shouldExtractBooks. steps_auto. Qed.

Lemma extractBooksWithGemini_keeps_messages (P : Platform) (text um : string) :
  keeps st_messages (extractBooksWithGemini P text um).
Proof. unfold extractBooksWithGemini. steps_auto. Qed.

Lemma extractBooksWithGemini_keeps_catalog (P : Platform) (text um : string) :
  keeps catalogCalls (extractBooksWithGemini P text um).
Proof. unfold extractBooksWithGemini. steps_auto. Qed.

Lemma tryStrategies_keeps_messages (P : Platform) (urls : list string) :
  keeps st_messages (tryStrategies P urls).
Proof. induction urls as [|url rest IH]; cbn [tryStrategies]; steps_auto. Qed.

#[local] Hint Resolve tryStrategies_keeps_messages : steps.

Lemma searchBooks_keeps_messages (P : Platform) (query : string) :
  keeps st_messages (searchBooksFromOpenLibrary P query).
Proof. unfold searchBooksFromOpenLibrary. steps_auto. Qed.

#[local] Hint Resolve searchBooks_keeps_messages : steps.

Lemma searchAll_keeps_messages (P : Platform) (queries : list string) :
  keeps st_messages (searchAll P queries).
Proof. induction queries as [|query rest IH]; cbn [searchAll]; steps_auto. Qed.

#[local] Hint Resolve saveChatMessage_keeps_messages saveChatMessage_keeps_catalog
  saveChatMessage_keeps_completions updateDailyUsage_keeps_messages
  updateDailyUsage_keeps_catalog updateDailyUsage_keeps_completions
  shouldExtractBooks_keeps_messages shouldExtractBooks_keeps_catalog
  extractBooksWithGemini_keeps_messages extractBooksWithGemini_keeps_catalog
  searchAll_keeps_messages : steps.

Lemma extract_keeps_messages (P : Platform) (text : string) (um : option string) :
  keeps st_messages (extractAndSearchBooks P text um).
Proof. unfold extractAndSearchBooks. steps_auto. Qed.

Lemma chatCall_keeps_messages (P : Platform) (messages : list Message) (um : string) :
  keeps st_messages (callGeminiAPI P messages um).
Proof. unfold callGeminiAPI. steps_auto. Qed.

Lemma chatCall_keeps_catalog (P : Platform) (messages : list Message) (um : string) :
  keeps catalogCalls (callGeminiAPI P messages um).
Proof. unfold callGeminiAPI. steps_auto. Qed.

Lemma chatCall_fst (P : Platform) (messages : list Message) (um : string) (w : World) :
  fst (callGeminiAPI P messages um w) =
  match fst (Gemini.callGeminiAPI P um (sliceLast 5 messages) w) with
  | Resolved response => response
  | Rejected message => fallbackResponse message
  end.
Proof.
unfold callGeminiAPI. rewrite run_bind.
destruct (fst (Gemini.callGeminiAPI P um _ w)); reflexivity.
Qed.

Lemma chatCall_completions (P : Platform) (messages : list Message) (um : string)
      (w : World) :
  completionCalls (snd (callGeminiAPI P messages um w)) =
  (completionCalls w + if apiKeyConfigured P then 1 else 0)%nat.
Proof.
unfold callGeminiAPI. rewrite run_bind.
destruct (fst (Gemini.callGeminiAPI P um _ w)); cbn [ret snd];
  apply geminiCall_completions.
Qed.


(** *** The shape of a turn *)

Lemma submits_guard (r : Render) :
  Spec.submits r ->
  negb (truthyS (trim (r_input r))) || negb (bool_decide (is_Some (r_user r)))
  || r_isLoading r = false /\ (DAILY_LIMIT <=? r_dailyUsage r) = false.
Proof.
intros (Hi & Hu & Hl & Hd). split; [| now apply Z.leb_gt].
rewrite Hl, (bool_decide_eq_true_2 _ Hu).
destruct (trim (r_input r)); [contradiction | reflexivity].
Qed.

(** A turn that starts appends the user's message and then the
assistant's, whose text is what the wrapper around the completion client
returned and whose books are what the extraction engine returned for
that text. *)
Lemma turn_shape (P : Platform) (r : Render) (w : World) :
  Spec.submits r ->
  let content := trim (r_input r) in
  let t := Date_now P (length (log w)) in
  let um := mkMessage ("user-" +:+ showZ t) RoleUser content None t in
  let wa := mkWorld (store w) (log w) (st_messages w ++ [um]) EmptyString true
                    (st_dailyUsage w) (st_isTableMissing w) in
  let wb := snd (ChatDb.saveChatMessage P (r_user r) (r_isTableMissing r) um wa) in
  let rc := callGeminiAPI P (r_messages r) content wb in
  let rd := extractAndSearchBooks P (fst rc) (Some content) (snd rc) in
  let t' := Date_now P (length (log (snd rd))) in
  let am := mkMessage ("assistant-" +:+ showZ t') RoleAssistant (fst rc)
                      (nonEmpty (fst rd)) t' in
  let w' := snd (handleSendMessage P r w) in
  st_messages w' = st_messages w ++ [um; am] /\
  catalogCalls w' = catalogCalls (snd rd) /\
  completionCalls w' = completionCalls (snd rd) /\
  completionCalls wb = completionCalls w /\
  catalogCalls wb = catalogCalls w.
Proof.
intros Hs content t um wa wb rc rd t' am w'.
destruct (submits_guard r Hs) as [G1 G2].
set (we := snd (setMessages (fun prev => prev ++ [am]) (snd rd))).
set (wf := snd (ChatDb.saveChatMessage P (r_user r) (r_isTableMissing r) am we)).
set (rg := ChatDb.updateDailyUsage P (r_user r) (r_isTableMissing r) (r_dailyUsage r) wf).
assert (Hw' : w' = snd (setIsLoading false (snd (setDailyUsage (fst rg) (snd rg))))).
{ subst w'. unfold handleSendMessage. rewrite G1, G2.
  rewrite !run_bind. reflexivity. }
assert (Hm : st_messages (snd rd) = st_messages w ++ [um]).
{ subst rd. rewrite (keeps_run st_messages) by apply extract_keeps_messages.
  subst rc. rewrite (keeps_run st_messages) by apply chatCall_keeps_messages.
  subst wb. rewrite (keeps_run st_messages) by apply saveChatMessage_keeps_messages.
  reflexivity. }
rewrite Hw'.
change (st_messages (snd rg) = st_messages w ++ [um; am] /\
        catalogCalls (snd rg) = catalogCalls (snd rd) /\
        completionCalls (snd rg) = completionCalls (snd rd) /\
        completionCalls wb = completionCalls w /\
        catalogCalls wb = catalogCalls w).
subst rg wf.
rewrite (keeps_run st_messages (ChatDb.updateDailyUsage _ _ _ _))
  by apply updateDailyUsage_keeps_messages.
rewrite (keeps_run st_messages (ChatDb.saveChatMessage _ _ _ _))
  by apply saveChatMessage_keeps_messages.
rewrite (keeps_run catalogCalls (ChatDb.updateDailyUsage _ _ _ _))
  by apply updateDailyUsage_keeps_catalog.
rewrite (keeps_run catalogCalls (ChatDb.saveChatMessage _ _ _ _))
  by apply saveChatMessage_keeps_catalog.
rewrite (keeps_run completionCalls (ChatDb.updateDailyUsage _ _ _ _))
  by apply updateDailyUsage_keeps_completions.
rewrite (keeps_run completionCalls (ChatDb.saveChatMessage _ _ _ _))
  by apply saveChatMessage_keeps_completions.
change (catalogCalls we) with (catalogCalls (snd rd)).
change (completionCalls we) with (completionCalls (snd rd)).
change (st_messages we) with (st_messages (snd rd) ++ [am]).
subst wb.
rewrite (keeps_run completionCalls (ChatDb.saveChatMessage _ _ _ _))
  by apply saveChatMessage_keeps_completions.
rewrite (keeps_run catalogCalls (ChatDb.saveChatMessage _ _ _ _))
  by apply saveChatMessage_keeps_catalog.
rewrite Hm, <- app_assoc.
repeat split.
Qed.


Lemma guard_submits (r : Render) :
  negb (truthyS (trim (r_input r))) || negb (bool_decide (is_Some (r_user r)))
  || r_isLoading r = false ->
  (DAILY_LIMIT <=? r_dailyUsage r) = false ->
  Spec.submits r.
Proof.
intros G1 G2. apply orb_false_iff in G1 as [G1 Hl].
apply orb_false_iff in G1 as [Hi Hu].
repeat split.
- intros E. rewrite E in Hi. discriminate.
- apply negb_false_iff in Hu. now apply bool_decide_eq_true in Hu.
- exact Hl.
- now apply Z.leb_gt.
Qed.

(** A submission that starts no turn leaves the transcript as it was. *)
Lemma not_submitted (P : Platform) (r : Render) (w : World) :
  ~ Spec.submits r ->
  st_messages (snd (handleSendMessage P r w)) = st_messages w.
Proof.
intros H. unfold handleSendMessage.
destruct (_ || _ || _) eqn:G1; [reflexivity |].
destruct (DAILY_LIMIT <=? r_dailyUsage r) eqn:G2; [reflexivity |].
exfalso. apply H. now apply guard_submits.
Qed.

Lemma submits_or_not (r : Render) : Spec.submits r \/ ~ Spec.submits r.
Proof.
destruct (negb (truthyS (trim (r_input r))) || negb (bool_decide (is_Some (r_user r)))
          || r_isLoading r) eqn:G1;
  [| destruct (DAILY_LIMIT <=? r_dailyUsage r) eqn:G2].
- right. intros Hs. destruct (submits_guard r Hs) as [G _]. congruence.
- right. intros Hs. destruct (submits_guard r Hs) as [_ G]. congruence.
- left. now apply guard_submits.
Qed.

(** The books of the messages a turn appends all have a cover. *)
Lemma appended_books_have_covers (P : Platform) (r : Render) (w : World)
      (m : Message) (bs : list Book) (b : Book) :
  m ∈ drop (length (st_messages w)) (st_messages (snd (handleSendMessage P r w))) ->
  msg_books m = Some bs -> b ∈ bs -> is_Some (book_cover b).
Proof.
destruct (submits_or_not r) as [Hs | Hs].
- destruct (turn_shape P r w Hs) as (-> & _).
  rewrite drop_app_length. intros Hm Hbs Hb.
  apply elem_of_cons in Hm as [-> | Hm]; [discriminate Hbs |].
  apply list_elem_of_singleton in Hm as ->. cbn [msg_books] in Hbs.
  unfold nonEmpty in Hbs.
  destruct (fst (extractAndSearchBooks P _ _ _)) as [|b0 l] eqn:E; [discriminate |].
  injection Hbs as <-. rewrite <- E in Hb. now apply extract_covers in Hb.
- rewrite (not_submitted P r w Hs), drop_all. intros Hm.
  now apply not_elem_of_nil in Hm.
Qed.

(** C10, the claim as stated, fails: a record whose first-publish year
reads 0 is more than ten years older than the current year, and the
search keeps it. *)
Lemma C10_year_zero_is_kept :
  let P := Examples.catalogOf [Examples.yearZeroDoc] in
  let w := Examples.freshWorld Examples.workingStore in
  doc_first_publish_year Examples.yearZeroDoc = Some 0 /\
  0 < getFullYear P (Date_now P (length (log w))) - 10 /\
  fst (searchBooksFromOpenLibrary P "Gilgamesh" w) = [toBook Examples.yearZeroDoc].
Proof. cbv zeta. split; [reflexivity | split; [reflexivity | vm_compute; reflexivity]]. Qed.

(** C10 (amended): every book the chat pipeline's catalog search returns
is made from a fetched record that has a cover id other than 0, a
first-publish year that is absent, 0, or not more than ten years before
the current year, and a title of more than two characters; every other
record is discarded. So every book of a search, of the extraction
engine, and of a message appended in a turn has a cover, and a search
whose hits all lack a cover id yields no book. *)
Theorem C10_catalog_filter (P : Platform) (query : string) (w : World) :
  let cy := getFullYear P (Date_now P (length (log w))) in
  let fetched := fst (tryStrategies P (searchStrategies P query cy) w) in
  let books := fst (searchBooksFromOpenLibrary P query w) in
  (exists kept, books = map toBook kept /\
                forall d, d ∈ kept -> d ∈ fetched /\ Spec.acceptable cy d) /\
  (forall b, b ∈ books -> is_Some (book_cover b)) /\
  ((forall d, d ∈ fetched -> doc_cover_i d = None) -> books = []) /\
  (forall text um w0 b,
      b ∈ fst (extractAndSearchBooks P text um w0) -> is_Some (book_cover b)) /\
  (forall user w0 m bs b,
      m ∈ drop (length (st_messages w0))
               (st_messages (snd (handleSendMessage P (render user w0) w0))) ->
      msg_books m = Some bs -> b ∈ bs -> is_Some (book_cover b)).
Proof.
intros cy fetched books.
split; [apply searchBooks_kept | split; [| split; [| split]]].
- intros b. apply searchBooks_covers.
- intros Hn. destruct (searchBooks_kept P query w) as (kept & E & Hk).
  fold books in E. rewrite E. destruct kept as [|d kept]; [reflexivity |].
  exfalso. destruct (Hk d) as [Hf ((n & Hc & _) & _)]; [left |].
  fold cy fetched in Hf. rewrite (Hn d Hf) in Hc. discriminate.
- intros text um w0 b. apply extract_covers.
- intros user w0 m bs b. apply appended_books_have_covers.
Qed.

Lemma C10_catalog_filter_witness :
  let P := Examples.catalogOf [Examples.coverlessDoc] in
  let w := Examples.freshWorld Examples.workingStore in
  fst (tryStrategies P (searchStrategies P "Dune" 2023) w) = [Examples.coverlessDoc] /\
  fst (searchBooksFromOpenLibrary P "Dune" w) = [].
Proof.
intros P w. split; [vm_compute; reflexivity |].
destruct (C10_catalog_filter P "Dune" w) as (_ & _ & H & _).
apply H. intros d Hd. apply list_elem_of_In in Hd. vm_compute in Hd.
destruct Hd as [<- | []]. reflexivity.
Defined.


(** *** A turn whose completion call fails *)

Lemma fallbackResponse_cases (message : string) :
  fallbackResponse message ∈
  [modelUpdated; apiKeyIssue; rateLimit; connectionIssue; serviceUnavailable].
Proof.
unfold fallbackResponse.
repeat (match goal with |- context [if ?b then _ else _] => destruct b end);
  apply list_elem_of_In; simpl; tauto.
Qed.

(** None of the fallback replies holds a candidate for the deterministic
layers. *)
Lemma fallback_no_candidates (message : string) :
  deterministicLayers (fallbackResponse message) [] = [].
Proof.
pose proof (fallbackResponse_cases message) as H.
apply list_elem_of_In in H. simpl in H.
repeat (destruct H as [<- | H]; [vm_compute; reflexivity |]). destruct H.
Qed.

Lemma modelDown_rejects (P : Platform) (message : string) (history : list Message)
      (w : World) :
  Spec.modelDown P -> exists e, fst (Gemini.callGeminiAPI P message history w) = Rejected e.
Proof.
intros [H | H]; rewrite geminiCall_fst.
- rewrite H. eexists. reflexivity.
- destruct (negb (apiKeyConfigured P)); [eexists; reflexivity |].
  destruct (H (completionCalls w) (Gemini.prompt (Gemini.context history) message))
    as [m ->].
  eexists. reflexivity.
Qed.

Lemma extractBooksWithGemini_down (P : Platform) (text um : string) (w : World) :
  Spec.modelDown P -> fst (extractBooksWithGemini P text um w) = [].
Proof.
intros H. unfold extractBooksWithGemini. rewrite run_bind.
destruct (modelDown_rejects P (extractionPrompt um text) [] w H) as [e ->].
reflexivity.
Qed.

(** With the model down, the extraction engine finds nothing in a
fallback reply and makes no catalog call. *)
Lemma extract_fallback_down (P : Platform) (message : string) (um : option string)
      (w : World) :
  Spec.modelDown P ->
  let r := extractAndSearchBooks P (fallbackResponse message) um w in
  fst r = [] /\ catalogCalls (snd r) = catalogCalls w.
Proof.
intros H r. subst r. unfold extractAndSearchBooks. rewrite run_bind.
destruct (negb _).
- cbn [ret fst snd]. split; [reflexivity |].
  apply (keeps_run catalogCalls), shouldExtractBooks_keeps_catalog.
- rewrite run_bind, extractBooksWithGemini_down by exact H.
  cbn [foldl]. rewrite fallback_no_candidates. cbn [sliceTo take searchAll].
  rewrite run_bind. cbn [ret fst snd concat]. split; [reflexivity |].
  rewrite (keeps_run catalogCalls (extractBooksWithGemini _ _ _))
    by apply extractBooksWithGemini_keeps_catalog.
  apply (keeps_run catalogCalls), shouldExtractBooks_keeps_catalog.
Qed.

Lemma tryStrategies_keeps_completions (P : Platform) (urls : list string) :
  keeps completionCalls (tryStrategies P urls).
Proof. induction urls as [|url rest IH]; cbn [tryStrategies]; steps_auto. Qed.

#[local] Hint Resolve tryStrategies_keeps_completions : steps.

Lemma searchBooks_keeps_completions (P : Platform) (query : string) :
  keeps completionCalls (searchBooksFromOpenLibrary P query).
Proof. unfold searchBooksFromOpenLibrary. steps_auto. Qed.

#[local] Hint Resolve searchBooks_keeps_completions : steps.

Lemma searchAll_keeps_completions (P : Platform) (queries : list string) :
  keeps completionCalls (searchAll P queries).
Proof. induction queries as [|query rest IH]; cbn [searchAll]; steps_auto. Qed.

Lemma extractBooksWithGemini_completions (P : Platform) (text um : string) (w : World) :
  completionCalls (snd (extractBooksWithGemini P text um w)) =
  (completionCalls w + if apiKeyConfigured P then 1 else 0)%nat.
Proof.
unfold extractBooksWithGemini. rewrite run_bind.
pose proof (geminiCall_completions P (extractionPrompt um text) [] w) as Hd.
destruct (fst (Gemini.callGeminiAPI P _ _ w));
  [destruct (JSON_parse_strings P _) |]; exact Hd.
Qed.

(** The extraction engine always attempts the classifier call of the
relevance gate: with a configured client, it makes at least one
completion call. *)
Lemma extract_calls_classifier (P : Platform) (text : string) (um : option string)
      (w : World) :
  (completionCalls w + (if apiKeyConfigured P then 1 else 0)
   <= completionCalls (snd (extractAndSearchBooks P text um w)))%nat.
Proof.
unfold extractAndSearchBooks. rewrite run_bind.
pose proof (geminiCall_completions P
              (analysisPrompt (orElse um EmptyString) text) [] w) as Hc.
rewrite <- shouldExtractBooks_snd in Hc.
destruct (negb _); [cbn [ret snd]; lia |].
rewrite !run_bind. cbn [ret snd].
rewrite (keeps_run completionCalls (searchAll _ _)) by apply searchAll_keeps_completions.
rewrite extractBooksWithGemini_completions. lia.
Qed.

(** C1, the code at the failing input: the completion call of the turn
fails (quota), the reply is the rate-limit fallback, and the extraction
engine is run on it all the same: the relevance classifier and the
extraction call are made (three completion calls in all), the catalog is
searched once, and the fallback message carries a book card. The
handler's own failure path (an apology, no books, no extraction) is never
taken, since the wrapper around the client returns the fallback text
instead of failing. *)
Lemma C1_fallback_turn_runs_extraction :
  let P := Examples.flakyPlatform in
  let w := Examples.freshWorld Examples.workingStore in
  let w' := snd (handleSendMessage P (render (Some "alice") w) w) in
  (exists e, fst (Gemini.callGeminiAPI P (trim (st_input w))
                                       (sliceLast 5 (st_messages w)) w) = Rejected e) /\
  completionCalls w' = 3%nat /\
  catalogCalls w' = 1%nat /\
  exists um am b,
    st_messages w' = [um; am] /\ msg_role am = RoleAssistant /\
    msg_content am = rateLimit /\ msg_books am = Some [b] /\ book_title b = "Dune".
Proof.
cbv zeta. split; [eexists; vm_compute; reflexivity |].
split; [vm_compute; reflexivity |].
split; [vm_compute; reflexivity |].
do 3 eexists. vm_compute. repeat split.
Qed.


(** What a turn whose completion call fails does: the controller
appends the user's message and an assistant message whose text is the
typed fallback reply chosen from the failure; the extraction engine is run
on the fallback reply and the user's message as on any reply (with a
configured client the classifier call of the relevance gate is attempted,
so the turn makes at least two completion calls), and the message carries
the books the engine returns, if any. The fallback replies hold no
candidate themselves: when the other completion calls of the turn fail as
well, the message carries no book card and no catalog call is made. *)
Theorem failed_completion_turn (P : Platform) (user : string) (w : World)
        (e : string) :
  let r := render (Some user) w in
  let content := trim (st_input w) in
  Spec.submits r ->
  fst (Gemini.callGeminiAPI P content (sliceLast 5 (st_messages w)) w) = Rejected e ->
  let w' := snd (handleSendMessage P r w) in
  exists um am w2,
    st_messages w' = st_messages w ++ [um; am] /\
    msg_role um = RoleUser /\ msg_content um = content /\
    msg_role am = RoleAssistant /\ msg_content am = fallbackResponse e /\
    msg_books am
    = nonEmpty (fst (extractAndSearchBooks P (fallbackResponse e) (Some content) w2)) /\
    catalogCalls w2 = catalogCalls w /\
    catalogCalls w'
    = catalogCalls (snd (extractAndSearchBooks P (fallbackResponse e) (Some content) w2)) /\
    (apiKeyConfigured P = true -> (completionCalls w + 2 <= completionCalls w')%nat) /\
    (Spec.modelDown P -> msg_books am = None /\ catalogCalls w' = catalogCalls w).
Proof.
intros r content Hs He w'.
pose proof (turn_shape P r w Hs) as H. cbv zeta in H.
change (r_input r) with (st_input w) in H.
change (r_messages r) with (st_messages w) in H.
fold content in H. fold w' in H.
set (t := Date_now P (length (log w))) in *.
set (um := mkMessage ("user-" +:+ showZ t) RoleUser content None t) in *.
set (wb := snd (ChatDb.saveChatMessage P (r_user r) (r_isTableMissing r) um _)) in *.
set (rc := callGeminiAPI P (st_messages w) content wb) in *.
destruct H as (Hm & Hcat & Hcomp & Hcb & Hcatb).
assert (Hrc : fst rc = fallbackResponse e).
{ subst rc. rewrite chatCall_fst.
  rewrite (geminiCall_fst_ext P content _ wb w Hcb), He. reflexivity. }
assert (Hcat2 : catalogCalls (snd rc) = catalogCalls w).
{ subst rc. rewrite (keeps_run catalogCalls) by apply chatCall_keeps_catalog.
  exact Hcatb. }
rewrite Hrc in Hm, Hcat, Hcomp.
eexists um, _, (snd rc).
split; [exact Hm |].
split; [reflexivity |]. split; [reflexivity |].
split; [reflexivity |]. split; [reflexivity |].
split; [reflexivity |].
split; [exact Hcat2 |]. split; [exact Hcat |]. split.
- intros Hk. rewrite Hcomp.
  pose proof (extract_calls_classifier P (fallbackResponse e) (Some content) (snd rc))
    as Hx.
  pose proof (chatCall_completions P (st_messages w) content wb) as Hy.
  fold rc in Hy. rewrite Hk in Hx, Hy. lia.
- intros Hd.
  destruct (extract_fallback_down P e (Some content) (snd rc) Hd) as [Hb Hc].
  cbn [msg_books]. rewrite Hb. split; [reflexivity |].
  rewrite Hcat, Hc. exact Hcat2.
Qed.

Lemma failed_completion_turn_example :
  let P := Examples.quietPlatform in
  let w := Examples.freshWorld Examples.workingStore in
  let w' := snd (handleSendMessage P (render (Some "alice") w) w) in
  exists um am,
    st_messages w' = [um; am] /\
    msg_content am = serviceUnavailable /\
    msg_books am = None /\
    catalogCalls w' = 0%nat /\
    (2 <= completionCalls w')%nat.
Proof.
intros P w w'.
assert (Hs : Spec.submits (render (Some "alice") w)).
{ repeat split; [vm_compute; discriminate | eexists; reflexivity]. }
destruct (failed_completion_turn P "alice" w
            "Failed to get response from AI assistant" Hs eq_refl)
  as (um & am & w2 & Hm & _ & _ & _ & Hc & _ & _ & _ & Hn & Hd).
destruct Hd as [Hb Hk]; [right; intros n p; eexists; reflexivity |].
exists um, am. split; [exact Hm |].
split; [rewrite Hc; vm_compute; reflexivity |].
split; [exact Hb |]. split; [exact Hk |].
apply (Hn eq_refl).
Defined.


(** *** Cost of one extraction, and the shape of the candidate set *)

Lemma tryStrategies_catalog_bound (P : Platform) (urls : list string) (w : World) :
  (catalogCalls (snd (tryStrategies P urls w)) <= catalogCalls w + length urls)%nat.
Proof.
revert w. induction urls as [|url rest IH]; intros w; cbn [tryStrategies].
- cbn. lia.
- rewrite run_bind. pose proof (emit_catalogCalls (EvCatalog url) w) as He.
  cbn [isCatalog] in He.
  destruct (fetchDocs P url) as [[|d ds]|]; cbn [ret snd length];
    try (specialize (IH (snd (emit (EvCatalog url) w)))); lia.
Qed.

Lemma searchBooks_catalog_bound (P : Platform) (query : string) (w : World) :
  (catalogCalls (snd (searchBooksFromOpenLibrary P query w)) <= catalogCalls w + 3)%nat.
Proof.
unfold searchBooksFromOpenLibrary. rewrite !run_bind. cbn [ret snd now fst].
apply (tryStrategies_catalog_bound P (searchStrategies P query _) w).
Qed.

Lemma searchAll_catalog_bound (P : Platform) (queries : list string) (w : World) :
  (catalogCalls (snd (searchAll P queries w)) <= catalogCalls w + 3 * length queries)%nat.
Proof.
revert w. induction queries as [|query rest IH]; intros w; cbn [searchAll].
- cbn. lia.
- rewrite !run_bind. cbn [ret snd length].
  pose proof (searchBooks_catalog_bound P query w) as H1.
  specialize (IH (snd (searchBooksFromOpenLibrary P query w))). lia.
Qed.

(** One run of the extraction engine makes at most two completion calls
(the classifier and the extraction call) and at most nine catalog
fetches (three candidates, three search strategies each). *)
Theorem extraction_cost_bound (P : Platform) (text : string) (um : option string)
        (w : World) :
  let w' := snd (extractAndSearchBooks P text um w) in
  (completionCalls w' <= completionCalls w + 2)%nat /\
  (catalogCalls w' <= catalogCalls w + 9)%nat.
Proof.
intros w'. subst w'. unfold extractAndSearchBooks. rewrite run_bind.
pose proof (geminiCall_completions P
              (analysisPrompt (orElse um EmptyString) text) [] w) as Hc.
rewrite <- shouldExtractBooks_snd in Hc.
pose proof (keeps_run catalogCalls _ w
              (shouldExtractBooks_keeps_catalog P text (orElse um EmptyString))) as Hk.
destruct (negb _).
- cbn [ret snd]. destruct (apiKeyConfigured P); lia.
- rewrite !run_bind. cbn [ret snd].
  rewrite (keeps_run completionCalls (searchAll _ _)) by apply searchAll_keeps_completions.
  rewrite extractBooksWithGemini_completions.
  split; [destruct (apiKeyConfigured P); lia |].
  match goal with
  | |- context [searchAll P ?qs ?w0] =>
      pose proof (searchAll_catalog_bound P qs w0) as Hs;
      assert (Hl : (length qs <= 3)%nat)
        by (unfold sliceTo; rewrite length_take; lia)
  end.
  rewrite (keeps_run catalogCalls (extractBooksWithGemini _ _ _))
    in Hs by apply extractBooksWithGemini_keeps_catalog.
  lia.
Qed.

Lemma setAdd_NoDup (x : string) (s : list string) : NoDup s -> NoDup (setAdd x s).
Proof.
intros H. unfold setAdd. destruct (bool_decide (x ∈ s)) eqn:E; [exact H |].
apply bool_decide_eq_false in E. apply NoDup_app. repeat split.
- exact H.
- intros y Hy Hx. apply list_elem_of_singleton in Hx as ->. contradiction.
- apply NoDup_singleton.
Qed.

Lemma foldl_NoDup {A} (f : list string -> A -> list string) (l : list A)
      (s : list string) :
  (forall s a, NoDup s -> NoDup (f s a)) -> NoDup s -> NoDup (foldl f s l).
Proof.
intros Hf. revert s. induction l as [|a l IH]; intros s Hs; [exact Hs |].
cbn [foldl]. apply IH, Hf, Hs.
Qed.

(** The candidate set is a set: the deterministic layers never add a
string twice, and the quoted-text layer adds nothing once five candidates
are there. *)
Theorem candidates_form_a_set (text : string) (found : list string) :
  NoDup found ->
  NoDup (deterministicLayers text found) /\
  (length (quotedLayer text found) <= Nat.max 5 (length found))%nat.
Proof.
intros H. split.
- unfold deterministicLayers, quotedLayer, keywordLayer, patternLayer.
  apply foldl_NoDup.
  { intros s g Hs. unfold addQuoted. destruct (_ && _); [now apply setAdd_NoDup | exact Hs]. }
  apply foldl_NoDup.
  { intros s m Hs. unfold addCommon. destruct (existsb _ _); [now apply setAdd_NoDup | exact Hs]. }
  apply foldl_NoDup; [| exact H].
  intros s m Hs. unfold addPattern1. destruct (_ && _); [now apply setAdd_NoDup | exact Hs].
- unfold quotedLayer. clear H. revert found.
  induction (execAll matchQuoted 0 text) as [|g gs IH]; intros found; cbn [foldl]; [lia |].
  etransitivity; [apply IH |].
  unfold addQuoted.
  destruct (truthyS (trim g) && _ && _ && _ && _) eqn:E1; cbn [andb]; [| lia].
  destruct (length found <? 5)%nat eqn:E2; [| lia].
  apply Nat.ltb_lt in E2. unfold setAdd.
  destruct (bool_decide _); [lia |]. rewrite length_app. cbn. lia.
Qed.

(** For a reply that recommends Atomic Habits in the bold quoted-title
format, the deterministic layers alone yield the candidate made of title
and author, and then the quoted title. *)
Example pattern_layer_atomic_habits :
  deterministicLayers
    ("Try **" +:+ Gemini.q "Atomic Habits" +:+ " by James Clear**: small steps.") []
  = ["Atomic Habits James Clear"; "Atomic Habits"].
Proof. vm_compute. reflexivity. Qed.

Lemma candidates_form_a_set_witness :
  let text := "Try **" +:+ Gemini.q "Atomic Habits" +:+ " by James Clear**: small steps." in
  NoDup (deterministicLayers text []) /\
  (length (quotedLayer text []) <= 5)%nat.
Proof.
intros text. apply (candidates_form_a_set text []). constructor.
Defined.

End ChatbotFacts.

(** ** Degradation of the store, seen from the whole component *)

Module DegradationFacts.
Import Js Chatbot.

Lemma geminiCall_flagStays (P : Platform) (message : string) (history : list Message) :
  steps flagStays (Gemini.callGeminiAPI P message history).
Proof.
intros w H.
now destruct (ChatbotFacts.geminiCall_log P message history w) as (_ & _ & -> & _).
Qed.

#[local] Hint Resolve geminiCall_flagStays : steps.

Lemma tryStrategies_flagStays (P : Platform) (urls : list string) :
  steps flagStays (tryStrategies P urls).
Proof. induction urls as [|url rest IH]; cbn [tryStrategies]; steps_auto. Qed.

#[local] Hint Resolve tryStrategies_flagStays : steps.

Lemma searchBooks_flagStays (P : Platform) (query : string) :
  steps flagStays (searchBooksFromOpenLibrary P query).
Proof. unfold searchBooksFromOpenLibrary. steps_auto. Qed.

#[local] Hint Resolve searchBooks_flagStays : steps.

Lemma searchAll_flagStays (P : Platform) (queries : list string) :
  steps flagStays (searchAll P queries).
Proof. induction queries as [|query rest IH]; cbn [searchAll]; steps_auto. Qed.

#[local] Hint Resolve searchAll_flagStays : steps.

Lemma extract_flagStays (P : Platform) (text : string) (um : option string) :
  steps flagStays (extractAndSearchBooks P text um).
Proof.
unfold extractAndSearchBooks, shouldExtractBooks, extractBooksWithGemini. steps_auto.
Qed.

Lemma hook_flagStays (P : Platform) (user : option string) (captured : bool) :
  steps flagStays (ChatDb.checkDailyUsage P user captured) /\
  (forall n, steps flagStays (ChatDb.updateDailyUsage P user captured n)) /\
  steps flagStays (ChatDb.loadChatHistory P user captured) /\
  (forall m, steps flagStays (ChatDb.saveChatMessage P user captured m)).
Proof.
repeat split; intros;
  unfold ChatDb.checkDailyUsage, ChatDb.updateDailyUsage, ChatDb.loadChatHistory,
    ChatDb.saveChatMessage, today; steps_auto.
Qed.

Lemma handleSendMessage_flagStays (P : Platform) (r : Render) :
  steps flagStays (handleSendMessage P r).
Proof.
destruct (hook_flagStays P (r_user r) (r_isTableMissing r)) as (_ & Hu & _ & Hs).
pose proof (extract_flagStays P) as He.
unfold handleSendMessage, callGeminiAPI. steps_auto.
Qed.

Lemma initializeChat_flagStays (P : Platform) (r : Render) :
  steps flagStays (initializeChat P r).
Proof.
destruct (hook_flagStays P (r_user r) (r_isTableMissing r)) as (Hc & _ & Hl & _).
unfold initializeChat. steps_auto.
Qed.

(** *** What the handlers of a render that captured the flag do to the store *)

(** The store, the number of round trips made to it, and the flag. *)
Definition storeSide (w : World) : Supabase.Store * nat * bool :=
  (store w, storeCalls w, st_isTableMissing w).

Lemma emit_storeSide (e : Event) :
  isStore e = false -> keeps storeSide (emit e).
Proof.
intros H w. unfold sameOn, storeSide. rewrite emit_storeCalls, H.
cbn [emit snd store st_isTableMissing]. now rewrite Nat.add_0_r.
Qed.

Lemma geminiCall_storeSide (P : Platform) (message : string) (history : list Message) :
  keeps storeSide (Gemini.callGeminiAPI P message history).
Proof.
intros w. unfold sameOn, Gemini.callGeminiAPI.
destruct (apiKeyConfigured P); cbn [negb]; [| reflexivity].
rewrite run_bind.
pose proof (emit_storeSide
              (EvCompletion (Gemini.prompt (Gemini.context history) message))
              eq_refl w) as H.
destruct (generateContent P _ _); exact H.
Qed.

Lemma tryStrategies_storeSide (P : Platform) (urls : list string) :
  keeps storeSide (tryStrategies P urls).
Proof.
induction urls as [|u urls IH]; cbn [tryStrategies]; [apply keeps_ret |].
apply keeps_bind; [now apply emit_storeSide | intros _].
destruct (fetchDocs P u) as [[|]|]; first [exact IH | apply keeps_ret].
Qed.

Lemma searchBooks_storeSide (P : Platform) (query : string) :
  keeps storeSide (searchBooksFromOpenLibrary P query).
Proof.
unfold searchBooksFromOpenLibrary.
apply keeps_bind; [intros w; reflexivity | intros t].
apply keeps_bind; [apply tryStrategies_storeSide | intros docs]. apply keeps_ret.
Qed.

Lemma searchAll_storeSide (P : Platform) (queries : list string) :
  keeps storeSide (searchAll P queries).
Proof.
induction queries as [|x queries IH]; cbn [searchAll]; [apply keeps_ret |].
apply keeps_bind; [apply searchBooks_storeSide | intros b].
apply keeps_bind; [exact IH | intros o]. apply keeps_ret.
Qed.

Lemma extract_storeSide (P : Platform) (text : string) (um : option string) :
  keeps storeSide (extractAndSearchBooks P text um).
Proof.
unfold extractAndSearchBooks, shouldExtractBooks, extractBooksWithGemini.
apply keeps_bind.
- apply keeps_bind; [apply geminiCall_storeSide | intros [r|e]; apply keeps_ret].
- intros b. destruct (negb b); [apply keeps_ret |].
  apply keeps_bind.
  + apply keeps_bind; [apply geminiCall_storeSide | intros [r|e]; [| apply keeps_ret]].
    destruct (JSON_parse_strings P (trim r)); apply keeps_ret.
  + intros c. apply keeps_bind; [apply searchAll_storeSide | intros rs; apply keeps_ret].
Qed.

Lemma chatCall_storeSide (P : Platform) (messages : list Message) (um : string) :
  keeps storeSide (callGeminiAPI P messages um).
Proof.
unfold callGeminiAPI.
apply keeps_bind; [apply geminiCall_storeSide | intros [r|e]; apply keeps_ret].
Qed.

(** The hook's operations, through closures that captured the flag. *)
Lemma flagged_hook (P : Platform) (user : option string) :
  ChatDb.checkDailyUsage P user true = ret 0 /\
  (forall n, ChatDb.updateDailyUsage P user true n = ret n) /\
  ChatDb.loadChatHistory P user true = ret [] /\
  (forall m, ChatDb.saveChatMessage P user true m = ret tt).
Proof. destruct user; repeat split. Qed.

(** A submission handled by a render that captured the flag makes no
round trip to the store and leaves store and flag as they were. *)
Lemma flagged_handleSendMessage (P : Platform) (r : Render) :
  r_isTableMissing r = true -> keeps storeSide (handleSendMessage P r).
Proof.
intros Hf. destruct (flagged_hook P (r_user r)) as (_ & Hu & _ & Hs).
unfold handleSendMessage. rewrite Hf.
destruct (_ || _ || _); [apply keeps_ret |].
destruct (DAILY_LIMIT <=? r_dailyUsage r); [now apply emit_storeSide |].
apply keeps_bind; [intros w; reflexivity | intros t].
apply keeps_bind; [intros w; reflexivity | intros _].
apply keeps_bind; [intros w; reflexivity | intros _].
apply keeps_bind; [intros w; reflexivity | intros _].
rewrite Hs. apply keeps_bind; [apply keeps_ret | intros _].
apply keeps_bind; [apply chatCall_storeSide | intros response].
apply keeps_bind; [apply extract_storeSide | intros books].
apply keeps_bind; [intros w; reflexivity | intros t'].
apply keeps_bind; [intros w; reflexivity | intros _].
rewrite Hs. apply keeps_bind; [apply keeps_ret | intros _].
rewrite Hu. apply keeps_bind; [apply keeps_ret | intros newUsage].
apply keeps_bind; [intros w; reflexivity | intros _].
intros w; reflexivity.
Qed.

(** So does an opening of the chat by such a render. *)
Lemma flagged_initializeChat (P : Platform) (r : Render) :
  r_isTableMissing r = true -> keeps storeSide (initializeChat P r).
Proof.
intros Hf. destruct (flagged_hook P (r_user r)) as (Hc & _ & Hl & _).
unfold initializeChat. rewrite Hf, Hc, Hl.
intros w. reflexivity.
Qed.

(** Once the flag is set, whatever the user does next with the chat
starts from a render that captured it. *)
Lemma flagged_act (P : Platform) (user : option string) (a : Conversation.Action)
      (w : World) :
  st_isTableMissing w = true ->
  storeSide (snd (Conversation.act P user a w)) = storeSide w.
Proof.
intros Hf. destruct a as [|text]; cbn [Conversation.act].
- unfold Conversation.openChat. destruct (bool_decide (is_Some user)); [| reflexivity].
  apply (flagged_initializeChat P (render user w)). exact Hf.
- unfold Conversation.submit. rewrite run_bind. cbn [setInput snd fst].
  set (w1 := mkWorld _ _ _ _ _ _ _).
  change (storeSide w) with (storeSide w1).
  apply (flagged_handleSendMessage P (render user w1)). exact Hf.
Qed.

Lemma flagged_actAll (P : Platform) (user : option string)
      (acts : list Conversation.Action) (w : World) :
  st_isTableMissing w = true ->
  storeSide (snd (Conversation.actAll P user acts w)) = storeSide w.
Proof.
revert w. induction acts as [|a acts IH]; intros w Hf; [reflexivity |].
cbn [Conversation.actAll]. rewrite run_bind.
pose proof (flagged_act P user a w Hf) as Ha.
rewrite IH; [exact Ha |].
unfold storeSide in Ha. injection Ha as _ _ Ha. now rewrite Ha.
Qed.




End DegradationFacts.

(** ** The bold quoted-title layer, for any reply *)

Module PatternFacts.
Import Js JsFacts Chatbot Notions.
Import Gemini(dq, q).

Lemma span_app (p : ascii -> bool) (a b : string) :
  everyChar p a = true -> stopsAt p b -> span p (a +:+ b) = (a, b).
Proof.
induction a as [|c a IH]; intros Ha Hb; sapp; simpl.
- destruct b; [reflexivity | simpl in *; rewrite Hb; reflexivity].
- simpl in Ha. apply andb_true_iff in Ha as [-> Ha]. rewrite IH; auto.
Qed.

Lemma startsWith_app (p s : string) : startsWith (p +:+ s) p = true.
Proof.
induction p as [|c p IH]; sapp; simpl; [reflexivity |].
rewrite Ascii.eqb_refl. exact IH.
Qed.

Lemma dropStr_app (p s : string) : dropStr (String.length p) (p +:+ s) = s.
Proof. induction p as [|c p IH]; sapp; simpl; auto. Qed.

Lemma stripPrefix_app (p s : string) : stripPrefix p (p +:+ s) = Some s.
Proof. unfold stripPrefix. rewrite startsWith_app, dropStr_app. reflexivity. Qed.

(** At the head of the bold quoted-title format the pattern matches, and
its groups are the title and the author as written. *)
Lemma matchPattern1_bold (title author suf : string) :
  everyChar (notChar dquote) title = true ->
  title <> EmptyString ->
  stopsAt isSpace author -> author <> EmptyString ->
  everyChar (notChar star) author = true ->
  exists n,
    matchPattern1 ("**" +:+ q title +:+ " by " +:+ author +:+ "**" +:+ suf)
    = Some (title, author, n).
Proof.
intros Ht Hne Hc Hane Hs.
assert (E : "**" +:+ q title +:+ " by " +:+ author +:+ "**" +:+ suf
          = ("**" +:+ dq) +:+ (title +:+ (dq +:+ (" " +:+
              String "b" (String "y" ((" " +:+ author) +:+ String "*" (String "*" suf))))))).
{ unfold q, dq, str1. repeat (sapp; rewrite ?append_assoc). reflexivity. }
rewrite E. unfold matchPattern1. rewrite stripPrefix_app.
rewrite span_app by (auto; reflexivity).
destruct title as [|t0 title]; [congruence |].
rewrite stripPrefix_app.
rewrite span_app by reflexivity.
change ((lowerChar "b" =? "b")%char && (lowerChar "y" =? "y")%char) with true.
cbv iota.
rewrite (span_app _ (" " +:+ author)) by (sapp; simpl; auto).
rewrite (span_app _ " " author) by (auto; reflexivity).
destruct author as [|a0 author]; [congruence |].
eexists. reflexivity.
Qed.

Section Grow.
Context {A : Type} (f : list string -> A -> list string).
Hypothesis f_grows : forall s a, exists r, f s a = s ++ r.

Lemma foldl_grows (l : list A) (s : list string) : exists r, foldl f s l = s ++ r.
Proof.
revert s. induction l as [|a l IH]; intros s; simpl.
- exists []. by rewrite app_nil_r.
- destruct (f_grows s a) as [r ->]. destruct (IH (s ++ r)) as [r' ->].
  exists (r ++ r'). by rewrite app_assoc.
Qed.
End Grow.

Lemma setAdd_grows (x : string) (s : list string) : exists r, setAdd x s = s ++ r.
Proof.
unfold setAdd. case_bool_decide; [exists []; by rewrite app_nil_r | by exists [x]].
Qed.

Lemma addPattern1_grows (s : list string) (m : string * string) :
  exists r, addPattern1 s m = s ++ r.
Proof.
unfold addPattern1.
destruct (_ && _); [apply setAdd_grows | exists []; by rewrite app_nil_r].
Qed.

Lemma addCommon_grows (text : string) (s : list string) (m : list string * string) :
  exists r, addCommon text s m = s ++ r.
Proof.
unfold addCommon.
destruct (existsb _ _); [apply setAdd_grows | exists []; by rewrite app_nil_r].
Qed.

Lemma addQuoted_grows (s : list string) (g : string) : exists r, addQuoted s g = s ++ r.
Proof.
unfold addQuoted.
destruct (_ && _); [apply setAdd_grows | exists []; by rewrite app_nil_r].
Qed.

(** The pattern can only match where the text has a star. *)
Lemma matchPattern1_head (c : ascii) (s : string) :
  matchPattern1 (String c s) <> None -> c = star.
Proof.
unfold matchPattern1, stripPrefix, dq, str1. sapp. cbn [startsWith].
destruct (Ascii.eqb_spec "*" c); [auto | congruence].
Qed.

Definition attempt1 (s : string) : option ((string * string) * nat) :=
  match matchPattern1 s with
  | Some (t, a, n) => Some ((t, a), n)
  | None => None
  end.

Lemma execAll_pattern_prefix (pre rest : string) :
  everyChar (notChar star) pre = true ->
  execAll attempt1 0 (pre +:+ rest) = execAll attempt1 0 rest.
Proof.
induction pre as [|c pre IH]; intros H; sapp; [reflexivity |].
simpl in H. apply andb_true_iff in H as [Hc H].
cbn [execAll]. unfold attempt1 at 1.
destruct (matchPattern1 (String c (pre +:+ rest))) as [[[t a] n]|] eqn:E.
- assert (c = star) as -> by (apply (matchPattern1_head _ (pre +:+ rest)); congruence).
  discriminate Hc.
- auto.
Qed.

(** The later layers only add to what the pattern layer found. *)
Lemma deterministicLayers_grows (text : string) (found : list string) :
  exists r, deterministicLayers text found = patternLayer text found ++ r.
Proof.
unfold deterministicLayers, quotedLayer, keywordLayer.
destruct (foldl_grows (addCommon text) (addCommon_grows text) commonBooks
                      (patternLayer text found)) as [r1 ->].
destruct (foldl_grows addQuoted addQuoted_grows (execAll matchQuoted 0 text)
                      (patternLayer text found ++ r1)) as [r2 ->].
exists (r1 ++ r2). by rewrite app_assoc.
Qed.

(** Whatever the reply, a recommendation written in the format the prompt
asks for is found: when the text before it has no star, the title (more
than two characters once trimmed, no quote in it) and the author (not
empty, no star, not starting with white space) give the candidate made of
the trimmed title, a space and the trimmed author; it is added to the
candidates found so far right after them, before anything the later layers
add. *)
Theorem bold_title_is_a_candidate (pre title author suf : string) (found : list string) :
  everyChar (notChar star) pre = true ->
  everyChar (notChar dquote) title = true ->
  (2 < String.length (trim title))%nat ->
  everyChar (notChar star) author = true ->
  author <> EmptyString ->
  stopsAt isSpace author ->
  exists rest,
    deterministicLayers
      (pre +:+ "**" +:+ q title +:+ " by " +:+ author +:+ "**" +:+ suf) found
    = setAdd (trim title +:+ " " +:+ trim author) found ++ rest.
Proof.
intros Hpre Ht Hlen Ha Hane Hsp.
set (text := pre +:+ _).
destruct (deterministicLayers_grows text found) as [r ->].
unfold patternLayer. fold attempt1. unfold text.
rewrite execAll_pattern_prefix by assumption.
assert (Htne : title <> EmptyString) by (intros ->; simpl in Hlen; lia).
destruct (matchPattern1_bold title author suf Ht Htne Hsp Hane Ha) as [n Hm].
remember ("**" +:+ q title +:+ " by " +:+ author +:+ "**" +:+ suf) as body eqn:Hb.
assert (exists b0 body', body = String b0 body') as (b0 & body' & Hbody).
{ subst body. sapp. eauto. }
rewrite Hbody in *. cbn [execAll]. unfold attempt1 at 1. rewrite Hm. cbn [foldl].
destruct (foldl_grows addPattern1 addPattern1_grows (execAll attempt1 (n - 1) body')
                      (addPattern1 found (title, author))) as [r1 ->].
exists (r1 ++ r). rewrite <- app_assoc. f_equal.
unfold addPattern1. cbn [fst snd].
replace (truthyS (trim title)) with true.
2:{ destruct (trim title); [simpl in Hlen; lia | reflexivity]. }
apply Nat.ltb_lt in Hlen. rewrite Hlen. reflexivity.
Qed.

Lemma bold_title_is_a_candidate_witness :
  exists rest,
    deterministicLayers
      ("Try " +:+ "**" +:+ q "Atomic Habits" +:+ " by " +:+ "James Clear" +:+ "**"
       +:+ ": small steps.") []
    = setAdd (trim "Atomic Habits" +:+ " " +:+ trim "James Clear") [] ++ rest.
Proof.
apply (bold_title_is_a_candidate "Try " "Atomic Habits" "James Clear" ": small steps." []).
- reflexivity.
- reflexivity.
- vm_compute. lia.
- reflexivity.
- discriminate.
- reflexivity.
Defined.

End PatternFacts.

(** ** Saving a message and reading the history back *)

Module HistoryFacts.
Import Js JsFacts Supabase ChatDb.

Lemma insertBy_snoc {A} (le : A -> A -> bool) (y x : A) (s : list A) :
  le y x = true -> insertBy le y (s ++ [x]) = insertBy le y s ++ [x].
Proof.
intros H. induction s as [|z s IH]; simpl.
- now rewrite H.
- destruct (le y z); [reflexivity | now rewrite IH].
Qed.

(** An element that nothing is above stays last. *)
Lemma sortBy_snoc {A} (le : A -> A -> bool) (x : A) (l : list A) :
  (forall y, y ∈ l -> le y x = true) -> sortBy le (l ++ [x]) = sortBy le l ++ [x].
Proof.
induction l as [|y l IH]; intros H; [reflexivity |].
unfold sortBy in *. simpl. rewrite IH.
- apply insertBy_snoc, H. left.
- intros z Hz. apply H. now right.
Qed.

Lemma mapM_snoc {A B} (f : A -> option B) (l : list A) (x : A) (ms : list B) (m : B) :
  mapM f l = Some ms -> f x = Some m -> mapM f (l ++ [x]) = Some (ms ++ [m]).
Proof.
intros Hl Hx. apply mapM_Some. apply mapM_Some in Hl.
apply Forall2_app; [exact Hl | constructor; [exact Hx | constructor]].
Qed.

(** Saving then loading: on a store that answers and holds fewer than
twenty messages of the user, all of them readable and none created after
the present time, a message saved under a fresh id comes back at the end
of the history with the same id, role, content and books; its timestamp is
the time the store recorded, not the one the message carried. The books
survive when the codec reads back what it wrote. *)
Theorem saved_message_is_loaded_back (P : Platform) (uid : string) (m : Message)
        (w : World) (tm : list MessageRow) (before : list Message) :
  health (store w) = Healthy ->
  chat_messages (store w) = Some tm ->
  (forall r, r ∈ tm -> row_id r <> msg_id m) ->
  (length (rowsOf uid tm) < 20)%nat ->
  (forall r, r ∈ rowsOf uid tm -> row_created_at r <= Date_now P (length (log w))) ->
  (forall bs, msg_books m = Some bs ->
              JSON_stringify_books P bs <> EmptyString /\
              JSON_parse_books P (JSON_stringify_books P bs) = Some bs) ->
  mapM (toMessage P) (sortBy created_le (rowsOf uid tm)) = Some before ->
  let w1 := snd (saveChatMessage P (Some uid) false m w) in
  fst (loadChatHistory P (Some uid) false w) = before /\
  fst (loadChatHistory P (Some uid) false w1) =
    before ++ [mkMessage (msg_id m) (msg_role m) (msg_content m) (msg_books m)
                         (Date_now P (length (log w)))].
Proof.
intros Hh Ht Hfresh Hlen Hclock Hjson Hbefore w1.
assert (Htake : forall l : list MessageRow, (length l <= 20)%nat -> take 20 l = l)
  by (intros l Hl; now apply take_ge).
split.
- rewrite ChatDbFacts.loadChatHistory_fst. unfold selectMessages, onTable. rewrite Hh, Ht.
  rewrite Htake, Hbefore; [reflexivity |].
  rewrite SortFacts.sortBy_perm. lia.
- rewrite ChatDbFacts.loadChatHistory_fst. subst w1.
  unfold saveChatMessage. rewrite !run_bind.
  cbn [now emit fst snd store log]. unfold withStore. cbn [store].
  unfold insertMessage, onTable. rewrite Hh, Ht.
  replace (existsb _ tm) with false.
  2:{ symmetry. apply not_true_is_false. intros Hex.
      apply existsb_exists in Hex as (r & Hr & Hid).
      apply bool_decide_eq_true in Hid.
      apply (Hfresh r); [now apply list_elem_of_In | exact Hid]. }
  cbn [fst snd store chat_messages health].
  unfold selectMessages, onTable. cbn [ret snd store health chat_messages].
  set (row := mkRow _ _ _ _ _ _).
  unfold rowsOf. rewrite filter_app.
  assert (Hrow : filter (fun r => row_user_id r = uid) [row] = [row]).
  { rewrite filter_cons_True by reflexivity. reflexivity. }
  rewrite Hrow. fold (rowsOf uid tm).
  rewrite sortBy_snoc.
  2:{ intros y Hy. unfold created_le. apply Z.leb_le. now apply Hclock. }
  rewrite Htake by (rewrite length_app, SortFacts.sortBy_perm; simpl; lia).
  erewrite mapM_snoc; [reflexivity | exact Hbefore |].
  unfold toMessage, row. cbn [row_books row_id row_role row_content row_created_at].
  destruct (msg_books m) as [bs|] eqn:Hb; [| reflexivity].
  destruct (Hjson bs eq_refl) as [Hne Hp]. rewrite Hp.
  destruct (JSON_stringify_books P bs); [congruence | reflexivity].
Qed.

Lemma saved_message_is_loaded_back_witness :
  let P := Examples.quietPlatform in
  let w := Examples.freshWorld Scenarios.oneRowStore in
  let m := Scenarios.reply in
  let before := [mkMessage "user-1" RoleUser "hello" None 1] in
  let w1 := snd (saveChatMessage P (Some "alice") false m w) in
  fst (loadChatHistory P (Some "alice") false w) = before /\
  fst (loadChatHistory P (Some "alice") false w1) =
    before ++ [mkMessage (msg_id m) (msg_role m) (msg_content m) (msg_books m)
                         (Date_now P (length (log w)))].
Proof.
intros P w m before.
apply (saved_message_is_loaded_back P "alice" m w [Scenarios.oneRow] before).
- reflexivity.
- reflexivity.
- intros r Hr. apply list_elem_of_singleton in Hr. subst r. discriminate.
- vm_compute. lia.
- intros r Hr. apply list_elem_of_singleton in Hr. subst r. vm_compute. discriminate.
- intros bs Hbs. injection Hbs as <-. split; [discriminate | reflexivity].
- reflexivity.
Defined.

End HistoryFacts.

(** ** The bookkeeping of a turn: the usage count and the cap *)

Module TurnFacts.
Import Js JsFacts Supabase Chatbot Conversation Notions.

(** What a turn keeps account of: the usage table, the health of the
store, and the input, loading and usage states. *)
Definition ledger (w : World)
  : option (gmap (string * string) Z) * Health * string * bool * Z :=
  (chat_usage (store w), health (store w), st_input w, st_isLoading w, st_dailyUsage w).

(** Everything but the log. *)
Definition offLog (w : World) : Store * list Message * string * bool * Z * bool :=
  (store w, st_messages w, st_input w, st_isLoading w, st_dailyUsage w, st_isTableMissing w).

(** The last two steps of a turn, after the usage update. *)
Definition finish (rg : Z * World) : World :=
  snd (setIsLoading false (snd (setDailyUsage (fst rg) (snd rg)))).

(** The calls to the model and to the catalog change nothing that does
not depend on the log. *)
Section Quiet.
Context {X : Type} (f : World -> X).
Hypothesis f_log : forall s l m i b n t, f (mkWorld s l m i b n t) = f (mkWorld s [] m i b n t).

Lemma quiet_emit (e : Event) : keeps f (emit e).
Proof. intros w. unfold sameOn, emit. cbn [snd]. rewrite f_log. symmetry. destruct w. apply f_log. Qed.

Lemma quiet_gemini (P : Platform) (message : string) (history : list Message) :
  keeps f (Gemini.callGeminiAPI P message history).
Proof.
  intros w. unfold sameOn, Gemini.callGeminiAPI.
  destruct (apiKeyConfigured P); cbn [negb]; [| reflexivity].
  rewrite run_bind. pose proof (quiet_emit (EvCompletion (Gemini.prompt (Gemini.context history) message)) w) as H.
  destruct (generateContent P _ _); exact H.
Qed.

Lemma quiet_tryStrategies (P : Platform) (urls : list string) :
  keeps f (tryStrategies P urls).
Proof.
  induction urls as [|u urls IH]; cbn [tryStrategies]; [apply keeps_ret |].
  apply keeps_bind; [apply quiet_emit | intros _].
  destruct (fetchDocs P u) as [[|]|]; first [exact IH | apply keeps_ret].
Qed.

Lemma quiet_now (P : Platform) : keeps f (now P).
Proof. intros w. reflexivity. Qed.

Lemma quiet_searchBooks (P : Platform) (query : string) :
  keeps f (searchBooksFromOpenLibrary P query).
Proof.
  unfold searchBooksFromOpenLibrary.
  apply keeps_bind; [apply quiet_now | intros t].
  apply keeps_bind; [apply quiet_tryStrategies | intros docs]. apply keeps_ret.
Qed.

Lemma quiet_searchAll (P : Platform) (queries : list string) :
  keeps f (searchAll P queries).
Proof.
  induction queries as [|x queries IH]; cbn [searchAll]; [apply keeps_ret |].
  apply keeps_bind; [apply quiet_searchBooks | intros b].
  apply keeps_bind; [exact IH | intros o]. apply keeps_ret.
Qed.

Lemma quiet_extract (P : Platform) (text : string) (um : option string) :
  keeps f (extractAndSearchBooks P text um).
Proof.
  unfold extractAndSearchBooks, shouldExtractBooks, extractBooksWithGemini.
  apply keeps_bind.
  - apply keeps_bind; [apply quiet_gemini | intros [r|e]; apply keeps_ret].
  - intros b. destruct (negb b); [apply keeps_ret |].
    apply keeps_bind.
    + apply keeps_bind; [apply quiet_gemini | intros [r|e]; [| apply keeps_ret]].
      destruct (JSON_parse_strings P (trim r)); apply keeps_ret.
    + intros c. apply keeps_bind; [apply quiet_searchAll | intros rs; apply keeps_ret].
Qed.

Lemma quiet_chatCall (P : Platform) (messages : list Message) (um : string) :
  keeps f (callGeminiAPI P messages um).
Proof.
  unfold callGeminiAPI.
  apply keeps_bind; [apply quiet_gemini | intros [r|e]; apply keeps_ret].
Qed.

End Quiet.

Lemma offLog_log s l m i b n t :
  offLog (mkWorld s l m i b n t) = offLog (mkWorld s [] m i b n t).
Proof. reflexivity. Qed.

(** What saving a message leaves alone. *)
Lemma saveChatMessage_effect (P : Platform) (user : option string) (captured : bool)
      (m : Message) (w : World) :
  let w' := snd (ChatDb.saveChatMessage P user captured m w) in
  ledger w' = ledger w /\
  (health (store w) = Healthy -> is_Some (chat_messages (store w)) ->
   is_Some (chat_messages (store w')) /\ st_isTableMissing w' = st_isTableMissing w).
Proof.
  unfold ChatDb.saveChatMessage.
  destruct user as [uid|]; [| now split]. destruct captured; [now split |].
  rewrite !run_bind. cbn [now emit fst snd]. unfold withStore. cbn [store].
  unfold insertMessage, onTable, ledger.
  destruct (health (store w)) eqn:Hh; cbn [fst snd].
  - destruct (chat_messages (store w)) as [t|] eqn:Ht; cbn [fst snd].
    + destruct (existsb _ t); cbn [fst snd].
      * replace (ChatDb.is42P01 "23505") with false by reflexivity.
        cbn. rewrite ?Hh, ?Ht. split; [reflexivity | intros _ _; split; [eauto | reflexivity]].
      * cbn. split; [now rewrite ?Hh | intros _ _; split; [eauto | reflexivity]].
    + split; [| intros _ [? ?]; discriminate].
      destruct (ChatDb.is42P01 _); cbn; now rewrite Hh.
  - split; [| intros ?; discriminate]. destruct (ChatDb.is42P01 _); cbn; now rewrite Hh.
  - split; [| intros ?; discriminate]. cbn. now rewrite Hh.
Qed.

(** The shape of a turn that starts: everything before the usage update
leaves the ledger alone, apart from clearing the input and raising the
loading state. *)
Lemma turn_effect (P : Platform) (r : Render) (w : World) :
  Spec.submits r ->
  exists wf,
    chat_usage (store wf) = chat_usage (store w) /\
    health (store wf) = health (store w) /\
    st_input wf = EmptyString /\
    (health (store w) = Healthy -> is_Some (chat_messages (store w)) ->
     is_Some (chat_messages (store wf)) /\ st_isTableMissing wf = st_isTableMissing w) /\
    snd (handleSendMessage P r w) =
      finish (ChatDb.updateDailyUsage P (r_user r) (r_isTableMissing r) (r_dailyUsage r) wf).
Proof.
  intros Hs. destruct (ChatbotFacts.submits_guard r Hs) as [G1 G2].
  set (content := trim (r_input r)).
  set (t := Date_now P (length (log w))).
  set (um := mkMessage ("user-" +:+ showZ t) RoleUser content None t).
  set (wa := mkWorld (store w) (log w) (st_messages w ++ [um]) EmptyString true
                     (st_dailyUsage w) (st_isTableMissing w)).
  set (wb := snd (ChatDb.saveChatMessage P (r_user r) (r_isTableMissing r) um wa)).
  set (rc := callGeminiAPI P (r_messages r) content wb).
  set (rd := extractAndSearchBooks P (fst rc) (Some content) (snd rc)).
  set (t' := Date_now P (length (log (snd rd)))).
  set (am := mkMessage ("assistant-" +:+ showZ t') RoleAssistant (fst rc)
                       (nonEmpty (fst rd)) t').
  set (we := snd (setMessages (fun prev => prev ++ [am]) (snd rd))).
  set (wf := snd (ChatDb.saveChatMessage P (r_user r) (r_isTableMissing r) am we)).
  exists wf.
  destruct (saveChatMessage_effect P (r_user r) (r_isTableMissing r) um wa) as [Lb Pb].
  destruct (saveChatMessage_effect P (r_user r) (r_isTableMissing r) am we) as [Lf Pf].
  fold wb in Lb, Pb. fold wf in Lf, Pf.
  assert (Hd : offLog (snd rd) = offLog wb).
  { subst rd. rewrite (keeps_run offLog) by (apply quiet_extract, offLog_log).
    subst rc. now rewrite (keeps_run offLog) by (apply quiet_chatCall, offLog_log). }
  assert (Se : store we = store wb /\ st_isTableMissing we = st_isTableMissing wb
               /\ ledger we = ledger wb).
  { unfold offLog in Hd. injection Hd as D1 D2 D3 D4 D5 D6.
    subst we. unfold ledger. cbn [setMessages snd store st_isTableMissing st_input st_isLoading st_dailyUsage].
    rewrite D1, D3, D4, D5, D6. repeat split. }
  destruct Se as (Se1 & Se2 & Se3).
  assert (L : ledger wf = ledger wa) by congruence.
  unfold ledger in L. subst wa. cbn in L. injection L as L1 L2 L3 L4 L5.
  split; [exact L1 |]. split; [exact L2 |]. split; [exact L3 |]. split.
  - intros Hh Hm. destruct (Pb Hh Hm) as [Hb1 Hb2].
    unfold ledger in Lb. injection Lb as B1 B2 _ _ _.
    destruct Pf as [Hf1 Hf2].
    + rewrite Se1, B2. exact Hh.
    + rewrite Se1. exact Hb1.
    + split; [exact Hf1 |]. rewrite Hf2, Se2, Hb2. reflexivity.
  - unfold handleSendMessage. rewrite G1, G2. rewrite !run_bind. reflexivity.
Qed.

Lemma finish_fields (rg : Z * World) :
  st_dailyUsage (finish rg) = fst rg /\ st_isLoading (finish rg) = false /\
  st_input (finish rg) = st_input (snd rg) /\ store (finish rg) = store (snd rg) /\
  log (finish rg) = log (snd rg) /\ st_isTableMissing (finish rg) = st_isTableMissing (snd rg).
Proof. repeat split. Qed.

Lemma updateDailyUsage_working (P : Platform) (uid : string) (n : Z) (w : World)
      (tu : gmap (string * string) Z) :
  health (store w) = Healthy -> chat_usage (store w) = Some tu ->
  ChatDb.updateDailyUsage P (Some uid) false n w =
  (n + 1,
   mkWorld (mkStore (Some (<[(uid, isoDate P (Date_now P (length (log w)))) := n + 1]> tu))
                    (chat_messages (store w)) Healthy)
           (log w ++ [EvStore (OpUpsertUsage uid (isoDate P (Date_now P (length (log w)))) (n + 1))])
           (st_messages w) (st_input w) (st_isLoading w) (st_dailyUsage w)
           (st_isTableMissing w)).
Proof.
  intros Hh Ht. unfold ChatDb.updateDailyUsage. 
  rewrite !run_bind. cbn [today now emit bind ret fst snd]. unfold withStore. cbn [store log].
  unfold upsertUsage, onTable. rewrite Hh, Ht. reflexivity.
Qed.

(** A served turn counts once: on a store that answers and has the usage
table, a turn started by a render without the flag ends with the in-memory
count one above the count the render captured, with that same count written
to the usage table under the user and the day of the update, with the
loading state off and the input cleared. *)
Theorem turn_counts_once (P : Platform) (r : Render) (w : World) (uid : string)
        (tu : gmap (string * string) Z) :
  Spec.submits r -> r_user r = Some uid -> r_isTableMissing r = false ->
  health (store w) = Healthy -> chat_usage (store w) = Some tu ->
  let w' := snd (handleSendMessage P r w) in
  let day := isoDate P (Date_now P (length (log w') - 1)) in
  st_dailyUsage w' = r_dailyUsage r + 1 /\
  chat_usage (store w') = Some (<[(uid, day) := r_dailyUsage r + 1]> tu) /\
  st_isLoading w' = false /\ st_input w' = EmptyString.
Proof.
  intros Hs Hu Hf Hh Ht w' day.
  destruct (turn_effect P r w Hs) as (wf & Lu & Lh & Li & _ & Hw').
  subst day w'. rewrite Hw', Hu, Hf.
  rewrite (updateDailyUsage_working P uid (r_dailyUsage r) wf tu) by congruence.
  unfold finish. cbn [setIsLoading setDailyUsage fst snd st_dailyUsage store chat_usage
                      st_isLoading st_input log].
  rewrite length_app. cbn [length].
  replace (length (log wf) + 1 - 1)%nat with (length (log wf)) by lia.
  repeat split. exact Li.
Qed.

(** When the store answers every request with an error other than the
undefined-table code, a turn still raises the in-memory count by one,
while the usage table keeps what it had: the count shown and the count
stored drift apart. *)
Theorem failing_store_counts_in_memory_only (P : Platform) (r : Render) (w : World)
        (uid code : string) :
  Spec.submits r -> r_user r = Some uid -> r_isTableMissing r = false ->
  health (store w) = Failing code -> code <> undefined_table ->
  let w' := snd (handleSendMessage P r w) in
  st_dailyUsage w' = r_dailyUsage r + 1 /\
  chat_usage (store w') = chat_usage (store w).
Proof.
  intros Hs Hu Hf Hh Hc w'.
  destruct (turn_effect P r w Hs) as (wf & Lu & Lh & Li & _ & Hw').
  subst w'. rewrite Hw'. rewrite Hu, Hf.
  destruct (finish_fields (ChatDb.updateDailyUsage P (Some uid) false (r_dailyUsage r) wf))
    as (-> & _ & _ & -> & _ & _).
  unfold ChatDb.updateDailyUsage. rewrite !run_bind.
  cbn [today now emit fst snd bind ret]. unfold withStore. cbn [store log].
  unfold upsertUsage, onTable. rewrite Lh, Hh. cbn [fst snd].
  replace (ChatDb.is42P01 code) with false
    by (symmetry; now apply bool_decide_eq_false_2).
  cbn. split; [reflexivity | exact Lu].
Qed.

(** When the render captured the flag, or the store reports the usage
table as missing, a turn leaves the in-memory count where the render had
it and writes nothing to the usage table: such turns never bring the cap
closer. *)
Theorem missing_usage_table_never_counts (P : Platform) (r : Render) (w : World) :
  Spec.submits r ->
  r_isTableMissing r = true \/
  Session.reportsMissing (Session.UpdateDailyUsage (r_dailyUsage r)) (store w) ->
  let w' := snd (handleSendMessage P r w) in
  st_dailyUsage w' = r_dailyUsage r /\ chat_usage (store w') = chat_usage (store w).
Proof.
  intros Hs Hm w'.
  destruct (turn_effect P r w Hs) as (wf & Lu & Lh & Li & _ & Hw').
  subst w'. rewrite Hw'.
  destruct (finish_fields (ChatDb.updateDailyUsage P (r_user r) (r_isTableMissing r) (r_dailyUsage r) wf))
    as (-> & _ & _ & -> & _ & _).
  unfold ChatDb.updateDailyUsage.
  destruct (r_user r) as [uid|]; [| now split].
  destruct Hm as [-> | Hm]; [now split |].
  destruct (r_isTableMissing r); [now split |].
  rewrite !run_bind.
  cbn [today now emit fst snd bind ret]. unfold withStore. cbn [store log].
  unfold upsertUsage, onTable. rewrite Lh, Lu.
  destruct Hm as [Hm | [Hm1 Hm2]].
  - rewrite Hm. cbn. split; [reflexivity | exact Lu].
  - rewrite Hm1. cbn in Hm2. apply bool_decide_eq_false in Hm2.
    destruct (chat_usage (store w)) as [tu|] eqn:E; [destruct Hm2; eauto |].
    cbn. split; [reflexivity | exact Lu].
Qed.

(** A served turn on a working store leaves the store working. *)
Lemma turn_keeps_store_working (P : Platform) (uid : string) (w : World) :
  storeWorks w -> Spec.submits (render (Some uid) w) ->
  let w' := snd (handleSendMessage P (render (Some uid) w) w) in
  storeWorks w' /\ st_isLoading w' = false /\
  st_dailyUsage w' = st_dailyUsage w + 1 /\
  length (st_messages w') = (length (st_messages w) + 2)%nat.
Proof.
  intros (Hh & [tu Hu] & Hm & Hf) Hs w'.
  destruct (ChatbotFacts.turn_shape P (render (Some uid) w) w Hs) as (Hmsg & _).
  destruct (turn_effect P (render (Some uid) w) w Hs) as (wf & Lu & Lh & Li & Hp & Hw').
  destruct (Hp Hh Hm) as [Hm' Hf'].
  subst w'. rewrite Hmsg. rewrite Hw'. cbn [render r_user r_isTableMissing r_dailyUsage].
  rewrite Hf.
  rewrite (updateDailyUsage_working P uid (st_dailyUsage w) wf tu) by congruence.
  unfold finish, storeWorks.
  cbn [setIsLoading setDailyUsage fst snd st_dailyUsage store chat_usage chat_messages health
       st_isLoading st_input log st_isTableMissing].
  rewrite length_app. cbn [length].
  repeat split; try eauto; try lia.
Qed.

(** A submission at the cap changes neither store nor transcript. *)
Lemma cap_keeps_store_working (P : Platform) (uid : string) (w : World) :
  DAILY_LIMIT <= st_dailyUsage w ->
  let w' := snd (handleSendMessage P (render (Some uid) w) w) in
  (storeWorks w -> storeWorks w') /\ st_isLoading w' = st_isLoading w /\
  st_dailyUsage w' = st_dailyUsage w /\ st_messages w' = st_messages w.
Proof.
  intros H w'. subst w'. rewrite ChatbotFacts.handleSendMessage_at_cap by exact H.
  destruct (_ || _ || _); unfold storeWorks; cbn; repeat split; tauto.
Qed.

(** The cap holds over a conversation: on a working store, of any
sequence of non-blank submissions made one after the other by a signed-in
user, exactly the first DAILY_LIMIT minus the starting count are served
(all of them if there are fewer); each served one raises the count by one
and adds two messages to the transcript, the others add nothing. *)
Theorem daily_cap_holds (P : Platform) (uid : string) (texts : list string) (w : World) :
  storeWorks w -> st_isLoading w = false ->
  Forall (fun text => trim text <> EmptyString) texts ->
  let w' := snd (submitAll P (Some uid) texts w) in
  let served := Z.min (Z.of_nat (length texts)) (Z.max 0 (DAILY_LIMIT - st_dailyUsage w)) in
  st_dailyUsage w' = st_dailyUsage w + served /\
  Z.of_nat (length (st_messages w')) = Z.of_nat (length (st_messages w)) + 2 * served.
Proof.
  intros Hw Hl Ht. revert w Hw Hl.
  induction Ht as [|text texts Htext Ht IH]; intros w Hw Hl.
  - cbn. split; lia.
  - set (w1 := mkWorld (store w) (log w) (st_messages w) text (st_isLoading w)
                       (st_dailyUsage w) (st_isTableMissing w)).
    assert (E : snd (submit P (Some uid) text w)
                = snd (handleSendMessage P (render (Some uid) w1) w1)) by reflexivity.
    cbn [submitAll]. rewrite run_bind, E.
    assert (Hw1 : storeWorks w1) by exact Hw.
    destruct (Z.lt_ge_cases (st_dailyUsage w) DAILY_LIMIT) as [Hlt | Hge].
    + assert (Hs : Spec.submits (render (Some uid) w1)).
      { repeat split; cbn; eauto. }
      destruct (turn_keeps_store_working P uid w1 Hw1 Hs) as (Hw2 & Hl2 & Hu2 & Hm2).
      destruct (IH _ Hw2 Hl2) as [IH1 IH2].
      cbv zeta. rewrite IH1, IH2, Hu2, Hm2. cbn [st_dailyUsage st_messages w1 length].
      split; lia.
    + destruct (cap_keeps_store_working P uid w1 Hge) as (Hw2 & Hl2 & Hu2 & Hm2).
      destruct (IH _ (Hw2 Hw1)) as [IH1 IH2]; [now rewrite Hl2 |].
      cbv zeta. rewrite IH1, IH2, Hu2, Hm2. cbn [st_dailyUsage st_messages w1 length].
      split; lia.
Qed.

Lemma turn_counts_once_witness :
  let P := Examples.quietPlatform in
  let w := Examples.freshWorld Examples.workingStore in
  let r := render (Some "alice") w in
  let w' := snd (handleSendMessage P r w) in
  let day := isoDate P (Date_now P (length (log w') - 1)) in
  st_dailyUsage w' = r_dailyUsage r + 1 /\
  chat_usage (store w') = Some (<[("alice", day) := r_dailyUsage r + 1]> ∅) /\
  st_isLoading w' = false /\ st_input w' = EmptyString.
Proof.
intros P w r.
apply (turn_counts_once P r w "alice" ∅).
- split; [vm_compute; discriminate |
          split; [eexists; reflexivity | split; [reflexivity | unfold DAILY_LIMIT; cbn; lia]]].
- reflexivity.
- reflexivity.
- reflexivity.
- reflexivity.
Defined.

Lemma failing_store_counts_in_memory_only_witness :
  let P := Examples.quietPlatform in
  let w := Examples.freshWorld (mkStore (Some ∅) (Some []) (Failing "57014")) in
  let r := render (Some "alice") w in
  let w' := snd (handleSendMessage P r w) in
  st_dailyUsage w' = r_dailyUsage r + 1 /\ chat_usage (store w') = chat_usage (store w).
Proof.
intros P w r.
apply (failing_store_counts_in_memory_only P r w "alice" "57014").
- split; [vm_compute; discriminate |
          split; [eexists; reflexivity | split; [reflexivity | unfold DAILY_LIMIT; cbn; lia]]].
- reflexivity.
- reflexivity.
- reflexivity.
- discriminate.
Defined.

Lemma missing_usage_table_never_counts_witness :
  let P := Examples.quietPlatform in
  let w := Examples.freshWorld Examples.missingStore in
  let r := render (Some "alice") w in
  let w' := snd (handleSendMessage P r w) in
  st_dailyUsage w' = r_dailyUsage r /\ chat_usage (store w') = chat_usage (store w).
Proof.
intros P w r.
apply (missing_usage_table_never_counts P r w).
- split; [vm_compute; discriminate |
          split; [eexists; reflexivity | split; [reflexivity | unfold DAILY_LIMIT; cbn; lia]]].
- right. right. split; reflexivity.
Defined.

Lemma daily_cap_holds_witness :
  let P := Examples.quietPlatform in
  let w := Scenarios.nineServed in
  let texts := ["books like Dune"; "and one more"] in
  let w' := snd (submitAll P (Some "alice") texts w) in
  let served := Z.min (Z.of_nat (length texts)) (Z.max 0 (DAILY_LIMIT - st_dailyUsage w)) in
  st_dailyUsage w' = st_dailyUsage w + served /\
  Z.of_nat (length (st_messages w')) = Z.of_nat (length (st_messages w)) + 2 * served.
Proof.
intros P w texts.
apply (daily_cap_holds P "alice" texts w).
- split; [reflexivity | split; [eexists; reflexivity | split; [eexists; reflexivity | reflexivity]]].
- reflexivity.
- repeat constructor; vm_compute; discriminate.
Defined.

End TurnFacts.

(** ** The reply shown when the completion call fails *)

Module ReplyFacts.
Import Js JsFacts Chatbot.

(** The client and the component's wrapper, composed: when the model
endpoint rejects a call with the text [m], the reply shown is chosen by
that text alone, among four of the five fallback replies: the model
reply for a text with 404 or model in it, else the key reply for one with
API key, else the rate-limit reply for one with quota or limit, else the
service reply. The connection reply is never the one shown, whatever the
text: the client has already replaced it. *)
Theorem failed_completion_reply (P : Platform) (messages : list Message) (um m : string)
        (w : World) :
  apiKeyConfigured P = true ->
  generateContent P (completionCalls w)
                  (Gemini.prompt (Gemini.context (sliceLast 5 messages)) um) = Rejected m ->
  let reply := fst (callGeminiAPI P messages um w) in
  reply = (if includes m "404" || includes m "model" then modelUpdated
           else if includes m "API key" then apiKeyIssue
           else if includes m "quota" || includes m "limit" then rateLimit
           else serviceUnavailable) /\
  reply <> connectionIssue.
Proof.
intros Hk Hm reply. subst reply.
rewrite ChatbotFacts.chatCall_fst, ChatbotFacts.geminiCall_fst, Hk. cbn [negb].
rewrite Hm. unfold Gemini.typedFailure.
destruct (includes m "404" || includes m "model");
  [split; [vm_compute; reflexivity | vm_compute; discriminate] |].
destruct (includes m "API key");
  [split; [vm_compute; reflexivity | vm_compute; discriminate] |].
destruct (includes m "quota" || includes m "limit");
  split; first [vm_compute; reflexivity | vm_compute; discriminate].
Qed.

Lemma failed_completion_reply_witness :
  let P := Examples.quietPlatform in
  let w := Examples.freshWorld Examples.workingStore in
  let reply := fst (callGeminiAPI P [] "books like Dune" w) in
  reply = (if includes "network" "404" || includes "network" "model" then modelUpdated
           else if includes "network" "API key" then apiKeyIssue
           else if includes "network" "quota" || includes "network" "limit" then rateLimit
           else serviceUnavailable) /\
  reply <> connectionIssue.
Proof.
intros P w.
apply (failed_completion_reply P [] "books like Dune" "network" w); reflexivity.
Defined.

End ReplyFacts.

(** ** One search of the catalog: which answer is used, and its order *)

Module SearchFacts.
Import Js JsFacts Supabase Chatbot Notions.

Lemma tryStrategies_first_answer (P : Platform) (before : list string) (url : string)
      (after : list string) (d : Doc) (ds : list Doc) (w : World) :
  Forall (yieldsNothing P) before ->
  fetchDocs P url = Some (d :: ds) ->
  tryStrategies P (before ++ url :: after) w =
  (d :: ds, mkWorld (store w) (log w ++ map EvCatalog (before ++ [url])) (st_messages w)
                    (st_input w) (st_isLoading w) (st_dailyUsage w) (st_isTableMissing w)).
Proof.
intros Hb Hu. revert w. induction Hb as [|u before Hu' Hb IH]; intros w.
- cbn [app tryStrategies]. unfold bind, emit. rewrite Hu. reflexivity.
- cbn [app tryStrategies]. unfold bind at 1. unfold emit at 1.
  assert (E : forall w0, match fetchDocs P u with
              | Some (d0 :: ds0) => ret (d0 :: ds0)
              | _ => tryStrategies P (before ++ url :: after)
              end w0 = tryStrategies P (before ++ url :: after) w0).
  { intros w0. destruct Hu' as [-> | ->]; reflexivity. }
  rewrite E, IH.
  cbn [store log st_messages st_input st_isLoading st_dailyUsage st_isTableMissing].
  cbn [map]. now rewrite <- app_assoc.
Qed.

(** The first strategy that yields a document decides the search: when
the strategies before it yield nothing and it yields a non-empty list,
the books are the best three acceptable documents of that list alone, the
catalog is fetched once per strategy up to that one, and the later
strategies are never tried, even when that list has no acceptable
document. *)
Theorem search_uses_first_answer (P : Platform) (query : string) (w : World)
        (before : list string) (url : string) (after : list string)
        (d : Doc) (ds : list Doc) :
  let year := getFullYear P (Date_now P (length (log w))) in
  searchStrategies P query year = before ++ url :: after ->
  Forall (yieldsNothing P) before ->
  fetchDocs P url = Some (d :: ds) ->
  fst (searchBooksFromOpenLibrary P query w) =
    map toBook (sliceTo 3 (sortBy docs_le
                  (filter (fun x => keepDoc year x = true) (d :: ds)))) /\
  log (snd (searchBooksFromOpenLibrary P query w)) =
    log w ++ map EvCatalog (before ++ [url]).
Proof.
intros year Hs Hb Hu.
unfold searchBooksFromOpenLibrary. rewrite !run_bind. cbn [now fst snd].
fold year. rewrite Hs. rewrite (tryStrategies_first_answer P before url after d ds w Hb Hu).
cbn [fst snd ret log]. split; reflexivity.
Qed.

Lemma search_uses_first_answer_witness :
  let P := Scenarios.secondAnswers in
  let w := Examples.freshWorld Examples.workingStore in
  let urls := searchStrategies P "Dune" 2023 in
  fst (searchBooksFromOpenLibrary P "Dune" w) = [toBook Examples.duneDoc] /\
  log (snd (searchBooksFromOpenLibrary P "Dune" w)) = map EvCatalog (take 2 urls).
Proof.
intros P w urls.
destruct (search_uses_first_answer P "Dune" w (take 1 urls) (default EmptyString (urls !! 1%nat))
            (drop 2 urls) Examples.duneDoc []) as [H1 H2].
- reflexivity.
- constructor; [right; vm_compute; reflexivity | constructor].
- vm_compute. reflexivity.
- split; [rewrite H1 | rewrite H2]; reflexivity.
Defined.

Lemma docs_le_total (a b : Doc) : docs_le a b = true \/ docs_le b a = true.
Proof.
unfold docs_le, compareDocs. rewrite !Z.leb_le.
destruct (Z.eqb_spec (orZero (doc_first_publish_year a))
                     (orZero (doc_first_publish_year b))) as [E|E];
destruct (Z.eqb_spec (orZero (doc_first_publish_year b))
                     (orZero (doc_first_publish_year a))) as [E'|E'];
cbn [negb]; lia.
Qed.

Lemma docs_le_trans (a b c : Doc) :
  docs_le a b = true -> docs_le b c = true -> docs_le a c = true.
Proof.
unfold docs_le, compareDocs. rewrite !Z.leb_le.
destruct (Z.eqb_spec (orZero (doc_first_publish_year a))
                     (orZero (doc_first_publish_year b)));
destruct (Z.eqb_spec (orZero (doc_first_publish_year b))
                     (orZero (doc_first_publish_year c)));
destruct (Z.eqb_spec (orZero (doc_first_publish_year a))
                     (orZero (doc_first_publish_year c)));
cbn [negb]; lia.
Qed.

Lemma StronglySorted_map {A B} (R : relation B) (f : A -> B) (l : list A) :
  StronglySorted (fun a b => R (f a) (f b)) l -> StronglySorted R (map f l).
Proof.
induction 1 as [|x l Hl IH Hx]; cbn [map]; constructor; [exact IH |].
apply Forall_map. exact Hx.
Qed.

Lemma StronglySorted_weaken {A} (R R' : relation A) (l : list A) :
  (forall a b, R a b -> R' a b) -> StronglySorted R l -> StronglySorted R' l.
Proof.
intros HR. induction 1 as [|x l Hl IH Hx]; constructor; [exact IH |].
eapply Forall_impl; [exact Hx | intros; now apply HR].
Qed.

(** The books of a search come newest first: each one is at least as
recent as every book after it, a book without a year (or with year 0)
counting as the oldest. *)
Theorem search_results_newest_first (P : Platform) (query : string) (w : World) :
  StronglySorted newerOrEqual (fst (searchBooksFromOpenLibrary P query w)).
Proof.
unfold searchBooksFromOpenLibrary. rewrite !run_bind. cbn [now fst snd ret].
apply StronglySorted_map.
eapply StronglySorted_weaken;
  [| apply (SortFacts.take_sorted docs_le docs_le_total docs_le_trans)].
intros a b Hab. unfold newerOrEqual, toBook. cbn [book_publishedDate].
unfold docs_le, compareDocs in Hab. apply Z.leb_le in Hab.
destruct (Z.eqb_spec (orZero (doc_first_publish_year a))
                     (orZero (doc_first_publish_year b)));
  cbn [negb] in Hab; lia.
Qed.

End SearchFacts.

(** ** The cover image of a card *)

Module CardFacts.
Import Js JsFacts Utils Chatbot Cards Listing Notions.

Lemma failures_given_up (urls : list string) (k i : nat) :
  failures k urls (mkCoverState i true) = mkCoverState i true.
Proof.
destruct k; [reflexivity |]. cbn [failures]. unfold shown. cbn [hasError].
now rewrite orb_true_r.
Qed.

Lemma failures_from (urls : list string) (k i : nat) :
  (i < length urls)%nat ->
  failures k urls (mkCoverState i false) =
  if (i + k <? length urls)%nat then mkCoverState (i + k) false
  else mkCoverState (length urls - 1) true.
Proof.
revert i. induction k as [|k IH]; intros i Hi.
- cbn [failures]. rewrite Nat.add_0_r.
  now replace (i <? length urls)%nat with true by (symmetry; now apply Nat.ltb_lt).
- cbn [failures]. unfold shown. cbn [hasError currentUrlIndex].
  replace (length urls =? 0)%nat with false by (symmetry; apply Nat.eqb_neq; lia).
  cbn [orb]. unfold handleImageError. cbn [hasError currentUrlIndex].
  destruct (Nat.ltb_spec (i + 1) (length urls)) as [H|H].
  + rewrite IH by exact H. now replace (i + 1 + k)%nat with (i + S k)%nat by lia.
  + replace (i + S k <? length urls)%nat with false by (symmetry; apply Nat.ltb_ge; lia).
    replace i with (length urls - 1)%nat by lia.
    apply failures_given_up.
Qed.

(** The image falls over from one URL to the next: after [k] failed
loads the card shows the URL at position [k] of its list, each URL being
tried once and in order, and once every URL has failed (or when there is
none) it shows the placeholder and stays there. The index never leaves the
list. *)
Theorem cover_failover (urls : list string) (k : nat) :
  shown urls (failures k urls initialCover) =
  if (k <? length urls)%nat then Image (urls !! k) else Placeholder.
Proof.
destruct urls as [|u urls].
- destruct k; reflexivity.
- unfold initialCover. rewrite failures_from by (cbn; lia).
  cbn [Nat.add]. destruct (k <? length (u :: urls))%nat; reflexivity.
Qed.

(** The URLs that [generateCoverUrls] builds: one to four, none empty. *)
Lemma generateCoverUrls_truthy (doc : Doc) (urls : list string) :
  generateCoverUrls doc = Some urls ->
  urls <> [] /\ (length urls <= 4)%nat /\ Forall (fun u => truthyS u = true) urls.
Proof.
unfold generateCoverUrls, pushIf.
repeat match goal with
       | |- context [if ?c then _ ++ _ else _] => destruct c
       end;
  cbn [app]; intros H; try discriminate; injection H as <-;
  (split; [discriminate | split; [cbn; lia |]]);
  repeat constructor.
Qed.

Lemma filter_all {A} (P : A -> Prop) `{!forall x, Decision (P x)} (l : list A) :
  Forall P l -> filter P l = l.
Proof.
induction 1 as [|x l Hx Hl IH]; [reflexivity |].
rewrite filter_cons_True by exact Hx. now rewrite IH.
Qed.

Lemma allUrls_primary (doc : Doc) :
  allUrls (generateCoverUrls doc) (primaryCover (generateCoverUrls doc)) =
  match generateCoverUrls doc with
  | Some (u :: rest) => (u :: rest) ++ [u]
  | _ => []
  end.
Proof.
destruct (generateCoverUrls doc) as [urls|] eqn:Hg; [| reflexivity].
destruct (generateCoverUrls_truthy doc urls Hg) as (Hne & _ & Hall).
destruct urls as [|u rest]; [congruence |].
unfold allUrls, primaryCover. cbn [default truthyOS].
inversion Hall as [|? ? Hu Hrest]; subst. rewrite Hu. cbn [default].
apply filter_all. apply Forall_app. split; [exact Hall | repeat constructor; exact Hu].
Qed.

(** The card of a book found by the search hook or shown among the
recommendations goes through the cover URLs of the book in order and
then through the first of them once more, since the cover of such a book
is the first of its cover URLs: at most five loads before the placeholder,
and none at all when the document gave no URL. *)
Theorem listed_card_retries_primary (d : SearchDoc) (doc : Doc) :
  let urlsOf := fun b =>
    match lb_coverUrls b with
    | Some (u :: rest) => (u :: rest) ++ [u]
    | _ => []
    end in
  (listedCardUrls (searchBook d) = urlsOf (searchBook d) /\
   (length (listedCardUrls (searchBook d)) <= 5)%nat) /\
  (listedCardUrls (recommendedBook doc) = urlsOf (recommendedBook doc) /\
   (length (listedCardUrls (recommendedBook doc)) <= 5)%nat).
Proof.
intros urlsOf.
assert (H : forall doc0,
          allUrls (generateCoverUrls doc0) (primaryCover (generateCoverUrls doc0)) =
          match generateCoverUrls doc0 with
          | Some (u :: rest) => (u :: rest) ++ [u]
          | _ => []
          end /\
          (length (allUrls (generateCoverUrls doc0)
                           (primaryCover (generateCoverUrls doc0))) <= 5)%nat).
{ intros doc0. rewrite allUrls_primary. split; [reflexivity |].
  destruct (generateCoverUrls doc0) as [[|u rest]|] eqn:Hg; cbn [length]; try lia.
  destruct (generateCoverUrls_truthy doc0 _ Hg) as (_ & Hlen & _).
  rewrite length_app. cbn [length] in *. lia. }
split; [exact (H (sd_doc d)) | exact (H doc)].
Qed.

(** The card of a book found by the chat: the large cover, the medium
cover, then the large cover again, and the placeholder after the third
failed load. *)
Theorem chat_card_tries_large_cover_twice (d : Doc) (n : Z) :
  doc_cover_i d = Some n -> n <> 0 ->
  let urls := chatCardUrls (toBook d) in
  urls = [bigCover n; mediumCover n; bigCover n] /\
  forall k, shown urls (failures k urls initialCover) =
            if (k <? 3)%nat then Image (urls !! k) else Placeholder.
Proof.
intros Hd Hn urls.
assert (E : urls = [bigCover n; mediumCover n; bigCover n]).
{ subst urls. unfold chatCardUrls, toBook. cbn [book_coverUrls book_cover]. rewrite Hd.
  unfold truthyOZ, truthyZ.
  replace (negb (n =? 0)) with true by (symmetry; apply negb_true_iff, Z.eqb_neq, Hn).
  reflexivity. }
split; [exact E |]. intros k. rewrite cover_failover. now rewrite E.
Qed.

Lemma chat_card_tries_large_cover_twice_witness :
  let urls := chatCardUrls (toBook Examples.duneDoc) in
  urls = [bigCover 11481354; mediumCover 11481354; bigCover 11481354] /\
  forall k, shown urls (failures k urls initialCover) =
            if (k <? 3)%nat then Image (urls !! k) else Placeholder.
Proof.
apply (chat_card_tries_large_cover_twice Examples.duneDoc 11481354);
  [reflexivity | discriminate].
Defined.

Lemma length_sliceStr (n : nat) (s : string) :
  String.length (sliceStr n s) = Nat.min n (String.length s).
Proof.
unfold sliceStr. revert n. induction s as [|c s IH]; intros [|n]; cbn; try reflexivity.
f_equal. apply IH.
Qed.

(** What a card prints is bounded: the title under a placeholder has at
most 15 characters, and a description at most three more than the
maximum asked for (or the 24 of the stand-in text for a missing one). *)
Theorem truncation_bounds (title : string) (text : option string) (maxLength : nat) :
  (String.length (truncatedTitle title) <= 15)%nat /\
  (String.length (truncateDescription text maxLength) <= Nat.max (maxLength + 3) 24)%nat.
Proof.
split.
- unfold truncatedTitle.
  destruct (Nat.ltb_spec 15 (String.length title)) as [H|H]; [| exact H].
  rewrite length_append, length_sliceStr. change (String.length "...") with 3%nat. lia.
- unfold truncateDescription. destruct (truthyOS text); cbn [negb]; [| cbn; lia].
  destruct (Nat.ltb_spec maxLength (String.length (default EmptyString text))) as [H|H];
    [| lia].
  rewrite length_append, length_sliceStr. change (String.length "...") with 3%nat. lia.
Qed.

End CardFacts.

(** ** Listings: the rating filter and the recommendations *)

Module ListingFacts.
Import Js JsFacts Utils Filters Listing.

(** No book of the search hook carries a rating, so a minimum rating
above zero hides every search result, whatever the other filters. *)
Theorem search_results_vanish_under_rating (yearOf : Z -> Z) (filters : FilterOptions)
        (docs : list SearchDoc) :
  (0 < minRating filters)%Q ->
  filteredBooks yearOf filters (map searchBook docs) = [].
Proof.
intros Hr. unfold filteredBooks.
induction docs as [|d docs IH]; [reflexivity |].
cbn [map]. rewrite filter_cons_False; [exact IH |].
unfold passesFilters, searchBook. cbn [lb_averageRating ratingOrZero].
unfold qlt. destruct (Qlt_le_dec 0 (minRating filters)) as [_ | Hle].
- cbn. discriminate.
- exfalso. apply (Qlt_not_le _ _ Hr Hle).
Qed.

Lemma search_results_vanish_under_rating_witness :
  filteredBooks (fun _ => 1970) Scenarios.threeStars
                (map searchBook [Scenarios.duneSearchDoc]) = [].
Proof.
apply (search_results_vanish_under_rating (fun _ => 1970) Scenarios.threeStars
         [Scenarios.duneSearchDoc]).
reflexivity.
Defined.


End ListingFacts.

(** ** The filter panel and its counter *)

Module FilterFacts.
Import Js Filters.

Lemma b2z_range (b : bool) : 0 <= b2z b <= 1.
Proof. destruct b; cbn; lia. Qed.

Lemma b2z_zero (b : bool) : b2z b = 0 <-> b = false.
Proof. destruct b; cbn; split; intros; congruence || lia. Qed.

(** The badge of the filter button shows zero exactly when no filter
restricts anything: no category is ticked, the minimum rating is not
above zero, the year range reaches from 1900 or before to the current year
or after, and the page range from 0 or below to 1000 or above. *)
Theorem no_active_filters_iff (filters : FilterOptions) (currentYear : Z) :
  activeFiltersCount filters currentYear = 0 <->
  categories filters = [] /\ (minRating filters <= 0)%Q /\
  fst (yearRange filters) <= 1900 /\ currentYear <= snd (yearRange filters) /\
  fst (pageRange filters) <= 0 /\ 1000 <= snd (pageRange filters).
Proof.
unfold activeFiltersCount.
set (a := b2z (if Qlt_le_dec 0 (minRating filters) then true else false)).
set (b := b2z (_ || _)). set (c := b2z (_ || _)).
pose proof (b2z_range (if Qlt_le_dec 0 (minRating filters) then true else false)) as Ha.
pose proof (b2z_range ((1900 <? fst (yearRange filters))
                       || (snd (yearRange filters) <? currentYear))) as Hb.
pose proof (b2z_range ((0 <? fst (pageRange filters))
                       || (snd (pageRange filters) <? 1000))) as Hc.
fold a in Ha. fold b in Hb. fold c in Hc.
split.
- intros H.
  assert (Hl : length (categories filters) = 0%nat) by lia.
  assert (a = 0 /\ b = 0 /\ c = 0) as (Ea & Eb & Ec) by lia.
  subst a b c. apply b2z_zero in Ea, Eb, Ec.
  apply orb_false_iff in Eb as [Eb1 Eb2]. apply orb_false_iff in Ec as [Ec1 Ec2].
  apply Z.ltb_ge in Eb1, Eb2, Ec1, Ec2.
  destruct (Qlt_le_dec 0 (minRating filters)) as [|Hq]; [discriminate |].
  repeat split; try assumption. now apply length_zero_iff_nil.
- intros (H1 & H2 & H3 & H4 & H5 & H6).
  assert (a = 0).
  { subst a. destruct (Qlt_le_dec 0 (minRating filters)) as [Hq|]; [| reflexivity].
    exfalso. apply (Qlt_not_le _ _ Hq H2). }
  assert (b = 0).
  { subst b. apply b2z_zero, orb_false_iff. split; apply Z.ltb_ge; assumption. }
  assert (c = 0).
  { subst c. apply b2z_zero, orb_false_iff. split; apply Z.ltb_ge; assumption. }
  rewrite H1. cbn [length]. lia.
Qed.

Lemma filter_neq_notin (c : string) (l : list string) :
  c ∉ l -> filter (fun x => x <> c) l = l.
Proof.
intros H. induction l as [|x l IH]; [reflexivity |].
apply not_elem_of_cons in H as [H1 H2].
rewrite filter_cons_True by congruence. now rewrite IH.
Qed.

(** Ticking a category that is not yet chosen adds it, raises the badge
by one and touches no other filter, and unticking it again gives back the
filters as they were. *)
Theorem category_toggle (filters : FilterOptions) (c : string) (currentYear : Z) :
  c ∉ categories filters ->
  let ticked := handleCategoryChange filters c true in
  (c ∈ categories ticked) /\
  activeFiltersCount ticked currentYear = activeFiltersCount filters currentYear + 1 /\
  handleCategoryChange ticked c false = filters.
Proof.
intros H ticked. subst ticked. unfold handleCategoryChange.
cbn [categories yearRange minRating pageRange].
split; [apply elem_of_app; right; constructor |]. split.
- unfold activeFiltersCount. cbn [categories yearRange minRating pageRange].
  rewrite length_app. cbn [length]. lia.
- rewrite filter_app, filter_neq_notin by exact H.
  rewrite filter_cons_False by (intros E; now apply E).
  rewrite filter_nil, app_nil_r. destruct filters; reflexivity.
Qed.

Lemma category_toggle_witness :
  let filters := clearAllFilters 2023 in
  let ticked := handleCategoryChange filters "fiction" true in
  ("fiction" ∈ categories ticked) /\
  activeFiltersCount ticked 2023 = activeFiltersCount filters 2023 + 1 /\
  handleCategoryChange ticked "fiction" false = filters.
Proof.
intros filters.
apply (category_toggle filters "fiction" 2023).
apply not_elem_of_nil.
Defined.

End FilterFacts.

(** ** The search hook: loading page after page *)

Module SearchHookFacts.
Import Js Listing SearchHook.

Section Pages.
Variable P : Platform.
Variable fetchSearch : string -> Response.
Variable query : string.
Variable results : list SearchDoc.
Hypothesis served : servesInPages P fetchSearch query results.

(** The first [j] pages are loaded, and nothing else. *)
Definition loaded (j : nat) (s : SearchState) : Prop :=
  ss_books s = map searchBook (take (20 * j) results) /\
  ss_totalResults s = Z.of_nat (length results) /\
  ss_error s = None /\ ss_isLoading s = false.

Lemma first_page (s : SearchState) : loaded 1 (searchBooks P fetchSearch query 0 20 s).
Proof.
unfold searchBooks. change (0 / 20 + 1) with (Z.of_nat 0 + 1).
rewrite served by (left; reflexivity).
cbn [Z.eqb default ss_books ss_totalResults ss_error ss_isLoading].
repeat split.
Qed.

Lemma next_page (j : nat) (s : SearchState) :
  (1 <= j)%nat -> loaded j s -> loaded (S j) (loadMore P fetchSearch query s).
Proof.
intros Hj (Hb & Ht & He & Hl). unfold loadMore. rewrite Hl, Ht, Hb. cbn [negb andb].
rewrite length_map, length_take.
destruct (Z.ltb_spec (Z.of_nat (Nat.min (20 * j) (length results)))
                     (Z.of_nat (length results))) as [H|H].
- assert (Hm : Nat.min (20 * j) (length results) = (20 * j)%nat) by lia.
  rewrite Hm. unfold searchBooks.
  replace (Z.of_nat (20 * j) / 20 + 1) with (Z.of_nat j + 1).
  2:{ rewrite Nat2Z.inj_mul, Z.mul_comm, Z.div_mul by lia. reflexivity. }
  rewrite served by (right; lia).
  replace (Z.of_nat (20 * j) =? 0) with false by (symmetry; apply Z.eqb_neq; lia).
  cbn [default ss_books ss_totalResults ss_error ss_isLoading].
  repeat split. cbn [ss_books]. unfold id.
  rewrite Hb, <- map_app, take_take_drop. f_equal. f_equal. lia.
- repeat split; try assumption.
  rewrite Hb. f_equal. rewrite !take_ge by lia. reflexivity.
Qed.

Lemma pages_loaded (n j : nat) (s : SearchState) :
  (1 <= j)%nat -> loaded j s -> loaded (n + j) (loadMores P fetchSearch n query s).
Proof.
revert j s. induction n as [|n IH]; intros j s Hj Hs; [exact Hs |].
cbn [loadMores]. replace (S n + j)%nat with (n + S j)%nat by lia.
apply IH; [lia |]. now apply next_page.
Qed.

End Pages.

(** Loading more goes through the results page by page: against a
catalog that serves a list of results in pages of twenty, a first search
followed by [n] requests for more leaves exactly the first 20 * (n + 1)
results in the list of books (all of them once the list is exhausted), each
once and in the order of the catalog, with the total set to the length of
the list, no error and the loading state off; a request for more past the
end changes nothing. *)
Theorem load_more_pages_through (P : Platform) (fetchSearch : string -> Response)
        (query : string) (results : list SearchDoc) (s : SearchState) (n : nat) :
  servesInPages P fetchSearch query results ->
  let sn := loadMores P fetchSearch n query (searchBooks P fetchSearch query 0 20 s) in
  ss_books sn = map searchBook (take (20 * (n + 1)) results) /\
  ss_totalResults sn = Z.of_nat (length results) /\
  ss_error sn = None /\ ss_isLoading sn = false.
Proof.
intros H sn. apply (pages_loaded P fetchSearch query results H n 1); [lia |].
apply first_page, H.
Qed.

Lemma load_more_pages_through_witness :
  let P := Examples.quietPlatform in
  let s := mkSearchState [] false None 0 in
  let sn := loadMores P Scenarios.twoPages 3 "dune"
                      (searchBooks P Scenarios.twoPages "dune" 0 20 s) in
  ss_books sn = map searchBook (take (20 * (3 + 1)) Scenarios.twentyFive) /\
  ss_totalResults sn = Z.of_nat (length Scenarios.twentyFive) /\
  ss_error sn = None /\ ss_isLoading sn = false.
Proof.
intros P s.
apply (load_more_pages_through P Scenarios.twoPages "dune" Scenarios.twentyFive s 3).
intros p Hp.
assert (Hp' : p = 0%nat \/ p = 1%nat).
{ destruct Hp as [Hp | Hp]; [now left |]. cbn in Hp. lia. }
destruct Hp' as [-> | ->]; vm_compute; reflexivity.
Defined.

End SearchHookFacts.

(** ** A stored row that cannot be read *)

Module UnreadableFacts.
Import Js Supabase ChatDb.

(** Reading the history is all or nothing: when one of the rows the
store returns (the user's twenty oldest) holds books that the codec
cannot parse, the whole history comes back empty, the readable messages
included. *)
Theorem unreadable_row_hides_history (P : Platform) (uid : string) (w : World)
        (tm : list MessageRow) (r : MessageRow) (b : string) :
  health (store w) = Healthy ->
  chat_messages (store w) = Some tm ->
  r ∈ take 20 (sortBy created_le (rowsOf uid tm)) ->
  row_books r = Some b -> b <> EmptyString -> JSON_parse_books P b = None ->
  fst (loadChatHistory P (Some uid) false w) = [].
Proof.
intros Hh Ht Hr Hb Hne Hp.
rewrite ChatDbFacts.loadChatHistory_fst. unfold selectMessages, onTable. rewrite Hh, Ht.
destruct (mapM (toMessage P) (take 20 (sortBy created_le (rowsOf uid tm))))
  as [ms|] eqn:E; [| reflexivity].
exfalso. assert (Hs : is_Some (mapM (toMessage P)
                                    (take 20 (sortBy created_le (rowsOf uid tm)))))
  by (rewrite E; eauto).
apply mapM_is_Some in Hs. rewrite Forall_forall in Hs.
destruct (Hs r Hr) as [m Hm]. unfold toMessage in Hm. rewrite Hb, Hp in Hm.
destruct b; [congruence | discriminate].
Qed.

Lemma unreadable_row_hides_history_witness :
  fst (loadChatHistory Scenarios.strictCodec (Some "alice") false
                       (Examples.freshWorld Scenarios.brokenStore)) = [].
Proof.
apply (unreadable_row_hides_history Scenarios.strictCodec "alice"
         (Examples.freshWorld Scenarios.brokenStore)
         [Scenarios.oneRow; Scenarios.brokenRow] Scenarios.brokenRow "[{").
- reflexivity.
- reflexivity.
- vm_compute. apply list_elem_of_In. right. left. reflexivity.
- reflexivity.
- discriminate.
- reflexivity.
Defined.

End UnreadableFacts.
